(** * queryman: statement refinement, parameter binding, batch execution
      and result handling

    A shallow embedding of [domain.go], [result.go] and the executor file
    of the queryman package (the file holding [execute],
    [resolveColumnBindInList], [flattenArray], ...), followed by the
    properties established about them.

    Conventions of the embedding:
    - a Go [interface{}] is a [value]; run-time type inspection
      ([reflect.TypeOf(v).Kind()], type assertions) becomes pattern
      matching on the constructor;
    - a Go [int] / [int64] is a [Z]; [int64] additions wrap ([add64]);
    - a Go [string] is a [string] of bytes;
    - a Go slice that is only read, appended to and measured is a [list]
      (a nil slice is the empty list: [len], [range] and [append] do not
      tell them apart); the one place where the identity of backing arrays
      matters ([clone] before text rewriting) has a second model with an
      explicit store, [Module Aliasing];
    - a run-time panic is an explicit [Panicked] outcome;
    - the database, its handles and its transient faults are explicit
      state ([World]) threaded through the batch executor. *)

From stdpp Require Import gmap strings list fin_maps.
From Stdlib Require Import ZArith Ascii String Lia DecimalString DecimalNat.

#[local] Set Warnings "-register-all".
#[local] Open Scope Z_scope.

(* ===================================================================== *)
(** ** Go values and run-time kinds *)
(* ===================================================================== *)

(** The kinds [reflect.Kind] distinguishes that the package looks at. *)
Inductive Kind : Type :=
| KInt | KString | KSlice | KArray | KMap | KStruct | KPtr | KInterface.

Definition Kind_eqb (a b : Kind) : bool :=
  match a, b with
  | KInt, KInt | KString, KString | KSlice, KSlice | KArray, KArray
  | KMap, KMap | KStruct, KStruct | KPtr, KPtr | KInterface, KInterface => true
  | _, _ => false
  end.

(** A dynamically typed Go value, as far as this package can observe it. *)
Inductive value : Type :=
| VNil                                         (* the nil interface value *)
| VInt (n : Z)                                 (* a scalar *)
| VStr (s : string)                            (* a scalar *)
| VSliceIface (items : list value)             (* exactly []interface{} *)
| VSlice (items : list value)                  (* any other slice type *)
| VArray (items : list value)                  (* [n]T *)
| VMapIface (m : option (gmap string value))   (* exactly map[string]interface{}; None is the nil map *)
| VMapStr (m : gmap string value)              (* another map type with string keys *)
| VMapOther (len : nat)                        (* a map whose keys are not strings *)
| VStruct (valuer : bool) (fields : list (string * bool * value))
                                               (* a struct: implements driver.Valuer?, then
                                                  (field name, exported?, field value) in order *)
| VPtr (target : value)                        (* non-nil *T, T the type of target *)
| VPtrIface (target : value)                   (* non-nil *interface{} *)
| VNilPtr (pointee : Kind).                    (* nil *T, T of kind pointee *)

(** [reflect.TypeOf(v).Kind()]; [None] is the nil [reflect.Type] of the
    nil interface, on which [.Kind()] panics. *)
Definition kindOf (v : value) : option Kind :=
  match v with
  | VNil => None
  | VInt _ => Some KInt
  | VStr _ => Some KString
  | VSliceIface _ | VSlice _ => Some KSlice
  | VArray _ => Some KArray
  | VMapIface _ | VMapStr _ | VMapOther _ => Some KMap
  | VStruct _ _ => Some KStruct
  | VPtr _ | VPtrIface _ | VNilPtr _ => Some KPtr
  end.

(** Outcome of a Go computation that may panic. *)
Inductive outcome (A : Type) : Type :=
| Done (a : A)
| Panicked (cause : string).
Arguments Done {A} a.
Arguments Panicked {A} cause.

(** [m[k]] with the comma-ok flag, on a [map[string]interface{}]. *)
Definition mapIndex (m : option (gmap string value)) (k : string) : option value :=
  match m with
  | None => None
  | Some g => g !! k
  end.

(* ===================================================================== *)
(** ** domain.go: the statement model *)
(* ===================================================================== *)

Inductive declareElementType : Type :=
| eleTypeUnknown | eleTypeInsert | eleTypeUpdate | eleTypeSelect | eleTypeIf.

Definition isInsert (d : declareElementType) : bool :=
  match d with eleTypeInsert => true | _ => false end.

(** [columnBindType] is a [uint8] in the source, but only these two
    constants are ever stored in it. *)
Inductive columnBindType : Type :=
| columnBindTypeNormal | columnBindTypeArray.

Record ColumnBind : Type := mkColumnBind {
  name : string;
  holdPos : Z;
  bindType : columnBindType
}.

Definition NewColumnBind (n : string) (pos : Z) : ColumnBind :=
  {| name := n; holdPos := pos; bindType := columnBindTypeNormal |}.

Definition NewColumnBindArray (n : string) (pos : Z) : ColumnBind :=
  {| name := n; holdPos := pos; bindType := columnBindTypeArray |}.

Definition isArrayBind (c : ColumnBind) : bool :=
  match bindType c with columnBindTypeArray => true | columnBindTypeNormal => false end.

Module IfClause.
Record t : Type := mk {
  id : string;
  key : string;
  query : string;
  exist : bool
}.
End IfClause.

(** What [fmt.Errorf] was given: the format and its operands, kept apart. *)
Inductive fmtArg : Type :=
| FInt (n : Z)
| FStr (s : string)
| FColumn (c : ColumnBind)
| FValue (v : value)
| FTypeOf (v : value).                         (* reflect.TypeOf(v).String() *)

Inductive error : Type :=
| ErrInterfaceIsNotSupported
| ErrPtrIsNotSupported
| ErrInvalidMapKeyType
| ErrInvalidMapType
| ErrQueryNeedsPtrParameter
| ErrNilPtr
| ErrNoRows
| ErrNoInsertId
| ErrBadConn                                   (* driver.ErrBadConn *)
| DriverError (code : nat)                     (* any other error of the driver *)
| Errorf (format : string) (args : list fmtArg)
| ErrorfWrap (format : string) (cause : error). (* fmt.Errorf(format, err.Error()) *)

(** [err == driver.ErrBadConn]. *)
Definition isBadConn (e : option error) : bool :=
  match e with Some ErrBadConn => true | _ => false end.

Record QueryStatement : Type := mkQueryStatement {
  eleType : declareElementType;
  Id : string;
  Query : string;
  clause : list IfClause.t;
  columnMention : list ColumnBind;
  HoldedQuery : string
}.

Definition hasArrayBind (q : QueryStatement) : bool :=
  existsb isArrayBind (columnMention q).

Definition firstArgsIsArray (q : QueryStatement) : bool :=
  match columnMention q with
  | c :: _ => isArrayBind c
  | [] => false
  end.

(** [clone]: a new statement whose two slices are rebuilt element by
    element. *)
Definition clone (stmt : QueryStatement) : QueryStatement :=
  {| eleType := eleType stmt;
     Id := Id stmt;
     Query := Query stmt;
     clause := fold_left (fun acc v => acc ++ [v]) (clause stmt) [];
     columnMention := fold_left (fun acc v => acc ++ [v]) (columnMention stmt) [];
     HoldedQuery := HoldedQuery stmt |}.

Definition HasCondition (stmt : QueryStatement) : bool :=
  (0 <? Z.of_nat (List.length (clause stmt))).

Definition setQuery (stmt : QueryStatement) (q : string) : QueryStatement :=
  {| eleType := eleType stmt; Id := Id stmt; Query := q; clause := clause stmt;
     columnMention := columnMention stmt; HoldedQuery := HoldedQuery stmt |}.

(* --------------------------------------------------------------------- *)
(** *** [strings.Replace(s, old, new, -1)] *)
(* --------------------------------------------------------------------- *)

Definition byteIn (c : ascii) (lo hi : N) : bool :=
  ((lo <=? N_of_ascii c) && (N_of_ascii c <=? hi))%N.

Definition byteAt (s : string) (i : nat) : option ascii := String.get i s.

Definition contIn (s : string) (i : nat) (lo hi : N) : bool :=
  match byteAt s i with Some c => byteIn c lo hi | None => false end.

(** Width in bytes of the first rune of [s], as [utf8.DecodeRuneInString]
    reports it (1 for an invalid or truncated encoding, 0 for the empty
    string). *)
Definition runeWidth (s : string) : nat :=
  match s with
  | EmptyString => 0
  | String c0 _ =>
    let b0 := N_of_ascii c0 in
    if (b0 <? 194)%N then 1%nat
    else if (b0 <=? 223)%N then
      if contIn s 1 128 191 then 2%nat else 1%nat
    else if (b0 <=? 239)%N then
      let lo := if (b0 =? 224)%N then 160%N else 128%N in
      let hi := if (b0 =? 237)%N then 159%N else 191%N in
      if (3 <=? String.length s)%nat && contIn s 1 lo hi && contIn s 2 128 191
      then 3%nat else 1%nat
    else if (b0 <=? 244)%N then
      let lo := if (b0 =? 240)%N then 144%N else 128%N in
      let hi := if (b0 =? 244)%N then 143%N else 191%N in
      if (4 <=? String.length s)%nat && contIn s 1 lo hi && contIn s 2 128 191
         && contIn s 3 128 191
      then 4%nat else 1%nat
    else 1%nat
  end.

Fixpoint hasPrefix (s p : string) : bool :=
  match p, s with
  | EmptyString, _ => true
  | String a p', String b s' => if Ascii.eqb a b then hasPrefix s' p' else false
  | String _ _, EmptyString => false
  end.

(** Leftmost non-overlapping replacement of a non-empty [old]; [skip]
    counts the bytes of a match still to be dropped. *)
Fixpoint replaceFrom (old new : string) (skip : nat) (s : string) : string :=
  match s with
  | EmptyString => EmptyString
  | String c rest =>
    match skip with
    | S k => replaceFrom old new k rest
    | O =>
      if hasPrefix s old
      then new +:+ replaceFrom old new (String.length old - 1) rest
      else String c (replaceFrom old new 0 rest)
    end
  end.

(** With an empty [old], [new] goes after every rune; [rem] counts the
    bytes of the current rune still to be copied. *)
Fixpoint insertAfterRunes (new : string) (rem : nat) (s : string) : string :=
  match s with
  | EmptyString => EmptyString
  | String c rest =>
    let w := match rem with O => runeWidth s | S _ => rem end in
    match w with
    | S (S k) => String c (insertAfterRunes new (S k) rest)
    | _ => String c (new +:+ insertAfterRunes new 0 rest)
    end
  end.

Definition stringsReplaceAll (s old new : string) : string :=
  if String.eqb old new then s
  else match old with
       | EmptyString => new +:+ insertAfterRunes new 0 s
       | String _ _ => replaceFrom old new 0 s
       end.

(* --------------------------------------------------------------------- *)
(** *** The normalizer and [RefineStatement] *)
(* --------------------------------------------------------------------- *)

(** The [QueryNormalizer] interface. Its implementations are per driver
    and live outside the files at hand; [normalize] receives a pointer and
    rewrites the statement in place, which on values is a function to the
    rewritten statement. *)
Record QueryNormalizer : Type := mkQueryNormalizer {
  normalize : QueryStatement -> QueryStatement * option error;
  resolveHolding : string -> string
}.

(** Package-level names the embedded functions read: the normalizer
    singleton and the placeholder byte of a held query, both declared
    outside the files at hand. *)
Class Globals : Type := mkGlobals {
  queryNormalizer : QueryNormalizer;
  holdByte : ascii
}.

(** One turn of the loop of [RefineStatement]: the new value of
    [refined.Query]. [params = None] is the nil map. *)
Definition refineStep (params : option (gmap string value)) (q : string)
    (v : IfClause.t) : string :=
  match params with
  | None => stringsReplaceAll q (IfClause.id v) ""
  | Some m =>
    let ok := bool_decide (is_Some (m !! IfClause.key v)) in
    if IfClause.exist v then
      if ok then stringsReplaceAll q (IfClause.id v) (IfClause.query v)
      else stringsReplaceAll q (IfClause.id v) ""
    else
      if negb ok then stringsReplaceAll q (IfClause.id v) (IfClause.query v)
      else stringsReplaceAll q (IfClause.id v) ""
  end.

(** The statement handed to the normalizer at the end of
    [RefineStatement]. *)
Definition refinedBeforeNormalize (stmt : QueryStatement)
    (params : option (gmap string value)) : QueryStatement :=
  let refined := clone stmt in
  setQuery refined (fold_left (refineStep params) (clause stmt) (Query refined)).

Definition RefineStatement `{Globals} (stmt : QueryStatement)
    (params : option (gmap string value)) : QueryStatement * option error :=
  normalize queryNormalizer (refinedBeforeNormalize stmt params).

(* ===================================================================== *)
(** ** The binder: flattening and placeholder expansion *)
(* ===================================================================== *)

Definition dquote : string := String (ascii_of_nat 34) EmptyString.

Definition fmtNotFoundInMap : string :=
  "queryWithMap : not found " +:+ dquote +:+ "%s" +:+ dquote +:+ " from parameter values".

Definition fmtNotFoundInStruct : string :=
  "doExecWithStructList : not found " +:+ dquote +:+ "%s" +:+ dquote
  +:+ " from parameter values".

Definition fmtNotFoundInNestedMap : string :=
  "not found " +:+ dquote +:+ "%s" +:+ dquote +:+ " from map".

Definition fmtOnlyOneArray : string := "this version only support 1 IN array binding".

Definition fmtCountMismatch : string :=
  "binding parameter count mismatch. defined=%d, args=%d".

Definition fmtRowCountMismatch : string :=
  "binding parameter count mismatch. defined=%d, args[%d]=%d".

Definition fmtNestedSliceOnly : string :=
  "nested listing structure should have slice type data only. %d=%s".

Definition fmtNestedMapOnly : string :=
  "nested listing structure should have map type data only. %d=%s".

Definition fmtNoLastId : string := "fail to get last inserted id : %s".

Definition len {A} (l : list A) : Z := Z.of_nat (List.length l).

(** [reflect.ValueOf(v).Len()]. A pointer to an array has the length of
    the array; any other pointer, a scalar or nil panics. *)
Definition reflectLen (v : value) : outcome Z :=
  match v with
  | VSliceIface l | VSlice l | VArray l => Done (len l)
  | VPtr (VArray l) => Done (len l)
  | VStr s => Done (Z.of_nat (String.length s))
  | VMapIface None => Done 0
  | VMapIface (Some m) | VMapStr m => Done (Z.of_nat (size m))
  | VMapOther n => Done (Z.of_nat n)
  | _ => Panicked "reflect: call of reflect.Value.Len on a value without length"
  end.

Definition bytesOf (s : string) : list value :=
  map (fun c => VInt (Z.of_N (N_of_ascii c))) (list_ascii_of_string s).

(** [flattenToList]: every element through [s.Index(i).Interface()]. *)
Definition flattenToList (v : value) : outcome (list value) :=
  match v with
  | VSliceIface l | VSlice l | VArray l => Done l
  | VStr s => Done (bytesOf s)
  | VPtr (VArray []) => Done []
  | _ => Panicked "reflect: call of reflect.Value.Index or Len on a value that is no sequence"
  end.

(** [flattenToMap]: a fresh map with the same entries; a key that is not
    a string panics. *)
Definition flattenToMap (v : value) : outcome (gmap string value) :=
  match v with
  | VMapIface None => Done ∅
  | VMapIface (Some m) | VMapStr m => Done m
  | VMapOther O => Done ∅
  | VMapOther (S _) => Panicked "map key should be string"
  | _ => Panicked "reflect: call of reflect.Value.MapKeys on a value that is no map"
  end.

(** [flattenStructToMap]: the exported fields by name, in field order. *)
Definition flattenStructToMap (s : value) : outcome (gmap string value) :=
  match s with
  | VStruct _ fields =>
    Done (fold_left
            (fun m f => match f with
                        | (fname, exported, fv) => if exported : bool then <[fname := fv]> m else m
                        end)
            fields ∅)
  | _ => Panicked "reflect: NumField of non-struct type"
  end.

(** The [[]interface{}] branch of [flattenArray]: every item is appended
    and [varCnt] is left at the index of the last one. *)
Definition flattenIfaceSlice (slice : list value) : list value * Z :=
  let '(param, varCnt, _) :=
    fold_left (fun '(param, varCnt, i) item => (param ++ [item], i, i + 1))
              slice ([], 0, 0) in
  (param, varCnt).

Definition flattenArray (v : value) : outcome (list value * Z) :=
  match kindOf v with
  | None => Panicked "invalid memory address or nil pointer dereference"
  | Some KPtr =>
    match v with
    | VNilPtr _ => Done ([], 1)
    | VPtr (VSliceIface slice) => Done (flattenIfaceSlice slice)
    | VPtr (VSlice _) =>
      Panicked "reflect: call of reflect.Value.Len on ptr to non-array Value"
    | VPtr (VArray []) => Done ([], 0)
    | VPtr (VArray (_ :: _)) => Panicked "reflect: call of reflect.Value.Index on ptr Value"
    | VPtr VNil => Panicked "invalid memory address or nil pointer dereference"
    | _ => Done ([v], 1)
    end
  | Some k =>
    if negb (Kind_eqb k KSlice) && negb (Kind_eqb k KArray) then Done ([v], 1)
    else match v with
         | VSliceIface slice => Done (flattenIfaceSlice slice)
         | VSlice items | VArray items =>
           Done (fold_left (fun param item => param ++ [item]) items [], len items)
         | _ => Done ([v], 1)
         end
  end.

Section Binder.
Context `{Globals}.

Definition reformArrayHold (cnt : Z) : string :=
  if cnt =? 0 then ""
  else if cnt =? 1 then String holdByte EmptyString
  else fold_left
         (fun buf i => (if (0 <? i)%nat then buf +:+ "," else buf)
                       +:+ String holdByte EmptyString)
         (seq 0 (Z.to_nat cnt)) "".

(** [holdQuery[:holdPos-1] + reformArrayHold(cnt) + holdQuery[holdPos:]];
    a slice bound outside the string panics. *)
Definition reformHoldQuery (holdQuery : string) (columnBind : ColumnBind) (cnt : Z)
    : outcome string :=
  let pos := holdPos columnBind in
  let n := Z.of_nat (String.length holdQuery) in
  if (1 <=? pos) && (pos <=? n) then
    let prefix := String.substring 0 (Z.to_nat (pos - 1)) holdQuery in
    let suffix := String.substring (Z.to_nat pos) (Z.to_nat (n - pos)) holdQuery in
    Done (prefix +:+ reformArrayHold cnt +:+ suffix)
  else Panicked "slice bounds out of range".

(** State of the binding loops: the arguments so far, the held query
    and whether one array column was already expanded; [bindFail] is
    the early return. *)
Record bindState : Type := mkBindState {
  bindParam : list value;
  bindHeld : string;
  bindTouch : bool;
  bindFail : option error
}.

(** The body of the loop over [clone.columnMention], shared by
    [resolveColumnBindInList] and [resolveColumnBindInMap], for the
    column [v] and the value [found] bound to it. *)
Definition bindColumn (v : ColumnBind) (found : value) (st : bindState)
    : outcome bindState :=
  match bindType v with
  | columnBindTypeNormal =>
    Done (mkBindState (bindParam st ++ [found]) (bindHeld st) (bindTouch st) None)
  | columnBindTypeArray =>
    match flattenArray found with
    | Panicked why => Panicked why
    | Done (arr, cnt) =>
      let param := bindParam st ++ arr in
      if 1 <? cnt then
        if bindTouch st then
          Done (mkBindState param (bindHeld st) true (Some (Errorf fmtOnlyOneArray [])))
        else
          match reformHoldQuery (bindHeld st) v cnt with
          | Panicked why => Panicked why
          | Done held => Done (mkBindState param held true None)
          end
      else Done (mkBindState param (bindHeld st) (bindTouch st) None)
    end
  end.

(** [for i, v := range clone.columnMention { found := args[i]; ... }] *)
Fixpoint bindLoopList (cols : list ColumnBind) (args : list value) (st : bindState)
    : outcome bindState :=
  match cols with
  | [] => Done st
  | v :: cols' =>
    match args with
    | [] => Panicked "index out of range"
    | found :: args' =>
      match bindColumn v found st with
      | Panicked why => Panicked why
      | Done st' =>
        match bindFail st' with
        | Some _ => Done st'
        | None => bindLoopList cols' args' st'
        end
      end
    end
  end.

(** [for _, v := range clone.columnMention { found := m[v.Name()]; ... }];
    a missing key reads as the nil interface. *)
Fixpoint bindLoopMap (cols : list ColumnBind) (m : option (gmap string value))
    (st : bindState) : outcome bindState :=
  match cols with
  | [] => Done st
  | v :: cols' =>
    let found := default VNil (mapIndex m (name v)) in
    match bindColumn v found st with
    | Panicked why => Panicked why
    | Done st' =>
      match bindFail st' with
      | Some _ => Done st'
      | None => bindLoopMap cols' m st'
      end
    end
  end.

(** What both resolvers return after their loop. *)
Definition bindFinish (effectiveQuery : string) (r : outcome bindState)
    : outcome (string * list value * option error) :=
  match r with
  | Panicked why => Panicked why
  | Done st =>
    match bindFail st with
    | Some e => Done (effectiveQuery, bindParam st, Some e)
    | None =>
      Done (if bindTouch st then resolveHolding queryNormalizer (bindHeld st)
            else effectiveQuery,
            bindParam st, None)
    end
  end.

Definition resolveColumnBindInList (stmt : QueryStatement) (args : list value)
    : outcome (string * list value * option error) :=
  if negb (hasArrayBind stmt) then Done (Query stmt, args, None)
  else
    let clone := clone stmt in
    let effectiveQuery := Query clone in
    let holdedQuery := HoldedQuery clone in
    if len args <? len (columnMention clone) then
      Done (effectiveQuery, [],
            Some (Errorf fmtCountMismatch
                         [FInt (len (columnMention stmt)); FInt (len args)]))
    else
      bindFinish effectiveQuery
        (bindLoopList (columnMention clone) args (mkBindState [] holdedQuery false None)).

(** The loop of the branch without array binding: every name must be in
    the map. *)
Fixpoint lookupAll (cols : list ColumnBind) (m : option (gmap string value))
    (param : list value) : list value * option error :=
  match cols with
  | [] => (param, None)
  | v :: cols' =>
    match mapIndex m (name v) with
    | None => (param, Some (Errorf fmtNotFoundInMap [FColumn v]))
    | Some found => lookupAll cols' m (param ++ [found])
    end
  end.

(** The third result is the [err] of the [*QueryResult] the source
    returns ([None] for a nil result). *)
Definition resolveColumnBindInMap (stmt : QueryStatement) (m : option (gmap string value))
    : outcome (string * list value * option error) :=
  if negb (hasArrayBind stmt) then
    let '(param, err) := lookupAll (columnMention stmt) m [] in
    Done (Query stmt, param, err)
  else
    let clone := clone stmt in
    let effectiveQuery := Query clone in
    let holdedQuery := HoldedQuery clone in
    bindFinish effectiveQuery
      (bindLoopMap (columnMention clone) m (mkBindState [] holdedQuery false None)).

(** [refineConditional(stmt, v...)]. *)
Definition refineConditional (stmt : QueryStatement) (v : list value)
    : outcome (QueryStatement * option error) :=
  if negb (HasCondition stmt) then Done (stmt, None)
  else match v with
       | [] => Done (RefineStatement stmt None)
       | v0 :: _ =>
         match kindOf v0 with
         | None => Panicked "invalid memory address or nil pointer dereference"
         | Some k0 =>
           let reformed :=
             if Kind_eqb k0 KPtr then
               match v0 with
               | VPtr t => inl (kindOf t, t)
               | VPtrIface t => inl (Some KInterface, t)
               | _ => inr ErrNilPtr
               end
             else inl (Some k0, v0) in
           match reformed with
           | inr e => Done (stmt, Some e)
           | inl (Some KMap, val) =>
             match val with
             | VMapIface m => Done (RefineStatement stmt m)
             | _ => match flattenToMap val with
                    | Panicked why => Panicked why
                    | Done passing => Done (RefineStatement stmt (Some passing))
                    end
             end
           | inl (_, _) => Done (RefineStatement stmt None)
           end
         end
       end.
End Binder.

(* ===================================================================== *)
(** ** result.go: the batch result *)
(* ===================================================================== *)

Definition wrap64 (z : Z) : Z := (z + 2 ^ 63) mod 2 ^ 64 - 2 ^ 63.

(** [+=] on [int64]. *)
Definition add64 (a b : Z) : Z := wrap64 (a + b).

Record ExecMultiResult : Type := mkExecMultiResult {
  idList : list Z;
  rowAffected : Z
}.

Definition emptyResult : ExecMultiResult := mkExecMultiResult [] 0.

Definition addInsertId (p : ExecMultiResult) (id : Z) : ExecMultiResult :=
  mkExecMultiResult (idList p ++ [id]) (rowAffected p).

Definition GetInsertIdList (p : ExecMultiResult) : list Z := idList p.

Definition LastInsertId (p : ExecMultiResult) : Z * option error :=
  match idList p with
  | [] => (0, Some ErrNoInsertId)
  | first :: _ => (first, None)
  end.

Definition RowsAffected (p : ExecMultiResult) : Z * option error :=
  (rowAffected p, None).

(* ===================================================================== *)
(** ** The batch executor *)
(* ===================================================================== *)

(** The [sql.Result] of one execution: what [RowsAffected] and
    [LastInsertId] report. *)
Record sqlResult : Type := mkSqlResult {
  affected : Z;
  insertId : Z;
  insertIdErr : option error
}.

(** The execution collaborator over a database of type [DB]. A call is
    numbered by how many calls of its kind came before; a call that
    faults does not reach the database (the contract of
    [driver.ErrBadConn]), a call that does not fault is [perform]ed. *)
Record SqlProxy (DB : Type) : Type := mkSqlProxy {
  prepareFault : nat -> option error;
  execFault : nat -> option error;
  perform : DB -> string -> list value -> DB * sqlResult
}.
Arguments prepareFault {DB} _ _.
Arguments execFault {DB} _ _.
Arguments perform {DB} _ _ _ _.

(** The same collaborator on a connection that never faults. *)
Definition faultFree {DB} (p : SqlProxy DB) : SqlProxy DB :=
  mkSqlProxy DB (fun _ => None) (fun _ => None) (perform p).

Record World (DB : Type) : Type := mkWorld {
  db : DB;
  prepareCalls : nat;      (* calls of sqlProxy.prepare *)
  execCalls : nat;         (* calls of pstmt.Exec *)
  closeCalls : nat;        (* calls of pstmt.Close *)
  executedRows : nat       (* executions that reached the database *)
}.
Arguments db {DB} _.
Arguments prepareCalls {DB} _.
Arguments execCalls {DB} _.
Arguments closeCalls {DB} _.
Arguments executedRows {DB} _.

Definition newWorld {DB} (d : DB) : World DB := mkWorld DB d 0 0 0 0.

(** What the loop makes of one element before it executes it. *)
Inductive rowBind : Type :=
| RowArgs (param : list value)
| RowError (e : error)
| RowPanic (why : string).

(** The checks at the top of [doExecWithNestedList]. *)
Fixpoint validateNestedList (defined : Z) (args : list value) (i : Z)
    : outcome (option error) :=
  match args with
  | [] => Done None
  | v :: rest =>
    match kindOf v with
    | None => Panicked "invalid memory address or nil pointer dereference"
    | Some k =>
      if negb (Kind_eqb k KSlice) && negb (Kind_eqb k KArray)
      then Done (Some (Errorf fmtNestedSliceOnly [FInt i; FTypeOf v]))
      else match reflectLen v with
           | Panicked why => Panicked why
           | Done n =>
             if n <? defined
             then Done (Some (Errorf fmtRowCountMismatch [FInt defined; FInt i; FInt n]))
             else validateNestedList defined rest (i + 1)
           end
    end
  end.

(** The checks at the top of [doExecWithNestedMap]. *)
Fixpoint validateNestedMap (defined : Z) (args : list value) (i : Z)
    : outcome (option error) :=
  match args with
  | [] => Done None
  | v :: rest =>
    match kindOf v with
    | None => Panicked "invalid memory address or nil pointer dereference"
    | Some k =>
      if negb (Kind_eqb k KMap)
      then Done (Some (Errorf fmtNestedMapOnly [FInt i; FTypeOf v]))
      else match reflectLen v with
           | Panicked why => Panicked why
           | Done n =>
             if n <? defined
             then Done (Some (Errorf fmtRowCountMismatch [FInt defined; FInt i; FInt n]))
             else validateNestedMap defined rest (i + 1)
           end
    end
  end.

Definition bindListRow (v : value) : rowBind :=
  match flattenToList v with
  | Panicked why => RowPanic why
  | Done passing => RowArgs passing
  end.

(** [for _, v2 := range stmt.columnMention { found, ok := m[v2.Name()] ... }]
    with the error of a missing name left to the caller. *)
Fixpoint lookupColumns (cols : list ColumnBind) (m : option (gmap string value))
    (param : list value) : list value + ColumnBind :=
  match cols with
  | [] => inl param
  | c :: cols' =>
    match mapIndex m (name c) with
    | None => inr c
    | Some found => lookupColumns cols' m (param ++ [found])
    end
  end.

Definition bindMapRow (stmt : QueryStatement) (v : value) : rowBind :=
  match v with
  | VMapIface m =>
    match lookupColumns (columnMention stmt) m [] with
    | inr _ => RowError (Errorf fmtNotFoundInNestedMap [FValue v])
    | inl param => RowArgs param
    end
  | _ => RowError ErrInvalidMapType
  end.

Definition bindStructRow (stmt : QueryStatement) (v : value) : rowBind :=
  match kindOf v with
  | None => RowPanic "invalid memory address or nil pointer dereference"
  | Some k =>
    let reformed :=
      if Kind_eqb k KPtr then
        match v with
        | VPtr t | VPtrIface t => Some t
        | _ => None
        end
      else Some v in
    match reformed with
    | None => RowError ErrNilPtr
    | Some val =>
      match flattenStructToMap val with
      | Panicked why => RowPanic why
      | Done m =>
        match lookupColumns (columnMention stmt) (Some m) [] with
        | inr c => RowError (Errorf fmtNotFoundInStruct [FColumn c])
        | inl param => RowArgs param
        end
      end
    end
  end.

Section BatchExecutor.
Context {DB : Type} (sqlProxy : SqlProxy DB).

(** [sqlProxy.prepare]: the call is counted, its fault returned. *)
Definition prepare (w : World DB) : World DB * option error :=
  (mkWorld DB (db w) (S (prepareCalls w)) (execCalls w) (closeCalls w) (executedRows w),
   prepareFault sqlProxy (prepareCalls w)).

(** [pstmt.Exec(param...)]. *)
Definition stmtExec (query : string) (param : list value) (w : World DB)
    : World DB * (sqlResult + error) :=
  match execFault sqlProxy (execCalls w) with
  | Some e =>
    (mkWorld DB (db w) (prepareCalls w) (S (execCalls w)) (closeCalls w) (executedRows w),
     inr e)
  | None =>
    let '(db', res) := perform sqlProxy (db w) query param in
    (mkWorld DB db' (prepareCalls w) (S (execCalls w)) (closeCalls w)
             (S (executedRows w)),
     inl res)
  end.

(** [pstmt.Close()]. *)
Definition stmtClose (w : World DB) : World DB :=
  mkWorld DB (db w) (prepareCalls w) (execCalls w) (S (closeCalls w)) (executedRows w).

(** The loop [for i, v := range args] common to the three batch
    functions, which differ in how an element becomes the arguments of
    one execution ([bindRow]). At the end [i] is [len(args)]. *)
Fixpoint iterateRows (bindRow : value -> rowBind) (stmt : QueryStatement)
    (args : list value) (i : Z) (result : ExecMultiResult) (w : World DB)
    : World DB * outcome (Z * ExecMultiResult * option error) :=
  match args with
  | [] => (w, Done (i, result, None))
  | v :: rest =>
    match bindRow v with
    | RowPanic why => (w, Panicked why)
    | RowError e => (w, Done (i, result, Some e))
    | RowArgs param =>
      match stmtExec (Query stmt) param w with
      | (w', inr e) => (w', Done (i, result, Some e))
      | (w', inl res) =>
        let result := mkExecMultiResult (idList result)
                                        (add64 (rowAffected result) (affected res)) in
        if isInsert (eleType stmt) then
          match insertIdErr res with
          | Some e => (w', Done (i, result, Some (ErrorfWrap fmtNoLastId e)))
          | None => iterateRows bindRow stmt rest (i + 1)
                                (addInsertId result (insertId res)) w'
          end
        else iterateRows bindRow stmt rest (i + 1) result w'
      end
    end
  end.

(** Prepare, iterate, and close the handle on the way out
    ([defer pstmt.Close()]), also when the loop panics. *)
Definition prepareAndIterate (bindRow : value -> rowBind) (stmt : QueryStatement)
    (args : list value) (w : World DB)
    : World DB * outcome (Z * ExecMultiResult * option error) :=
  match prepare w with
  | (w1, Some err) => (w1, Done (0, emptyResult, Some err))
  | (w1, None) =>
    let '(w2, r) := iterateRows bindRow stmt args 0 emptyResult w1 in
    (stmtClose w2, r)
  end.

Definition doExecWithNestedList (stmt : QueryStatement) (args : list value)
    (w : World DB) : World DB * outcome (Z * ExecMultiResult * option error) :=
  match validateNestedList (len (columnMention stmt)) args 0 with
  | Panicked why => (w, Panicked why)
  | Done (Some err) => (w, Done (0, emptyResult, Some err))
  | Done None => prepareAndIterate bindListRow stmt args w
  end.

Definition doExecWithNestedMap (stmt : QueryStatement) (args : list value)
    (w : World DB) : World DB * outcome (Z * ExecMultiResult * option error) :=
  match validateNestedMap (len (columnMention stmt)) args 0 with
  | Panicked why => (w, Panicked why)
  | Done (Some err) => (w, Done (0, emptyResult, Some err))
  | Done None => prepareAndIterate (bindMapRow stmt) stmt args w
  end.

Definition doExecWithStructList (stmt : QueryStatement) (args : list value)
    (w : World DB) : World DB * outcome (Z * ExecMultiResult * option error) :=
  prepareAndIterate (bindStructRow stmt) stmt args w.

(** The body shared by [execWithNestedList], [execWithNestedMap] and
    [execWithStructList]: one more pass over [args[executed:]] when the
    first ended on [driver.ErrBadConn]. *)
Definition retryOnBadConn
    (doExec : list value -> World DB ->
              World DB * outcome (Z * ExecMultiResult * option error))
    (args : list value) (w : World DB)
    : World DB * outcome (ExecMultiResult * option error) :=
  match doExec args w with
  | (w1, Panicked why) => (w1, Panicked why)
  | (w1, Done (executed, result, err)) =>
    if isBadConn err then
      if (0 <=? executed) && (executed <=? len args) then
        match doExec (drop (Z.to_nat executed) args) w1 with
        | (w2, Panicked why) => (w2, Panicked why)
        | (w2, Done (_, nextResult, None)) =>
          (w2, Done (mkExecMultiResult
                       (idList result ++ idList nextResult)
                       (add64 (rowAffected result) (rowAffected nextResult)),
                     None))
        | (w2, Done (_, _, Some err2)) => (w2, Done (result, Some err2))
        end
      else (w1, Panicked "slice bounds out of range")
    else (w1, Done (result, err))
  end.

Definition execWithNestedList (stmt : QueryStatement) (args : list value)
    (w : World DB) : World DB * outcome (ExecMultiResult * option error) :=
  retryOnBadConn (doExecWithNestedList stmt) args w.

Definition execWithNestedMap (stmt : QueryStatement) (args : list value)
    (w : World DB) : World DB * outcome (ExecMultiResult * option error) :=
  retryOnBadConn (doExecWithNestedMap stmt) args w.

Definition execWithStructList (stmt : QueryStatement) (args : list value)
    (w : World DB) : World DB * outcome (ExecMultiResult * option error) :=
  retryOnBadConn (doExecWithStructList stmt) args w.

(** [execWithMap]: bind by name, and execute only when the binding
    reported no error. [sqlProxy.exec] is the direct execution, counted
    and faulted like [pstmt.Exec]. *)
Definition execWithMap `{Globals} (stmt : QueryStatement)
    (m : option (gmap string value)) (w : World DB)
    : World DB * outcome (option sqlResult * option error) :=
  match resolveColumnBindInMap stmt m with
  | Panicked why => (w, Panicked why)
  | Done (_, _, Some bindErr) => (w, Done (None, Some bindErr))
  | Done (effectiveQuery, param, None) =>
    match stmtExec effectiveQuery param w with
    | (w', inl res) => (w', Done (Some res, None))
    | (w', inr e) => (w', Done (None, Some e))
    end
  end.
End BatchExecutor.

(* ===================================================================== *)
(** ** result.go: scanning *)
(* ===================================================================== *)

(** A [*sql.Rows] as the scanning code meets it: what each of its methods
    answers. [rowsScanStruct] stands for [scanToStruct] from [Columns]
    on (the structure scanner is defined outside the files at hand). *)
Record Rows : Type := mkRows {
  rowsErr : option error;                  (* Err() while the cursor is iterating *)
  rowsNext : bool;                         (* what Next() answers *)
  rowsErrAtEnd : option error;             (* Err() once Next() has answered false *)
  rowsScan : outcome (option error);       (* Scan(dest...) on the current row *)
  rowsScanStruct : outcome (option error)  (* field-by-field scan of the current row *)
}.

(** A [*sql.Stmt]; only its identity matters here. *)
Inductive Stmt : Type := stmtHandle.

Definition fmtFailToScan : string := "fail to scan : %s".

(** What the destination checks common to both [Scan]s decide. *)
Inductive destClass : Type :=
| DestPanic (why : string)
| DestError (e : error)
| DestStruct            (* a pointer to a struct that is no driver.Valuer *)
| DestDirect.           (* anything the driver scans itself *)

Definition classifyDest (v : list value) : destClass :=
  match v with
  | [] => DestPanic "index out of range"
  | v0 :: _ =>
    match kindOf v0 with
    | None => DestPanic "invalid memory address or nil pointer dereference"
    | Some k =>
      if negb (Kind_eqb k KPtr) then DestError ErrQueryNeedsPtrParameter
      else match v0 with
           | VPtrIface _ => DestError ErrInterfaceIsNotSupported
           | VPtr t =>
             match kindOf t with
             | None => DestPanic "invalid memory address or nil pointer dereference"
             | Some KInterface => DestError ErrInterfaceIsNotSupported
             | Some KPtr => DestError ErrPtrIsNotSupported
             | Some KStruct =>
               match t with
               | VStruct false _ => DestStruct
               | _ => DestDirect
               end
             | Some _ => DestDirect
             end
           | _ => DestError ErrNilPtr
           end
    end
  end.

(** [recover()] in the deferred function of both [Scan]s. *)
Definition recoverScan (r : outcome (option error)) : option error :=
  match r with
  | Done e => e
  | Panicked why => Some (Errorf fmtFailToScan [FStr why])
  end.

Module QueryResult.
Record t : Type := mk {
  pstmt : option Stmt;
  err : option error;
  rows : option Rows
}.

Definition newQueryResultError (e : error) : t :=
  mk None (Some e) None.

Definition newQueryResult (stmt : option Stmt) (rs : option Rows) : t :=
  mk stmt None rs.

Definition GetError (r : t) : option error := err r.

Definition scanToStruct (rs : Rows) : outcome (option error) :=
  match rowsErr rs with
  | Some e => Done (Some e)
  | None => rowsScanStruct rs
  end.

(** The named result [err] is nil until something is assigned to it: the
    first [return err] returns nil. A panic before the [defer] is not
    recovered. *)
Definition Scan (r : t) (v : list value) : outcome (option error) :=
  let err_named : option error := None in
  match err r with
  | Some _ => Done err_named
  | None =>
    match rows r with
    | None => Panicked "invalid memory address or nil pointer dereference"
    | Some rs =>
      match rowsErr rs with
      | Some e => Done (Some e)
      | None =>
        Done (recoverScan
                match classifyDest v with
                | DestPanic why => Panicked why
                | DestError e => Done (Some e)
                | DestStruct => scanToStruct rs
                | DestDirect => rowsScan rs
                end)
      end
    end
  end.
End QueryResult.

(** Calls of [Close] made on the cursor and on the statement handle. *)
Inductive closeEvent : Type := RowsClosed | StmtClosed.

Definition closeEvent_eqb (a b : closeEvent) : bool :=
  match a, b with
  | RowsClosed, RowsClosed | StmtClosed, StmtClosed => true
  | _, _ => false
  end.

Definition countEvent (e : closeEvent) (tr : list closeEvent) : nat :=
  List.length (List.filter (closeEvent_eqb e) tr).

Module QueryRowResult.
Record t : Type := mk {
  transaction : bool;
  pstmt : option Stmt;
  err : option error;
  rows : option Rows
}.

Definition newQueryRowResultError (e : error) : t :=
  mk false None (Some e) None.

Definition newQueryRowResult (stmt : option Stmt) (rs : option Rows) : t :=
  mk false stmt None rs.

Definition SetTransaction (r : t) : t :=
  mk true (pstmt r) (err r) (rows r).

Definition scanToStruct (rs : Rows) : outcome (option error) :=
  rowsScanStruct rs.

(** The body of [Scan], before any deferred function runs. *)
Definition scanBody (r : t) (v : list value) : outcome (option error) :=
  match err r with
  | Some e => Done (Some e)
  | None =>
    match rows r with
    | None => Panicked "invalid memory address or nil pointer dereference"
    | Some rs =>
      match rowsErr rs with
      | Some e => Done (Some e)
      | None =>
        if negb (rowsNext rs) then
          match rowsErrAtEnd rs with
          | Some e => Done (Some e)
          | None => Done (Some ErrNoRows)
          end
        else
          match classifyDest v with
          | DestPanic why => Panicked why
          | DestError e => Done (Some e)
          | DestStruct => scanToStruct rs
          | DestDirect => rowsScan rs
          end
      end
    end
  end.

(** The deferred release: the receiver afterwards and the [Close]
    calls made, in order. *)
Definition release (r : t) : t * list closeEvent :=
  let '(rows', ev1) :=
    match rows r with
    | Some _ => (None, [RowsClosed])
    | None => (rows r, [])
    end in
  let '(pstmt', ev2) :=
    if negb (transaction r) then
      match pstmt r with
      | Some _ => (None, [StmtClosed])
      | None => (pstmt r, [])
      end
    else (pstmt r, []) in
  (mk (transaction r) pstmt' (err r) rows', ev1 ++ ev2).

(** [Scan]: the body, then the deferred release, then the deferred
    [recover]. *)
Definition Scan (r : t) (v : list value) : t * list closeEvent * option error :=
  let body := scanBody r v in
  let '(r', events) := release r in
  (r', events, recoverScan body).
End QueryRowResult.

(* ===================================================================== *)
(** ** Statements in memory: slices as references to backing arrays *)
(* ===================================================================== *)

(** [clone] exists because a [QueryStatement] copied by value still shares
    the backing arrays of its two slices with the registered statement.
    Here a statement holds references into a store of arrays, [clone]
    allocates, and the normalizer writes through the pointer it is
    given. *)
Module Aliasing.
Inductive array : Type :=
| ClauseArray (l : list IfClause.t)
| ColumnArray (l : list ColumnBind).

(** A [QueryStatement] struct value: a slice is a reference to its
    backing array, [None] for the nil slice. *)
Record Statement : Type := mkStatement {
  sEleType : declareElementType;
  sId : string;
  sQuery : string;
  sClause : option nat;
  sColumnMention : option nat;
  sHoldedQuery : string
}.

Definition readClause (h : gmap nat array) (s : option nat) : list IfClause.t :=
  match s with
  | None => []
  | Some l => match h !! l with Some (ClauseArray c) => c | _ => [] end
  end.

Definition readColumns (h : gmap nat array) (s : option nat) : list ColumnBind :=
  match s with
  | None => []
  | Some l => match h !! l with Some (ColumnArray c) => c | _ => [] end
  end.

(** The statement a struct value denotes in a store. *)
Definition view (h : gmap nat array) (s : Statement) : QueryStatement :=
  {| eleType := sEleType s; Id := sId s; Query := sQuery s;
     clause := readClause h (sClause s);
     columnMention := readColumns h (sColumnMention s);
     HoldedQuery := sHoldedQuery s |}.

(** Every slice of [s] refers to an array of its element type. *)
Definition wellFormed (h : gmap nat array) (s : Statement) : Prop :=
  (forall l, sClause s = Some l -> exists c, h !! l = Some (ClauseArray c)) /\
  (forall l, sColumnMention s = Some l -> exists c, h !! l = Some (ColumnArray c)).

Definition alloc (h : gmap nat array) (a : array) : gmap nat array * nat :=
  let l := fresh (dom h) in (<[l := a]> h, l).

(** [clone]: [make] and [append] leave each slice of the copy on an
    array of its own. *)
Definition clone (h : gmap nat array) (stmt : Statement) : gmap nat array * Statement :=
  let '(h1, lc) :=
    alloc h (ClauseArray (fold_left (fun acc v => acc ++ [v])
                                    (readClause h (sClause stmt)) [])) in
  let '(h2, lm) :=
    alloc h1 (ColumnArray (fold_left (fun acc v => acc ++ [v])
                                     (readColumns h1 (sColumnMention stmt)) [])) in
  (h2, {| sEleType := sEleType stmt; sId := sId stmt; sQuery := sQuery stmt;
          sClause := Some lc; sColumnMention := Some lm;
          sHoldedQuery := sHoldedQuery stmt |}).

Definition setQuery (s : Statement) (q : string) : Statement :=
  {| sEleType := sEleType s; sId := sId s; sQuery := q; sClause := sClause s;
     sColumnMention := sColumnMention s; sHoldedQuery := sHoldedQuery s |}.

(** [normalize(&refined)] on the store. *)
Definition Normalizer : Type :=
  gmap nat array -> Statement -> gmap nat array * Statement * option error.

Definition RefineStatement (normalizeAt : Normalizer) (h : gmap nat array)
    (stmt : Statement) (params : option (gmap string value))
    : gmap nat array * Statement * option error :=
  let '(h1, refined) := clone h stmt in
  let q := fold_left (refineStep params) (readClause h1 (sClause stmt)) (sQuery refined) in
  normalizeAt h1 (setQuery refined q).

(** The normalizer leaves alone every array that the statement it is
    given does not refer to. *)
Definition writesOnlyItsOwn (normalizeAt : Normalizer) : Prop :=
  forall h s l,
    is_Some (h !! l) -> sClause s <> Some l -> sColumnMention s <> Some l ->
    (normalizeAt h s).1.1 !! l = h !! l.

(** On what the statement denotes, the normalizer computes [normalize]. *)
Definition implements `{Globals} (normalizeAt : Normalizer) : Prop :=
  forall h s,
    wellFormed h s ->
    view (normalizeAt h s).1.1 (normalizeAt h s).1.2
      = (normalize queryNormalizer (view h s)).1
    /\ (normalizeAt h s).2 = (normalize queryNormalizer (view h s)).2.
End Aliasing.

(* ===================================================================== *)
(** ** Sample collaborators and statements *)
(* ===================================================================== *)

(** A normalizer for a driver whose native placeholder is the hold byte:
    nothing to rewrite. *)
Definition plainNormalizer : QueryNormalizer :=
  mkQueryNormalizer (fun stmt => (stmt, None)) (fun q => q).

Definition plainGlobals : Globals := mkGlobals plainNormalizer "?"%char.

(** [SELECT * FROM t WHERE id IN (?)], the placeholder at byte 30. *)
Definition stmtOneArray : QueryStatement :=
  mkQueryStatement eleTypeSelect "findIn"
    "SELECT * FROM t WHERE id IN (?)" []
    [NewColumnBindArray "ids" 30]
    "SELECT * FROM t WHERE id IN (?)".

(** [SELECT * FROM t WHERE a IN (?) AND b IN (?)], placeholders at bytes
    29 and 42. *)
Definition stmtTwoArrays : QueryStatement :=
  mkQueryStatement eleTypeSelect "findIn2"
    "SELECT * FROM t WHERE a IN (?) AND b IN (?)" []
    [NewColumnBindArray "as" 29; NewColumnBindArray "bs" 42]
    "SELECT * FROM t WHERE a IN (?) AND b IN (?)".

(** [SELECT * FROM t WHERE s = ? AND id IN (?)], placeholders at bytes 27
    and 40. *)
Definition stmtNormalAndArray : QueryStatement :=
  mkQueryStatement eleTypeSelect "findBy"
    "SELECT * FROM t WHERE s = ? AND id IN (?)" []
    [NewColumnBind "status" 27; NewColumnBindArray "ids" 40]
    "SELECT * FROM t WHERE s = ? AND id IN (?)".

(** [INSERT INTO t(a) VALUES (?)] with one column. *)
Definition stmtInsert : QueryStatement :=
  mkQueryStatement eleTypeInsert "addRow"
    "INSERT INTO t(a) VALUES (?)" []
    [NewColumnBind "A" 26]
    "INSERT INTO t(a) VALUES (?)".

(** A table with an auto-increment key: the state is the number of rows,
    every insert affects one row and reports the new key. *)
Definition counterTable (fault : nat -> option error) : SqlProxy nat :=
  mkSqlProxy nat (fun _ => None) fault
    (fun rowsSoFar _ _ => (S rowsSoFar, mkSqlResult 1 (Z.of_nat (S rowsSoFar)) None)).

Definition badConnAt (k : nat) (n : nat) : option error :=
  if (n =? k)%nat then Some ErrBadConn else None.

(** The token [newIfClause] generates for sequence number [seq]: the
    number between two zero bytes. *)
Definition clauseToken (seq : string) : string :=
  String "000"%char (seq +:+ String "000"%char EmptyString).

(** A statement with one clause of each policy. *)
Definition stmtConditional : QueryStatement :=
  mkQueryStatement eleTypeSelect "search"
    ("SELECT * FROM t WHERE 1=1 " +:+ clauseToken "0" +:+ " " +:+ clauseToken "1")
    [IfClause.mk (clauseToken "0") "name" "AND name = :name" true;
     IfClause.mk (clauseToken "1") "all" "AND hidden = 0" false]
    [] "".

(** [INSERT INTO t(a,b) VALUES (?,?)] with two columns. *)
Definition stmtInsertPair : QueryStatement :=
  mkQueryStatement eleTypeInsert "addPair"
    "INSERT INTO t(a,b) VALUES (?,?)" []
    [NewColumnBind "A" 28; NewColumnBind "B" 30]
    "INSERT INTO t(a,b) VALUES (?,?)".

(** Three rows for [stmtInsert], as nested lists. *)
Definition batchOfThree : list value :=
  [VSlice [VInt 10]; VSlice [VInt 20]; VSlice [VInt 30]].

(** Two records for [stmtInsertPair]; the second has no field [B]. *)
Definition structBatch : list value :=
  [VStruct false [("A", true, VInt 1); ("B", true, VInt 2)];
   VStruct false [("A", true, VInt 3)]].

(** Two pointers to records for [stmtInsertPair]; the second is nil. *)
Definition structBatchNil : list value :=
  [VPtr (VStruct false [("A", true, VInt 1); ("B", true, VInt 2)]);
   VNilPtr KStruct].

(** The same two rows as nested lists; the second is one value short. *)
Definition listBatchShort : list value :=
  [VSlice [VInt 1; VInt 2]; VSlice [VInt 3]].

(** A cursor over no rows. *)
Definition emptyCursor : Rows :=
  mkRows None false None (Done None) (Done None).

(** A normalizer that recomputes in place: every recorded position moves
    one byte to the right and the held query becomes the query. The first
    definition is its effect on a statement, the second the same through
    a pointer into the store. *)
Definition shiftColumn (c : ColumnBind) : ColumnBind :=
  mkColumnBind (name c) (holdPos c + 1) (bindType c).

Definition shiftingNormalizer : QueryNormalizer :=
  mkQueryNormalizer
    (fun stmt => (mkQueryStatement (eleType stmt) (Id stmt) (Query stmt) (clause stmt)
                                   (map shiftColumn (columnMention stmt)) (Query stmt),
                  None))
    (fun q => q).

Definition shiftingGlobals : Globals := mkGlobals shiftingNormalizer "?"%char.

Definition shiftingNormalizerAt : Aliasing.Normalizer :=
  fun h s =>
    (match Aliasing.sColumnMention s with
     | Some l =>
       match h !! l with
       | Some (Aliasing.ColumnArray cols) =>
         <[l := Aliasing.ColumnArray (map shiftColumn cols)]> h
       | _ => h
       end
     | None => h
     end,
     Aliasing.mkStatement (Aliasing.sEleType s) (Aliasing.sId s) (Aliasing.sQuery s)
                          (Aliasing.sClause s) (Aliasing.sColumnMention s)
                          (Aliasing.sQuery s),
     None).

(** [stmtConditional] with one column, registered in a store: its clauses
    in array 0, its columns in array 1. *)
Definition registeredHeap : gmap nat Aliasing.array :=
  <[0%nat := Aliasing.ClauseArray (clause stmtConditional)]>
    (<[1%nat := Aliasing.ColumnArray [NewColumnBind "name" 40]]> ∅).

Definition registered : Aliasing.Statement :=
  Aliasing.mkStatement eleTypeSelect "search" (Query stmtConditional)
                       (Some 0%nat) (Some 1%nat) "".

(** A single-row result over [emptyCursor], holding a statement handle. *)
Definition rowResultNoRows : QueryRowResult.t :=
  QueryRowResult.newQueryRowResult (Some stmtHandle) (Some emptyCursor).

(* ===================================================================== *)
(** ** Vocabulary of the statements below *)
(* ===================================================================== *)

(** [dropTokens ids text]: [text] after each of [ids] in turn was
    replaced by the empty string. *)
Definition dropTokens (ids : list string) (text : string) : string :=
  fold_left (fun q tok => stringsReplaceAll q tok "") ids text.

Definition inRange64 (z : Z) : Prop := - 2 ^ 63 <= z < 2 ^ 63.

(** What [execWith...] makes of the results of its two passes. *)
Definition merged (r next : ExecMultiResult) : ExecMultiResult :=
  mkExecMultiResult (idList r ++ idList next) (add64 (rowAffected r) (rowAffected next)).

Definition normalColumn (c : ColumnBind) : Prop := bindType c = columnBindTypeNormal.

(** Occurrences of the byte [c] in [s]. *)
Fixpoint countByte (c : ascii) (s : string) : nat :=
  match s with
  | EmptyString => 0%nat
  | String b rest => ((if Ascii.eqb c b then 1 else 0) + countByte c rest)%nat
  end.

(** [stmt] with the fragment and the policy of every clause replaced by
    what [f] says, the tokens and keys kept. *)
Definition withPolicies (f : IfClause.t -> string * bool) (stmt : QueryStatement)
    : QueryStatement :=
  mkQueryStatement (eleType stmt) (Id stmt) (Query stmt)
    (map (fun c => IfClause.mk (IfClause.id c) (IfClause.key c) (f c).1 (f c).2)
         (clause stmt))
    (columnMention stmt) (HoldedQuery stmt).

(** An element a list batch must not contain: not a slice or array, or
    shorter than the columns of the statement. *)
Definition badListRow (defined : Z) (v : value) : Prop :=
  match v with
  | VSliceIface l | VSlice l | VArray l => len l < defined
  | _ => True
  end.

(** An element a map batch must not contain: not a map, or with fewer
    entries than the statement has columns. *)
Definition badMapRow (defined : Z) (v : value) : Prop :=
  match v with
  | VMapIface None => 0 < defined
  | VMapIface (Some m) | VMapStr m => Z.of_nat (size m) < defined
  | VMapOther n => Z.of_nat n < defined
  | _ => True
  end.

(* ===================================================================== *)
(** ** Text helpers of the Go library used by queryman.go and domain.go *)
(* ===================================================================== *)

(** What lies outside the files at hand and outside ASCII: the
    constructor of normalizers per driver, and the case mappings of the
    Unicode tables, which [strings.ToUpper] and [strings.ToLower] consult
    only for text that is not pure ASCII. *)
Class Outside : Type := mkOutside {
  newNormalizer : string -> option QueryNormalizer;
  unicodeToUpper : string -> string;
  unicodeToLower : string -> string
}.

Definition isASCIIByte (c : ascii) : bool := (N_of_ascii c <? 128)%N.

Fixpoint isASCII (s : string) : bool :=
  match s with
  | EmptyString => true
  | String c rest => isASCIIByte c && isASCII rest
  end.

Definition upperByte (c : ascii) : ascii :=
  if byteIn c 97 122 then ascii_of_N (N_of_ascii c - 32) else c.

Definition lowerByte (c : ascii) : ascii :=
  if byteIn c 65 90 then ascii_of_N (N_of_ascii c + 32) else c.

Fixpoint mapBytes (f : ascii -> ascii) (s : string) : string :=
  match s with
  | EmptyString => EmptyString
  | String c rest => String (f c) (mapBytes f rest)
  end.

(** [strings.ToUpper]: byte by byte on ASCII text, through the Unicode
    tables otherwise. *)
Definition stringsToUpper `{Outside} (s : string) : string :=
  if isASCII s then mapBytes upperByte s else unicodeToUpper s.

(** [strings.ToLower]. *)
Definition stringsToLower `{Outside} (s : string) : string :=
  if isASCII s then mapBytes lowerByte s else unicodeToLower s.

(** [strings.Index(s, substr)]: the byte index of the first occurrence,
    or -1. *)
Fixpoint stringsIndexFrom (s substr : string) (i : Z) : Z :=
  match s with
  | EmptyString => match substr with EmptyString => i | String _ _ => -1 end
  | String _ rest =>
    if hasPrefix s substr then i else stringsIndexFrom rest substr (i + 1)
  end.

Definition stringsIndex (s substr : string) : Z := stringsIndexFrom s substr 0.

Fixpoint inCutset (c : ascii) (cutset : string) : bool :=
  match cutset with
  | EmptyString => false
  | String b rest => Ascii.eqb c b || inCutset c rest
  end.

Fixpoint trimLeft (s cutset : string) : string :=
  match s with
  | EmptyString => EmptyString
  | String c rest => if inCutset c cutset then trimLeft rest cutset else s
  end.

(** The bytes of [s] up to its last byte outside [cutset]. *)
Fixpoint trimRight (s cutset : string) : string :=
  match s with
  | EmptyString => EmptyString
  | String c rest =>
    match trimRight rest cutset with
    | EmptyString => if inCutset c cutset then EmptyString else String c EmptyString
    | kept => String c kept
    end
  end.

(** [strings.Trim(s, cutset)] for a cutset of ASCII bytes. *)
Definition stringsTrim (s cutset : string) : string :=
  trimLeft (trimRight s cutset) cutset.

Definition tab : string := String (ascii_of_nat 9) EmptyString.
Definition newline : string := String (ascii_of_nat 10) EmptyString.
Definition carriageReturn : string := String (ascii_of_nat 13) EmptyString.

(** The cutset [" \r\n\t"]. *)
Definition blanks : string := " " +:+ carriageReturn +:+ newline +:+ tab.

(** [%d] of a non-negative [int]. *)
Definition decimal (n : nat) : string := NilEmpty.string_of_uint (Nat.to_uint n).

(* ===================================================================== *)
(** ** domain.go: element types and the making of clauses *)
(* ===================================================================== *)

Definition IsSql (d : declareElementType) : bool :=
  match d with
  | eleTypeInsert | eleTypeUpdate | eleTypeSelect => true
  | _ => false
  end.

Definition buildElementType `{Outside} (stmt : string) : declareElementType :=
  let low := stringsToLower stmt in
  if String.eqb low "select" then eleTypeSelect
  else if String.eqb low "insert" then eleTypeInsert
  else if String.eqb low "update" then eleTypeUpdate
  else if String.eqb low "delete" then eleTypeUpdate
  else if String.eqb low "if" then eleTypeIf
  else eleTypeUnknown.

Definition ifClauseWrappingKey : string := String "000"%char EmptyString.

(** [generateIfClauseSeq]: the value of the package counter [ifClauseSeq]
    is returned and the counter left one higher. *)
Definition generateIfClauseSeq (ifClauseSeq : nat) : nat * nat :=
  (ifClauseSeq, S ifClauseSeq).

(** [newIfClause(key, sql, exist)] with the package counter threaded. *)
Definition newIfClause `{Outside} (key sql exist : string) (ifClauseSeq : nat)
    : IfClause.t * nat :=
  let '(seq, next) := generateIfClauseSeq ifClauseSeq in
  (IfClause.mk (ifClauseWrappingKey +:+ decimal seq +:+ ifClauseWrappingKey)
               key sql
               (negb ((0 <? Z.of_nat (String.length exist))
                      && negb (String.eqb (stringsToLower exist) "true"))),
   next).

(** [appendIf]. *)
Definition appendIf (stmt : QueryStatement) (c : IfClause.t) : QueryStatement :=
  mkQueryStatement (eleType stmt) (Id stmt) (Query stmt) (clause stmt ++ [c])
                   (columnMention stmt) (HoldedQuery stmt).

(* ===================================================================== *)
(** ** queryman.go: the registry of statements *)
(* ===================================================================== *)

Definition ErrExecutionInvalidSqlType : error :=
  Errorf "invalid execution for sql. only insert or update permitted" [].

Definition ErrQueryInvalidSqlType : error :=
  Errorf "invalid query for sql. only select permitted" [].

Definition fmtNoNormalizer : string := "not found normalizer for %s".
Definition fmtDuplicatedId : string := "duplicated user statement id : %s".
Definition fmtNoStatement : string := "not found query statement for id : %s".

(** The part of [QueryMan] the registry uses: the driver name of its
    preference and the map of statements. The preference's [Debug] is
    off throughout ([debugEnabled] answers false), so nothing is printed,
    and the execution record ([recordExcution]) is left out: it changes
    nothing of what a call returns. *)
Record QueryMan : Type := mkQueryMan {
  driverName : string;
  statementMap : gmap string QueryStatement
}.

Definition GetSqlCount (man : QueryMan) : nat := size (statementMap man).

(** [buildStatement]. [current] is the package variable [queryNormalizer]
    on entry (None for nil); the first result is the variable on exit. *)
Definition buildStatement `{Outside} (man : QueryMan) (current : option QueryNormalizer)
    (queryStatement : QueryStatement)
    : option QueryNormalizer * (QueryStatement * option error) :=
  let set :=
    match current with
    | Some qn => Some qn
    | None => newNormalizer (driverName man)
    end in
  match set with
  | None => (None, (queryStatement, Some (Errorf fmtNoNormalizer [FStr (driverName man)])))
  | Some qn =>
    if negb (HasCondition queryStatement) then
      match normalize qn queryStatement with
      | (normalized, Some err) => (Some qn, (normalized, Some err))
      | (normalized, None) => (Some qn, (normalized, None))
      end
    else (Some qn, (queryStatement, None))
  end.

(** [registStatement]: the manager and the package variable afterwards,
    and the error. *)
Definition registStatement `{Outside} (man : QueryMan) (current : option QueryNormalizer)
    (queryStatement : QueryStatement)
    : QueryMan * option QueryNormalizer * option error :=
  match buildStatement man current queryStatement with
  | (now, (_, Some err)) => (man, now, Some err)
  | (now, (built, None)) =>
    let id := stringsToUpper (Id built) in
    match statementMap man !! id with
    | Some _ => (man, now, Some (Errorf fmtDuplicatedId [FStr id]))
    | None => (mkQueryMan (driverName man) (<[id := built]> (statementMap man)), now, None)
    end
  end.

Definition isUserQuery (query : string) : bool :=
  if 0 <? stringsIndex query " " then true
  else if 0 <? stringsIndex query tab then true
  else if 0 <? stringsIndex query newline then true
  else if 0 <? stringsIndex query carriageReturn then true
  else false.

(** [getDeclareSqlType]: the first ten bytes of the trimmed query decide;
    a trimmed query of fewer bytes panics on the slice. *)
Definition getDeclareSqlType `{Outside} (query : string) : outcome declareElementType :=
  let trimmed := stringsTrim query blanks in
  if (String.length trimmed <? 10)%nat then Panicked "slice bounds out of range"
  else
    let prefix := stringsToUpper (String.substring 0 10 trimmed) in
    if hasPrefix prefix "SELECT" then Done eleTypeSelect
    else if hasPrefix prefix "INSERT" then Done eleTypeInsert
    else Done eleTypeUpdate.

Definition buildUserQueryStatement `{Outside} (manager : QueryMan)
    (current : option QueryNormalizer) (query : string)
    : option QueryNormalizer * outcome (QueryStatement * option error) :=
  match getDeclareSqlType query with
  | Panicked why => (current, Panicked why)
  | Done t =>
    let stmt := mkQueryStatement t query query [] [] "" in
    let '(now, r) := buildStatement manager current stmt in
    (now, Done r)
  end.

(** The zero value of [QueryStatement]. *)
Definition zeroStatement : QueryStatement :=
  mkQueryStatement eleTypeUnknown "" "" [] [] "".

Definition find `{Outside} (man : QueryMan) (current : option QueryNormalizer)
    (id : string) : option QueryNormalizer * outcome (QueryStatement * option error) :=
  match statementMap man !! stringsToUpper id with
  | None =>
    if isUserQuery id then buildUserQueryStatement man current id
    else (current, Done (zeroStatement, Some (Errorf fmtNoStatement [FStr id])))
  | Some stmt => (current, Done (stmt, None))
  end.

(* ===================================================================== *)
(** ** The executor: from the parameters of a call to an execution *)
(* ===================================================================== *)

(** The [sql.Result] a call returns: the driver's own, or the result of
    a batch. *)
Inductive execResult : Type :=
| DriverResult (res : sqlResult)
| BatchResult (res : ExecMultiResult).

(** The "reform ptr" step: the kind looked at afterwards and the value it
    belongs to. *)
Inductive reformed : Type :=
| Reformed (k : Kind) (val : value)
| ReformNil
| ReformPanic (why : string).

Definition reformPtr (v : value) : reformed :=
  match kindOf v with
  | None => ReformPanic "invalid memory address or nil pointer dereference"
  | Some KPtr =>
    match v with
    | VPtr t =>
      match kindOf t with
      | Some k => Reformed k t
      | None => ReformPanic "invalid memory address or nil pointer dereference"
      end
    | VPtrIface t => Reformed KInterface t
    | _ => ReformNil
    end
  | Some k => Reformed k v
  end.

(** [val.(driver.Valuer)] on a struct. *)
Definition isValuer (val : value) : bool :=
  match val with
  | VStruct valuer _ => valuer
  | _ => false
  end.

Definition fmtFailToExecute : string := "fail to execute : %s".
Definition fmtFailToBuild : string := "fail to buld conditional query : %s".
Definition fmtFailToQuery : string := "fail to queryMultiRow : %s".
Definition fmtUnacceptable : string := "unacceptable parameter type in list. kind=%s".

(** [Kind.String()] for the kinds named in a message. *)
Definition kindName (k : Kind) : string :=
  match k with
  | KInt => "int" | KString => "string" | KSlice => "slice" | KArray => "array"
  | KMap => "map" | KStruct => "struct" | KPtr => "ptr" | KInterface => "interface"
  end.

Section Executor.
Context {DB : Type} (sqlProxy : SqlProxy DB) `{Globals}.

(** [sqlProxy.exec(query, args...)] as the result of a call. *)
Definition proxyExec (query : string) (args : list value) (w : World DB)
    : World DB * outcome (option execResult * option error) :=
  match stmtExec sqlProxy query args w with
  | (w', inl res) => (w', Done (Some (DriverResult res), None))
  | (w', inr e) => (w', Done (None, Some e))
  end.

(** A batch function returns its [ExecMultiResult] also beside an
    error. *)
Definition batchAnswer (r : World DB * outcome (ExecMultiResult * option error))
    : World DB * outcome (option execResult * option error) :=
  match r with
  | (w', Panicked why) => (w', Panicked why)
  | (w', Done (res, err)) => (w', Done (Some (BatchResult res), err))
  end.

Definition execWithMapResult (stmt : QueryStatement) (m : option (gmap string value))
    (w : World DB) : World DB * outcome (option execResult * option error) :=
  match execWithMap sqlProxy stmt m w with
  | (w', Panicked why) => (w', Panicked why)
  | (w', Done (res, err)) => (w', Done (DriverResult <$> res, err))
  end.

Definition execWithList (stmt : QueryStatement) (args : list value) (w : World DB)
    : World DB * outcome (option execResult * option error) :=
  match args with
  | [] => (w, Panicked "index out of range")
  | a0 :: _ =>
    match reformPtr a0 with
    | ReformPanic why => (w, Panicked why)
    | ReformNil => (w, Done (None, Some ErrNilPtr))
    | Reformed k val =>
      if hasArrayBind stmt then
        match resolveColumnBindInList stmt args with
        | Panicked why => (w, Panicked why)
        | Done (_, _, Some bindErr) => (w, Done (None, Some bindErr))
        | Done (effectiveQuery, param, None) => proxyExec effectiveQuery param w
        end
      else
        let plain :=
          if len args <? len (columnMention stmt) then
            (w, Done (None, Some (Errorf fmtCountMismatch
                                         [FInt (len (columnMention stmt)); FInt (len args)])))
          else proxyExec (Query stmt) args w in
        match k with
        | KSlice => batchAnswer (execWithNestedList sqlProxy stmt args w)
        | KStruct =>
          if negb (isValuer val) then batchAnswer (execWithStructList sqlProxy stmt args w)
          else plain
        | KMap => batchAnswer (execWithNestedMap sqlProxy stmt args w)
        | _ => plain
        end
    end
  end.

Definition execList (val : value) (stmt : QueryStatement) (w : World DB)
    : World DB * outcome (option execResult * option error) :=
  match val with
  | VSliceIface slice => execWithList stmt slice w
  | _ =>
    match flattenToList val with
    | Panicked why => (w, Panicked why)
    | Done passing => execWithList stmt passing w
    end
  end.

Definition execMap (val : value) (stmt : QueryStatement) (w : World DB)
    : World DB * outcome (option execResult * option error) :=
  match val with
  | VMapIface m => execWithMapResult stmt m w
  | _ =>
    match flattenToMap val with
    | Panicked why => (w, Panicked why)
    | Done passing => execWithMapResult stmt (Some passing) w
    end
  end.

Definition execWithObject (stmt : QueryStatement) (parameter : value) (w : World DB)
    : World DB * outcome (option execResult * option error) :=
  match flattenStructToMap parameter with
  | Panicked why => (w, Panicked why)
  | Done m => execWithMapResult stmt (Some m) w
  end.

(** The deferred [recover] of [execute]. *)
Definition recoverExecute (r : World DB * outcome (option execResult * option error))
    : World DB * outcome (option execResult * option error) :=
  match r with
  | (w', Panicked why) => (w', Done (None, Some (Errorf fmtFailToExecute [FStr why])))
  | done => done
  end.

(** [execute]. The refinement comes before the [defer]: a panic in it is
    not recovered. *)
Definition execute (stmt : QueryStatement) (v : list value) (w : World DB)
    : World DB * outcome (option execResult * option error) :=
  match refineConditional stmt v with
  | Panicked why => (w, Panicked why)
  | Done (_, Some err) => (w, Done (None, Some (ErrorfWrap fmtFailToBuild err)))
  | Done (execStmt, None) =>
    match v with
    | [] => proxyExec (Query execStmt) [] w
    | v0 :: _ =>
      recoverExecute
        match reformPtr v0 with
        | ReformPanic why => (w, Panicked why)
        | ReformNil => (w, Done (None, Some ErrNilPtr))
        | Reformed k val =>
          match k with
          | KInterface => (w, Done (None, Some ErrInterfaceIsNotSupported))
          | KPtr => (w, Done (None, Some ErrPtrIsNotSupported))
          | KSlice | KArray =>
            if negb (hasArrayBind stmt) then execList val execStmt w
            else execWithList execStmt v w
          | KStruct =>
            if negb (isValuer val) then execWithObject execStmt val w
            else execWithList execStmt v w
          | KMap => execMap val execStmt w
          | _ => execWithList execStmt v w
          end
        end
    end
  end.

(** [ExecuteWithStmt], once the package normalizer is set. *)
Definition ExecuteWithStmt `{Outside} (man : QueryMan) (stmtIdOrUserQuery : string)
    (v : list value) (w : World DB)
    : World DB * outcome (option execResult * option error) :=
  match (find man (Some queryNormalizer) stmtIdOrUserQuery).2 with
  | Panicked why => (w, Panicked why)
  | Done (_, Some err) => (w, Done (None, Some err))
  | Done (stmt, None) =>
    match eleType stmt with
    | eleTypeInsert | eleTypeUpdate => execute stmt v w
    | _ => (w, Done (None, Some ErrExecutionInvalidSqlType))
    end
  end.
End Executor.

(* ===================================================================== *)
(** ** The executor: queries *)
(* ===================================================================== *)

(** [sqlProxy.query]: the cursor or the error the database answers a
    query with. *)
Record QueryProxy : Type := mkQueryProxy {
  runQuery : string -> list value -> Rows + error
}.

Section Querier.
Context (sqlProxy : QueryProxy) `{Globals}.

(** The query functions return, beside their [*QueryResult], the queries
    they sent, in order. *)
Definition sendQuery (query : string) (param : list value)
    : list (string * list value) * outcome QueryResult.t :=
  ([(query, param)],
   Done match runQuery sqlProxy query param with
        | inr err => QueryResult.newQueryResultError err
        | inl rows => QueryResult.newQueryResult None (Some rows)
        end).

Definition queryFailed (err : error) : list (string * list value) * outcome QueryResult.t :=
  ([], Done (QueryResult.newQueryResultError err)).

Definition queryWithMap (stmt : QueryStatement) (m : option (gmap string value))
    : list (string * list value) * outcome QueryResult.t :=
  match resolveColumnBindInMap stmt m with
  | Panicked why => ([], Panicked why)
  | Done (_, _, Some bindErr) => queryFailed bindErr
  | Done (effectiveQuery, param, None) => sendQuery effectiveQuery param
  end.

Definition queryWithList (stmt : QueryStatement) (args : list value)
    : list (string * list value) * outcome QueryResult.t :=
  match args with
  | [] => ([], Panicked "index out of range")
  | a0 :: _ =>
    let atype :=
      match a0 with
      | VPtr t => kindOf t
      | VPtrIface _ => Some KInterface
      | VNilPtr k => Some k
      | _ => kindOf a0
      end in
    match atype with
    | None => ([], Panicked "invalid memory address or nil pointer dereference")
    | Some k =>
      let nested := match k with KSlice | KStruct | KMap => true | _ => false end in
      if nested && negb (firstArgsIsArray stmt) then
        queryFailed (Errorf fmtUnacceptable [FStr (kindName k)])
      else if len args <? len (columnMention stmt) then
        queryFailed (Errorf fmtCountMismatch
                            [FInt (len (columnMention stmt)); FInt (len args)])
      else
        match resolveColumnBindInList stmt args with
        | Panicked why => ([], Panicked why)
        | Done (_, _, Some bindErr) => queryFailed bindErr
        | Done (effectiveQuery, param, None) => sendQuery effectiveQuery param
        end
    end
  end.

Definition queryList (val : value) (stmt : QueryStatement)
    : list (string * list value) * outcome QueryResult.t :=
  match val with
  | VSliceIface slice => queryWithList stmt slice
  | _ =>
    match flattenToList val with
    | Panicked why => ([], Panicked why)
    | Done passing => queryWithList stmt passing
    end
  end.

Definition queryMap (val : value) (stmt : QueryStatement)
    : list (string * list value) * outcome QueryResult.t :=
  match val with
  | VMapIface m => queryWithMap stmt m
  | _ =>
    match flattenToMap val with
    | Panicked why => ([], Panicked why)
    | Done passing => queryWithMap stmt (Some passing)
    end
  end.

Definition queryWithObject (stmt : QueryStatement) (parameter : value)
    : list (string * list value) * outcome QueryResult.t :=
  match flattenStructToMap parameter with
  | Panicked why => ([], Panicked why)
  | Done m => queryWithMap stmt (Some m)
  end.

(** The deferred [recover] of [queryMultiRow]. *)
Definition recoverQuery (r : list (string * list value) * outcome QueryResult.t)
    : list (string * list value) * outcome QueryResult.t :=
  match r with
  | (sent, Panicked why) =>
    (sent, Done (QueryResult.newQueryResultError (Errorf fmtFailToQuery [FStr why])))
  | done => done
  end.

(** [queryMultiRow]. As in [execute] the refinement is not covered by the
    [recover]; the record branch hands [queryWithObject] the statement it
    was called with, the other branches the refined one. *)
Definition queryMultiRow (stmt : QueryStatement) (v : list value)
    : list (string * list value) * outcome QueryResult.t :=
  match refineConditional stmt v with
  | Panicked why => ([], Panicked why)
  | Done (_, Some err) => queryFailed (ErrorfWrap fmtFailToBuild err)
  | Done (execStmt, None) =>
    match v with
    | [] => sendQuery (Query execStmt) []
    | v0 :: _ =>
      recoverQuery
        match reformPtr v0 with
        | ReformPanic why => ([], Panicked why)
        | ReformNil => queryFailed ErrNilPtr
        | Reformed k val =>
          match k with
          | KInterface => queryFailed ErrInterfaceIsNotSupported
          | KPtr => queryFailed ErrPtrIsNotSupported
          | KSlice | KArray =>
            if negb (firstArgsIsArray stmt) then queryList val execStmt
            else queryWithList execStmt v
          | KStruct =>
            if negb (isValuer val) then queryWithObject stmt val
            else queryWithList execStmt v
          | KMap => queryMap val execStmt
          | _ => queryWithList execStmt v
          end
        end
    end
  end.

(** [QueryWithStmt], once the package normalizer is set. *)
Definition QueryWithStmt `{Outside} (man : QueryMan) (stmtIdOrUserQuery : string)
    (v : list value) : list (string * list value) * outcome QueryResult.t :=
  match (find man (Some queryNormalizer) stmtIdOrUserQuery).2 with
  | Panicked why => ([], Panicked why)
  | Done (_, Some err) => queryFailed err
  | Done (stmt, None) =>
    match eleType stmt with
    | eleTypeSelect => queryMultiRow stmt v
    | _ => queryFailed ErrQueryInvalidSqlType
    end
  end.
End Querier.

(** [QueryResult.Close]: the receiver afterwards, the [Close] calls made
    and the error returned; [rowsClose] is what [rows.Close()] answers. *)
Definition QueryResult_Close (r : QueryResult.t) (rowsClose : option error)
    : QueryResult.t * list closeEvent * option error :=
  let '(ev1, err) :=
    match QueryResult.rows r with
    | Some _ => ([RowsClosed], rowsClose)
    | None => ([], None)
    end in
  let ev2 :=
    match QueryResult.pstmt r with
    | Some _ => [StmtClosed]
    | None => []
    end in
  (QueryResult.mk None (QueryResult.err r) None, ev1 ++ ev2, err).

(** [QueryRowWithStmt], once the package normalizer is set: the queries
    sent, the [Close] calls made on the way, and the single-row result. *)
Definition QueryRowWithStmt `{Globals} `{Outside} (sqlProxy : QueryProxy)
    (man : QueryMan) (stmtIdOrUserQuery : string) (v : list value)
    (rowsClose : option error)
    : list (string * list value) * list closeEvent * outcome QueryRowResult.t :=
  match (find man (Some queryNormalizer) stmtIdOrUserQuery).2 with
  | Panicked why => ([], [], Panicked why)
  | Done (_, Some err) => ([], [], Done (QueryRowResult.newQueryRowResultError err))
  | Done (stmt, None) =>
    match eleType stmt with
    | eleTypeSelect =>
      match queryMultiRow sqlProxy stmt v with
      | (sent, Panicked why) => (sent, [], Panicked why)
      | (sent, Done queryResult) =>
        match QueryResult.err queryResult with
        | Some err =>
          (sent, (QueryResult_Close queryResult rowsClose).1.2,
           Done (QueryRowResult.newQueryRowResultError err))
        | None =>
          (sent, [],
           Done (QueryRowResult.newQueryRowResult (QueryResult.pstmt queryResult)
                                                  (QueryResult.rows queryResult)))
        end
      end
    | _ => ([], [], Done (QueryRowResult.newQueryRowResultError ErrQueryInvalidSqlType))
    end
  end.

(* ===================================================================== *)
(** ** Samples and vocabulary for the further properties *)
(* ===================================================================== *)

(** Drivers for which [plainNormalizer] is built, and identity case
    mappings outside ASCII. *)
Definition plainOutside : Outside :=
  mkOutside (fun _ => Some plainNormalizer) (fun s => s) (fun s => s).

(** No bytes of [cutset] in [s]. *)
Fixpoint freeOf (cutset : string) (s : string) : bool :=
  match s with
  | EmptyString => true
  | String c rest => negb (inCutset c cutset) && freeOf cutset rest
  end.

(** How many of the [n] calls of [prepare] numbered from [a] do not
    fault. *)
Definition preparedOk {DB} (p : SqlProxy DB) (a n : nat) : nat :=
  List.length (List.filter (fun i => match prepareFault p i with None => true | Some _ => false end)
                           (seq a n)).

(** Between [w] and [w'] every handle that was prepared was closed, and
    nothing else was. *)
Definition handlesReleased {DB} (p : SqlProxy DB) (w w' : World DB) : Prop :=
  (prepareCalls w <= prepareCalls w')%nat
  /\ closeCalls w'
     = (closeCalls w + preparedOk p (prepareCalls w) (prepareCalls w' - prepareCalls w))%nat.

Definition emptyMan : QueryMan := mkQueryMan "mysql" ∅.

(** The three shapes of a batch and the function that runs each. *)
Inductive batchShape : Type := ListBatch | MapBatch | StructBatch.

Definition doExecWith {DB} (shape : batchShape) (p : SqlProxy DB)
    (stmt : QueryStatement) (args : list value) (w : World DB)
    : World DB * outcome (Z * ExecMultiResult * option error) :=
  match shape with
  | ListBatch => doExecWithNestedList p stmt args w
  | MapBatch => doExecWithNestedMap p stmt args w
  | StructBatch => doExecWithStructList p stmt args w
  end.

Definition execWith {DB} (shape : batchShape) (p : SqlProxy DB)
    (stmt : QueryStatement) (args : list value) (w : World DB)
    : World DB * outcome (ExecMultiResult * option error) :=
  match shape with
  | ListBatch => execWithNestedList p stmt args w
  | MapBatch => execWithNestedMap p stmt args w
  | StructBatch => execWithStructList p stmt args w
  end.

(** A value the driver takes as it is. *)
Definition isScalar (v : value) : bool :=
  match v with
  | VInt _ | VStr _ => true
  | _ => false
  end.

(** Between [w] and [w'] every prepared handle was closed, and at most
    two were prepared. *)
Definition releasedWithin {DB} (p : SqlProxy DB) (w w' : World DB) : Prop :=
  handlesReleased p w w' /\ (prepareCalls w' <= prepareCalls w + 2)%nat.

(** Three records for [stmtInsert]. *)
Definition recordsOfThree : list value :=
  [VStruct false [("A", true, VInt 10)];
   VStruct false [("A", true, VInt 20)];
   VStruct false [("A", true, VInt 30)]].

(** Three maps for [stmtInsert]. *)
Definition mapsOfThree : list value :=
  [VMapIface (Some (<["A" := VInt 10]> ∅));
   VMapIface (Some (<["A" := VInt 20]> ∅));
   VMapIface (Some (<["A" := VInt 30]> ∅))].

(** A record with an exported and an unexported field. *)
Definition recordWithHidden : value :=
  VStruct false [("Name", true, VStr "x"); ("secret", false, VInt 1)].

Definition fieldName (f : string * bool * value) : string := f.1.1.

(** A cursor standing on a row that scans without error. *)
Definition oneRowCursor : Rows :=
  mkRows None true None (Done None) (Done None).

(** A database that answers every query with [oneRowCursor]. *)
Definition oneRowProxy : QueryProxy :=
  mkQueryProxy (fun _ _ => inl oneRowCursor).

(** What a query function may hand back with the queries it sent:
    refused before anything was sent, or one query sent and its error or
    its cursor returned; a panic only before anything was sent. *)
Definition queryAnswer (p : QueryProxy)
    (x : list (string * list value) * outcome QueryResult.t) : Prop :=
  match x with
  | (sent, Panicked _) => sent = []
  | (sent, Done r) =>
    (exists e, sent = [] /\ r = QueryResult.newQueryResultError e)
    \/ (exists q args e,
           sent = [(q, args)] /\ runQuery p q args = inr e
           /\ r = QueryResult.newQueryResultError e)
    \/ (exists q args rs,
           sent = [(q, args)] /\ runQuery p q args = inl rs
           /\ r = QueryResult.newQueryResult None (Some rs))
  end.

(* ===================================================================== *)
(** * Properties *)
(* ===================================================================== *)

(** ** Auxiliary facts *)

Lemma fold_left_snoc {A} (l acc : list A) :
  fold_left (fun acc v => acc ++ [v]) l acc = acc ++ l.
Proof.
  revert acc. induction l as [|x l IH]; intros acc; simpl.
  - by rewrite app_nil_r.
  - rewrite IH, <- app_assoc. reflexivity.
Qed.

(** On values, [clone] is the identity: what it guards against is
    sharing, which [Aliasing.clone] makes visible. *)
Lemma clone_value (stmt : QueryStatement) : clone stmt = stmt.
Proof.
  destruct stmt as [e i q c m hq]. unfold clone; simpl.
  rewrite !fold_left_snoc. reflexivity.
Qed.

Lemma dropTokens_refineStep (cl : list IfClause.t) (q : string) :
  fold_left (refineStep None) cl q = dropTokens (map IfClause.id cl) q.
Proof.
  unfold dropTokens. revert q.
  induction cl as [|c cl IH]; intros q; simpl; [reflexivity | apply IH].
Qed.

(** [stringsReplaceAll] on the cases the Go documentation and tests give
    for [strings.Replace] with [n = -1]. *)
Example replace_every_occurrence :
  stringsReplaceAll "oink oink oink" "oink" "moo" = "moo moo moo"
  /\ stringsReplaceAll "oink oink oink" "k" "ky" = "oinky oinky oinky"
  /\ stringsReplaceAll "banana" "ana" "<>" = "b<>na"
  /\ stringsReplaceAll "banana" "" "<>" = "<>b<>a<>n<>a<>n<>a<>"
  /\ stringsReplaceAll "banana" "a" "" = "bnn"
  /\ stringsReplaceAll "" "x" "y" = "".
Proof. repeat split; reflexivity. Qed.

(** With an empty [old] the insertion goes between runes, not bytes: the
    two bytes of U+00E9 stay together. *)
Example replace_between_runes :
  stringsReplaceAll (String (ascii_of_nat 195) (String (ascii_of_nat 169) "x")) "" "-"
  = "-" +:+ String (ascii_of_nat 195) (String (ascii_of_nat 169) "-x-").
Proof. reflexivity. Qed.

(** ** The batch result *)

(** C10. [LastInsertId] of a batch result is the identifier captured
    first, the head of the ordered list and not its last element,
    whenever one was captured; with no identifier it is 0 together with
    [ErrNoInsertId]; [RowsAffected] is the accumulated count and no
    error. *)
Theorem LastInsertId_is_first_captured :
  forall (first : Z) (rest : list Z) (count : Z) (p : ExecMultiResult),
    LastInsertId (fold_left addInsertId (first :: rest) (mkExecMultiResult [] count))
      = (first, None)
    /\ LastInsertId (mkExecMultiResult (first :: rest) count) = (first, None)
    /\ LastInsertId (mkExecMultiResult [] count) = (0, Some ErrNoInsertId)
    /\ RowsAffected p = (rowAffected p, None).
Proof.
  intros first rest count p. repeat split.
  assert (Hids : forall ids q, idList (fold_left addInsertId ids q) = idList q ++ ids).
  { induction ids as [|i ids IH]; intros q; simpl.
    - by rewrite app_nil_r.
    - rewrite IH. simpl. rewrite <- app_assoc. reflexivity. }
  unfold LastInsertId. rewrite Hids. reflexivity.
Qed.

Example LastInsertId_not_the_last :
  LastInsertId (fold_left addInsertId [7; 8; 9] emptyResult) = (7, None).
Proof. reflexivity. Qed.

(** ** Scanning a multi-row result *)

(** C9. A [QueryResult] built by [newQueryResultError] keeps the error,
    visible through [GetError], but [Scan] on it returns nil: the guard
    returns the named result, which nothing has assigned yet. *)
Theorem Scan_of_error_result_returns_nil :
  forall (e : error) (v : list value),
    QueryResult.Scan (QueryResult.newQueryResultError e) v = Done None
    /\ QueryResult.GetError (QueryResult.newQueryResultError e) = Some e.
Proof. intros e v. split; reflexivity. Qed.

(** ** Refinement without a presence map *)

(** C6. With no presence map [RefineStatement] hands the normalizer the
    statement whose text had the token of every clause, in order,
    replaced by the empty string. [refineConditional] takes this path
    when the caller passed no value at all. The fragments and the
    policies of the clauses play no part: whatever they are changed to,
    the text is the same. *)
Theorem refine_without_map_drops_every_token :
  forall (G : Globals) (stmt : QueryStatement),
    HasCondition stmt = true ->
    RefineStatement stmt None
      = normalize queryNormalizer
          (setQuery stmt (dropTokens (map IfClause.id (clause stmt)) (Query stmt)))
    /\ refineConditional stmt [] = Done (RefineStatement stmt None)
    /\ forall (f : IfClause.t -> string * bool),
         Query (refinedBeforeNormalize (withPolicies f stmt) None)
         = dropTokens (map IfClause.id (clause stmt)) (Query stmt).
Proof.
  intros G stmt Hcond. split; [|split].
  - unfold RefineStatement, refinedBeforeNormalize.
    rewrite clone_value, dropTokens_refineStep. reflexivity.
  - unfold refineConditional. rewrite Hcond. reflexivity.
  - intros f. unfold refinedBeforeNormalize.
    rewrite clone_value, dropTokens_refineStep. cbn [setQuery Query withPolicies clause].
    rewrite map_map. reflexivity.
Qed.

Lemma refine_without_map_drops_every_token_witness :
  HasCondition stmtConditional = true
  /\ @RefineStatement plainGlobals stmtConditional None
     = (setQuery stmtConditional "SELECT * FROM t WHERE 1=1  ", None).
Proof.
  split; [reflexivity|].
  destruct (refine_without_map_drops_every_token plainGlobals stmtConditional eq_refl)
    as [-> _].
  reflexivity.
Defined.

(** ** Flattening the value of an array column *)

Lemma flattenIfaceSlice_loop (slice param : list value) (varCnt i : Z) :
  fold_left (fun '(param, varCnt, i) item => (param ++ [item], i, i + 1))
            slice (param, varCnt, i)
  = (param ++ slice,
     match slice with [] => varCnt | _ :: _ => i + len slice - 1 end,
     i + len slice).
Proof.
  revert param varCnt i.
  induction slice as [|x slice IH]; intros param varCnt i.
  - simpl. rewrite app_nil_r. unfold len; simpl. f_equal. lia.
  - cbn [fold_left]. rewrite IH. unfold len. cbn [List.length].
    rewrite <- app_assoc. simpl app.
    destruct slice as [|y slice]; cbn [List.length]; (f_equal; [f_equal|]); lia.
Qed.

(** For a [[]interface{}] the reported count is the index of the last
    element, one less than the number of elements. *)
Lemma flattenIfaceSlice_count (slice : list value) :
  flattenIfaceSlice slice
  = (slice, match slice with [] => 0 | _ :: _ => len slice - 1 end).
Proof.
  unfold flattenIfaceSlice. rewrite flattenIfaceSlice_loop. simpl.
  destruct slice; reflexivity.
Qed.

(** For a slice of any other type the reported count is its length. *)
Lemma flattenArray_typed_slice (items : list value) :
  flattenArray (VSlice items) = Done (items, len items).
Proof. unfold flattenArray. simpl. rewrite fold_left_snoc. reflexivity. Qed.

Section BinderFacts.
Context `{G : Globals}.

(** Normal columns take one argument each and leave the held query
    alone. *)
Lemma bindLoopList_normal (cols : list ColumnBind) :
  forall (args rest : list value) (st : bindState),
    Forall normalColumn cols ->
    List.length args = List.length cols ->
    bindFail st = None ->
    forall (tail : list ColumnBind),
      bindLoopList (cols ++ tail) (args ++ rest) st
      = bindLoopList tail rest
          (mkBindState (bindParam st ++ args) (bindHeld st) (bindTouch st) None).
Proof.
  induction cols as [|c cols IH]; intros args rest st Hn Hlen Hf tail.
  - destruct args; [|discriminate]. simpl. rewrite app_nil_r.
    destruct st; simpl in *; subst; reflexivity.
  - destruct args as [|a args]; [discriminate|]. simpl in Hlen.
    inversion Hn as [|? ? Hc Hcs]; subst.
    cbn [app bindLoopList]. unfold bindColumn. rewrite Hc. cbn [bindFail].
    rewrite IH by (auto; lia). cbn [bindParam bindHeld bindTouch].
    rewrite <- app_assoc. reflexivity.
Qed.

Lemma bindLoopList_normal_end (cols : list ColumnBind) :
  forall (args rest : list value) (st : bindState),
    Forall normalColumn cols ->
    List.length args = List.length cols ->
    bindFail st = None ->
    bindLoopList cols (args ++ rest) st
    = Done (mkBindState (bindParam st ++ args) (bindHeld st) (bindTouch st) None).
Proof.
  intros args rest st Hn Hlen Hf.
  rewrite <- (app_nil_r cols) at 1.
  rewrite bindLoopList_normal by assumption. reflexivity.
Qed.

(** A statement with normal columns around one array column: the value
    bound to the array column is flattened among the other arguments in
    column order, and when the count [flattenArray] reports for it
    exceeds one, the placeholder at the recorded position is rewritten
    for that count. *)
Lemma array_column_is_expanded (stmt : QueryStatement)
    (before after : list ColumnBind) (arr : ColumnBind) (found : value)
    (argsBefore argsAfter extra items : list value) (cnt : Z) (held : string) :
  columnMention stmt = before ++ arr :: after ->
  Forall normalColumn before -> Forall normalColumn after ->
  bindType arr = columnBindTypeArray ->
  List.length argsBefore = List.length before ->
  List.length argsAfter = List.length after ->
  flattenArray found = Done (items, cnt) ->
  1 < cnt ->
  reformHoldQuery (HoldedQuery stmt) arr cnt = Done held ->
  resolveColumnBindInList stmt (argsBefore ++ found :: argsAfter ++ extra)
  = Done (resolveHolding queryNormalizer held,
          argsBefore ++ items ++ argsAfter, None).
Proof.
  intros Hcols Hb Ha Harr Hlb Hla Hflat Hcnt Hheld.
  unfold resolveColumnBindInList.
  assert (Hhas : hasArrayBind stmt = true).
  { unfold hasArrayBind. rewrite Hcols, existsb_app. simpl.
    unfold isArrayBind at 2. rewrite Harr. simpl. apply orb_true_r. }
  rewrite Hhas. cbn [negb]. rewrite clone_value, Hcols.
  assert (Hlen : (len (argsBefore ++ found :: argsAfter ++ extra)
                  <? len (before ++ arr :: after)) = false).
  { apply Z.ltb_ge. unfold len.
    rewrite !length_app. cbn [List.length]. rewrite !length_app. lia. }
  rewrite Hlen.
  rewrite bindLoopList_normal by (auto; reflexivity).
  cbn [bindLoopList bindParam bindHeld bindTouch app].
  unfold bindColumn at 1. rewrite Harr, Hflat.
  cbn [bindParam bindHeld bindTouch].
  apply Z.ltb_lt in Hcnt. rewrite Hcnt, Hheld. cbn [bindFail].
  rewrite bindLoopList_normal_end by (auto; reflexivity).
  cbn [bindFinish bindFail bindTouch bindHeld bindParam].
  rewrite <- app_assoc. reflexivity.
Qed.

(** When the reported count is at most one the query is left as it is. *)
Lemma array_column_is_left_alone (stmt : QueryStatement)
    (before after : list ColumnBind) (arr : ColumnBind) (found : value)
    (argsBefore argsAfter extra items : list value) (cnt : Z) :
  columnMention stmt = before ++ arr :: after ->
  Forall normalColumn before -> Forall normalColumn after ->
  bindType arr = columnBindTypeArray ->
  List.length argsBefore = List.length before ->
  List.length argsAfter = List.length after ->
  flattenArray found = Done (items, cnt) ->
  cnt <= 1 ->
  resolveColumnBindInList stmt (argsBefore ++ found :: argsAfter ++ extra)
  = Done (Query stmt, argsBefore ++ items ++ argsAfter, None).
Proof.
  intros Hcols Hb Ha Harr Hlb Hla Hflat Hcnt.
  unfold resolveColumnBindInList.
  assert (Hhas : hasArrayBind stmt = true).
  { unfold hasArrayBind. rewrite Hcols, existsb_app. simpl.
    unfold isArrayBind at 2. rewrite Harr. simpl. apply orb_true_r. }
  rewrite Hhas. cbn [negb]. rewrite clone_value, Hcols.
  assert (Hlen : (len (argsBefore ++ found :: argsAfter ++ extra)
                  <? len (before ++ arr :: after)) = false).
  { apply Z.ltb_ge. unfold len.
    rewrite !length_app. cbn [List.length]. rewrite !length_app. lia. }
  rewrite Hlen.
  rewrite bindLoopList_normal by (auto; reflexivity).
  cbn [bindLoopList bindParam bindHeld bindTouch app].
  unfold bindColumn at 1. rewrite Harr, Hflat.
  cbn [bindParam bindHeld bindTouch].
  apply Z.ltb_ge in Hcnt. rewrite Hcnt. cbn [bindFail].
  rewrite bindLoopList_normal_end by (auto; reflexivity).
  cbn [bindFinish bindFail bindTouch bindHeld bindParam].
  rewrite <- app_assoc. reflexivity.
Qed.

(** The sibling branch of the one that miscounts: a slice that is not a
    [[]interface{}], of more than one element, is expanded for its
    length. *)
Lemma typed_slice_is_expanded (stmt : QueryStatement)
    (before after : list ColumnBind) (arr : ColumnBind)
    (argsBefore argsAfter extra items : list value) (held : string) :
  columnMention stmt = before ++ arr :: after ->
  Forall normalColumn before -> Forall normalColumn after ->
  bindType arr = columnBindTypeArray ->
  List.length argsBefore = List.length before ->
  List.length argsAfter = List.length after ->
  1 < len items ->
  reformHoldQuery (HoldedQuery stmt) arr (len items) = Done held ->
  resolveColumnBindInList stmt (argsBefore ++ VSlice items :: argsAfter ++ extra)
  = Done (resolveHolding queryNormalizer held,
          argsBefore ++ items ++ argsAfter, None).
Proof.
  intros. eapply array_column_is_expanded; eauto using flattenArray_typed_slice.
Qed.

(** A [[]interface{}] of more than two elements is expanded for one
    placeholder less than it has elements. *)
Lemma iface_slice_is_expanded_short (stmt : QueryStatement)
    (before after : list ColumnBind) (arr : ColumnBind)
    (argsBefore argsAfter extra items : list value) (held : string) :
  columnMention stmt = before ++ arr :: after ->
  Forall normalColumn before -> Forall normalColumn after ->
  bindType arr = columnBindTypeArray ->
  List.length argsBefore = List.length before ->
  List.length argsAfter = List.length after ->
  2 < len items ->
  reformHoldQuery (HoldedQuery stmt) arr (len items - 1) = Done held ->
  resolveColumnBindInList stmt (argsBefore ++ VSliceIface items :: argsAfter ++ extra)
  = Done (resolveHolding queryNormalizer held,
          argsBefore ++ items ++ argsAfter, None).
Proof.
  intros Hcols Hb Ha Harr Hlb Hla Hcnt Hheld.
  eapply array_column_is_expanded; eauto; [|lia].
  unfold flattenArray. cbn [kindOf Kind_eqb negb andb].
  rewrite flattenIfaceSlice_count.
  destruct items; [unfold len in Hcnt; simpl in Hcnt; lia | reflexivity].
Qed.

(** A [[]interface{}] of exactly two elements is not expanded at all. *)
Lemma iface_pair_is_not_expanded (stmt : QueryStatement)
    (before after : list ColumnBind) (arr : ColumnBind)
    (argsBefore argsAfter extra : list value) (x y : value) :
  columnMention stmt = before ++ arr :: after ->
  Forall normalColumn before -> Forall normalColumn after ->
  bindType arr = columnBindTypeArray ->
  List.length argsBefore = List.length before ->
  List.length argsAfter = List.length after ->
  resolveColumnBindInList stmt (argsBefore ++ VSliceIface [x; y] :: argsAfter ++ extra)
  = Done (Query stmt, argsBefore ++ [x; y] ++ argsAfter, None).
Proof.
  intros Hcols Hb Ha Harr Hlb Hla.
  eapply array_column_is_left_alone with (cnt := 1); eauto; try reflexivity; lia.
Qed.

Lemma countByte_app (c : ascii) (s1 s2 : string) :
  countByte c (s1 +:+ s2) = (countByte c s1 + countByte c s2)%nat.
Proof. induction s1 as [|b s1 IH]; simpl; [reflexivity | rewrite IH; lia]. Qed.

(** [reformArrayHold cnt] holds exactly [cnt] placeholders. *)
Lemma reformArrayHold_count (cnt : Z) :
  holdByte <> ","%char ->
  0 <= cnt ->
  countByte holdByte (reformArrayHold cnt) = Z.to_nat cnt.
Proof.
  intros Hcomma Hcnt. unfold reformArrayHold.
  assert (Hself : Ascii.eqb holdByte holdByte = true) by apply Ascii.eqb_refl.
  assert (Hc : Ascii.eqb holdByte ","%char = false) by (by apply Ascii.eqb_neq).
  destruct (cnt =? 0) eqn:H0; [apply Z.eqb_eq in H0; subst; reflexivity|].
  destruct (cnt =? 1) eqn:H1.
  { apply Z.eqb_eq in H1; subst. simpl. rewrite Hself. reflexivity. }
  generalize (Z.to_nat cnt). intros n.
  assert (Hloop : forall n a buf,
             countByte holdByte
               (fold_left (fun buf i => (if (0 <? i)%nat then buf +:+ "," else buf)
                                        +:+ String holdByte EmptyString)
                          (seq a n) buf)
             = (countByte holdByte buf + n)%nat).
  { clear - Hc. intros n. induction n as [|n IH]; intros a buf; simpl; [lia|].
    rewrite IH, countByte_app. simpl. rewrite Ascii.eqb_refl.
    destruct (0 <? a)%nat; [rewrite countByte_app; simpl; rewrite Hc|]; lia. }
  rewrite Hloop. reflexivity.
Qed.

(** Once one array column was expanded, a further array column whose
    count exceeds one ends the binding with the one-array error. *)
Lemma second_expansion_is_refused (v : ColumnBind) (found : value)
    (arr : list value) (cnt : Z) (st : bindState) :
  bindType v = columnBindTypeArray ->
  flattenArray found = Done (arr, cnt) ->
  1 < cnt ->
  bindTouch st = true ->
  bindColumn v found st
  = Done (mkBindState (bindParam st ++ arr) (bindHeld st) true
                      (Some (Errorf fmtOnlyOneArray []))).
Proof.
  intros Hv Hflat Hcnt Ht.
  unfold bindColumn. rewrite Hv, Hflat.
  apply Z.ltb_lt in Hcnt. rewrite Hcnt, Ht. reflexivity.
Qed.


End BinderFacts.

(** ** 64-bit accumulation *)


Lemma wrap64_inRange (z : Z) : inRange64 (wrap64 z).
Proof.
  unfold inRange64, wrap64.
  pose proof (Z.mod_pos_bound (z + 2 ^ 63) (2 ^ 64) ltac:(lia)). lia.
Qed.

Lemma wrap64_small (z : Z) : inRange64 z -> wrap64 z = z.
Proof.
  unfold inRange64, wrap64. intros Hz.
  rewrite Z.mod_small by lia. lia.
Qed.

Lemma wrap64_add_l (a b : Z) : wrap64 (wrap64 a + b) = wrap64 (a + b).
Proof.
  unfold wrap64.
  replace ((a + 2 ^ 63) mod 2 ^ 64 - 2 ^ 63 + b + 2 ^ 63)
    with ((a + 2 ^ 63) mod 2 ^ 64 + b) by lia.
  rewrite Zplus_mod_idemp_l. f_equal. f_equal. lia.
Qed.

Lemma add64_assoc (a b c : Z) : add64 (add64 a b) c = add64 a (add64 b c).
Proof.
  unfold add64. rewrite wrap64_add_l.
  rewrite (Z.add_comm a (wrap64 (b + c))), wrap64_add_l. f_equal. lia.
Qed.

Lemma add64_0_r (a : Z) : inRange64 a -> add64 a 0 = a.
Proof. intros Ha. unfold add64. rewrite Z.add_0_r. by apply wrap64_small. Qed.

Lemma merged_empty (r : ExecMultiResult) :
  inRange64 (rowAffected r) -> merged r emptyResult = r.
Proof.
  intros Hr. destruct r as [ids n]. unfold merged; simpl in *.
  rewrite app_nil_r, add64_0_r by assumption. reflexivity.
Qed.

(** ** The loop of the batch functions *)

Section BatchFacts.
Context {DB : Type}.
Implicit Types (p : SqlProxy DB) (w : World DB) (r : ExecMultiResult).

(** Starting the loop on an accumulated result amounts to starting it
    afresh and merging. *)
Lemma iterateRows_from p (bindRow : value -> rowBind) (stmt : QueryStatement)
    (args : list value) :
  forall (i : Z) r w,
    inRange64 (rowAffected r) ->
    iterateRows p bindRow stmt args i r w
    = match iterateRows p bindRow stmt args 0 emptyResult w with
      | (w', Done (n, r2, e)) => (w', Done (i + n, merged r r2, e))
      | (w', Panicked why) => (w', Panicked why)
      end.
Proof.
  induction args as [|v rest IH]; intros i r w Hr.
  - simpl. rewrite Z.add_0_r, merged_empty by assumption. reflexivity.
  - cbn [iterateRows]. destruct (bindRow v) as [param|e|why].
    + unfold stmtExec.
      destruct (execFault p (execCalls w)) as [e|].
      * rewrite Z.add_0_r, merged_empty by assumption. reflexivity.
      * destruct (perform p (db w) (Query stmt) param) as [db' res].
        cbn [emptyResult idList rowAffected].
        assert (Hm : merged r (mkExecMultiResult [] (add64 0 (affected res)))
                     = mkExecMultiResult (idList r)
                                         (add64 (rowAffected r) (affected res))).
        { unfold merged; simpl. rewrite app_nil_r. f_equal.
          rewrite <- add64_assoc. f_equal.
          apply add64_0_r; assumption. }
        destruct (isInsert (eleType stmt)).
        -- destruct (insertIdErr res) as [e|].
           ++ rewrite Z.add_0_r, Hm. reflexivity.
           ++ rewrite IH by apply wrap64_inRange.
              rewrite (IH (0 + 1)) by apply wrap64_inRange.
              match goal with
              | |- context [iterateRows p bindRow stmt rest 0 emptyResult ?w'] =>
                destruct (iterateRows p bindRow stmt rest 0 emptyResult w')
                  as [w2 [[[n r2] e]|why]]
              end; [|reflexivity].
              f_equal. f_equal. f_equal. f_equal; [lia|].
              unfold merged, addInsertId; simpl.
              rewrite <- !app_assoc. simpl. f_equal.
              rewrite <- !add64_assoc. f_equal. f_equal.
              symmetry. apply add64_0_r; assumption.
        -- rewrite IH by apply wrap64_inRange.
           rewrite (IH (0 + 1)) by apply wrap64_inRange.
           match goal with
           | |- context [iterateRows p bindRow stmt rest 0 emptyResult ?w'] =>
             destruct (iterateRows p bindRow stmt rest 0 emptyResult w')
               as [w2 [[[n r2] e]|why]]
           end; [|reflexivity].
           f_equal. f_equal. f_equal. f_equal; [lia|].
           unfold merged; simpl. f_equal.
           rewrite <- !add64_assoc. f_equal. f_equal.
           symmetry. apply add64_0_r; assumption.
    + rewrite Z.add_0_r, merged_empty by assumption. reflexivity.
    + reflexivity.
Qed.

Lemma iterateRows_inRange p (bindRow : value -> rowBind) (stmt : QueryStatement)
    (args : list value) :
  forall (i n : Z) r r' w w' (e : option error),
    inRange64 (rowAffected r) ->
    iterateRows p bindRow stmt args i r w = (w', Done (n, r', e)) ->
    inRange64 (rowAffected r').
Proof.
  induction args as [|v rest IH]; intros i n r r' w w' e Hr Hrun.
  - simpl in Hrun. congruence.
  - cbn [iterateRows] in Hrun. destruct (bindRow v) as [param|e0|why];
      [|congruence|congruence].
    destruct (stmtExec p (Query stmt) param w) as [w1 [res|e1]]; [|congruence].
    destruct (isInsert (eleType stmt)).
    + destruct (insertIdErr res).
      * inversion Hrun; subst. apply wrap64_inRange.
      * eapply IH; [|exact Hrun]. apply wrap64_inRange.
    + eapply IH; [|exact Hrun]. apply wrap64_inRange.
Qed.

(** A loop that ran to its end did so over every element. *)
Lemma iterateRows_count p (bindRow : value -> rowBind) (stmt : QueryStatement)
    (args : list value) :
  forall (i n : Z) r r' w w',
    iterateRows p bindRow stmt args i r w = (w', Done (n, r', None)) ->
    n = i + len args.
Proof.
  induction args as [|v rest IH]; intros i n r r' w w' Hrun.
  - simpl in Hrun. inversion Hrun. unfold len; simpl. lia.
  - cbn [iterateRows] in Hrun. destruct (bindRow v) as [param|e0|why];
      [|congruence|congruence].
    destruct (stmtExec p (Query stmt) param w) as [w1 [res|e1]]; [|congruence].
    unfold len. cbn [List.length].
    destruct (isInsert (eleType stmt)).
    + destruct (insertIdErr res); [congruence|].
      apply IH in Hrun. unfold len in Hrun. lia.
    + apply IH in Hrun. unfold len in Hrun. lia.
Qed.

(** The loop over a list runs its front part first. *)
Lemma iterateRows_app p (bindRow : value -> rowBind) (stmt : QueryStatement)
    (front back : list value) :
  forall (i n : Z) r r1 w w1,
    iterateRows p bindRow stmt front i r w = (w1, Done (n, r1, None)) ->
    iterateRows p bindRow stmt (front ++ back) i r w
    = iterateRows p bindRow stmt back n r1 w1.
Proof.
  induction front as [|v rest IH]; intros i n r r1 w w1 Hrun.
  - simpl in Hrun. inversion Hrun; subst. reflexivity.
  - cbn [iterateRows app] in *. destruct (bindRow v) as [param|e0|why];
      [|congruence|congruence].
    destruct (stmtExec p (Query stmt) param w) as [w2 [res|e1]]; [|congruence].
    destruct (isInsert (eleType stmt)).
    + destruct (insertIdErr res); [congruence|]. by apply IH.
    + by apply IH.
Qed.

(** What one execution does to the database when the connection holds
    does not depend on who counts the calls. *)
Lemma stmtExec_faultFree p (query : string) (param : list value) w w0 w1
    (res : sqlResult) :
  db w0 = db w ->
  stmtExec p query param w = (w1, inl res) ->
  exists w2, stmtExec (faultFree p) query param w0 = (w2, inl res) /\ db w2 = db w1.
Proof.
  intros Hdb Hex. unfold stmtExec in *. cbn [faultFree execFault perform].
  destruct (execFault p (execCalls w)); [congruence|].
  rewrite Hdb. destruct (perform p (db w) query param) as [db' res'].
  inversion Hex; subst. eexists. split; reflexivity.
Qed.

Lemma stmtExec_fault_keeps_db p (query : string) (param : list value) w w1
    (e : error) :
  stmtExec p query param w = (w1, inr e) -> db w1 = db w.
Proof.
  unfold stmtExec. destruct (execFault p (execCalls w)).
  - intros Hex; inversion Hex; reflexivity.
  - destruct (perform p (db w) query param). congruence.
Qed.

(** A pass that succeeded would have gone the same way on a connection
    that never faults. *)
Lemma iterateRows_ok_faultFree p (bindRow : value -> rowBind)
    (stmt : QueryStatement) (args : list value) :
  forall (i n : Z) r r' w w' w0,
    db w0 = db w ->
    iterateRows p bindRow stmt args i r w = (w', Done (n, r', None)) ->
    exists w0',
      iterateRows (faultFree p) bindRow stmt args i r w0 = (w0', Done (n, r', None))
      /\ db w0' = db w'.
Proof.
  induction args as [|v rest IH]; intros i n r r' w w' w0 Hdb Hrun.
  - simpl in *. inversion Hrun; subst. eauto.
  - cbn [iterateRows] in *. destruct (bindRow v) as [param|e0|why];
      [|congruence|congruence].
    destruct (stmtExec p (Query stmt) param w) as [w1 [res|e1]] eqn:Hex;
      [|congruence].
    destruct (stmtExec_faultFree _ _ _ _ _ _ _ Hdb Hex) as (w2 & -> & Hdb2).
    destruct (isInsert (eleType stmt)).
    + destruct (insertIdErr res); [congruence|]. eapply IH; eauto.
    + eapply IH; eauto.
Qed.

(** A pass that ended on the bad-connection error had executed, in
    order, exactly the elements before the one it reports, as a
    connection that never faults would have. *)
Lemma iterateRows_badConn_prefix p (bindRow : value -> rowBind)
    (stmt : QueryStatement) (args : list value) :
  (forall v, bindRow v <> RowError ErrBadConn) ->
  forall (i n : Z) r r' w w' w0,
    db w0 = db w ->
    iterateRows p bindRow stmt args i r w = (w', Done (n, r', Some ErrBadConn)) ->
    exists (front back : list value) w0',
      args = front ++ back
      /\ n = i + len front
      /\ iterateRows (faultFree p) bindRow stmt front i r w0
         = (w0', Done (n, r', None))
      /\ db w0' = db w'.
Proof.
  intros Hbind.
  induction args as [|v rest IH]; intros i n r r' w w' w0 Hdb Hrun.
  - simpl in Hrun. congruence.
  - cbn [iterateRows] in Hrun.
    destruct (bindRow v) as [param|e0|why] eqn:Hv; [| |congruence].
    2:{ inversion Hrun; subst. exfalso. apply (Hbind v). assumption. }
    destruct (stmtExec p (Query stmt) param w) as [w1 [res|e1]] eqn:Hex.
    + destruct (stmtExec_faultFree _ _ _ _ _ _ _ Hdb Hex) as (w2 & Hex2 & Hdb2).
      destruct (isInsert (eleType stmt)) eqn:Hins;
        [destruct (insertIdErr res) eqn:Hid; [congruence|]|];
        (destruct (IH _ _ _ _ _ _ _ Hdb2 Hrun)
           as (front & back & w0' & -> & Hn & Hf & Hd);
         exists (v :: front), back, w0';
         split; [reflexivity|];
         split; [unfold len in *; cbn [List.length]; lia|];
         split; [|exact Hd];
         cbn [iterateRows]; rewrite Hv, Hex2, Hins, ?Hid; exact Hf).
    + inversion Hrun; subst.
      exists [], (v :: rest), w0. repeat split.
      * unfold len; simpl. lia.
      * rewrite Hdb. symmetry. eapply stmtExec_fault_keeps_db; eassumption.
Qed.
End BatchFacts.

(** ** Batches: validation, fault and retry *)

Lemma validateNestedList_errorf (defined : Z) (args : list value) :
  forall (i : Z) (err : error),
    validateNestedList defined args i = Done (Some err) ->
    exists format operands, err = Errorf format operands.
Proof.
  induction args as [|v rest IH]; intros i err Hv; simpl in Hv; [congruence|].
  destruct (kindOf v) as [k|]; [|congruence].
  destruct (negb (Kind_eqb k KSlice) && negb (Kind_eqb k KArray)).
  - inversion Hv. eauto.
  - destruct (reflectLen v) as [n|]; [|congruence].
    destruct (n <? defined); [inversion Hv; eauto | eauto].
Qed.

Lemma validateNestedMap_errorf (defined : Z) (args : list value) :
  forall (i : Z) (err : error),
    validateNestedMap defined args i = Done (Some err) ->
    exists format operands, err = Errorf format operands.
Proof.
  induction args as [|v rest IH]; intros i err Hv; simpl in Hv; [congruence|].
  destruct (kindOf v) as [k|]; [|congruence].
  destruct (negb (Kind_eqb k KMap)).
  - inversion Hv. eauto.
  - destruct (reflectLen v) as [n|]; [|congruence].
    destruct (n <? defined); [inversion Hv; eauto | eauto].
Qed.



Lemma validateNestedList_rejects (defined : Z) (args : list value) :
  forall (i : Z),
    Exists (badListRow defined) args ->
    validateNestedList defined args i <> Done None.
Proof.
  induction args as [|v rest IH]; intros i Hex; [inversion Hex|].
  simpl. destruct (kindOf v) as [k|] eqn:Hk; [|congruence].
  destruct (negb (Kind_eqb k KSlice) && negb (Kind_eqb k KArray)) eqn:Hkind;
    [congruence|].
  destruct (reflectLen v) as [n|] eqn:Hn; [|congruence].
  destruct (n <? defined) eqn:Hlt; [congruence|].
  apply IH. inversion Hex as [? ? Hbad|]; subst; [|assumption].
  exfalso. apply Z.ltb_ge in Hlt.
  destruct v; simpl in *; try discriminate; inversion Hk; subst; simpl in *;
    try discriminate; inversion Hn; subst; lia.
Qed.

Lemma validateNestedMap_rejects (defined : Z) (args : list value) :
  forall (i : Z),
    Exists (badMapRow defined) args ->
    validateNestedMap defined args i <> Done None.
Proof.
  induction args as [|v rest IH]; intros i Hex; [inversion Hex|].
  simpl. destruct (kindOf v) as [k|] eqn:Hk; [|congruence].
  destruct (negb (Kind_eqb k KMap)) eqn:Hkind; [congruence|].
  destruct (reflectLen v) as [n|] eqn:Hn; [|congruence].
  destruct (n <? defined) eqn:Hlt; [congruence|].
  apply IH. inversion Hex as [? ? Hbad|]; subst; [|assumption].
  exfalso. apply Z.ltb_ge in Hlt.
  destruct v as [| | | | | |[m|]|m|n'| | | |]; simpl in *; try discriminate;
    inversion Hk; subst; simpl in *; try discriminate; inversion Hn; subst; lia.
Qed.

Section BatchClaims.
Context {DB : Type}.
Implicit Types (p : SqlProxy DB) (w : World DB) (r : ExecMultiResult).

(** The list and the map batch check every element first: a batch with
    a bad element ends before [prepare], with the world as it was. *)
Lemma nested_list_is_validated_before_prepare p (stmt : QueryStatement)
    (args : list value) w :
  Exists (badListRow (len (columnMention stmt))) args ->
  (exists why, doExecWithNestedList p stmt args w = (w, Panicked why))
  \/ (exists err, doExecWithNestedList p stmt args w
                 = (w, Done (0, emptyResult, Some err))).
Proof.
  intros Hex. unfold doExecWithNestedList.
  pose proof (validateNestedList_rejects _ _ 0 Hex) as Hv.
  destruct (validateNestedList (len (columnMention stmt)) args 0) as [[err|]|why];
    [right; eauto | congruence | left; eauto].
Qed.

Lemma nested_map_is_validated_before_prepare p (stmt : QueryStatement)
    (args : list value) w :
  Exists (badMapRow (len (columnMention stmt))) args ->
  (exists why, doExecWithNestedMap p stmt args w = (w, Panicked why))
  \/ (exists err, doExecWithNestedMap p stmt args w
                 = (w, Done (0, emptyResult, Some err))).
Proof.
  intros Hex. unfold doExecWithNestedMap.
  pose proof (validateNestedMap_rejects _ _ 0 Hex) as Hv.
  destruct (validateNestedMap (len (columnMention stmt)) args 0) as [[err|]|why];
    [right; eauto | congruence | left; eauto].
Qed.

(** The two passes of a retried batch, put together, are the one pass
    of a connection that never faults. *)
Lemma prepareAndIterate_retry p (bindRow : value -> rowBind)
    (stmt : QueryStatement) (args : list value) w0 w1 w2 (k n2 : Z) r1 r2 :
  (forall v, bindRow v <> RowError ErrBadConn) ->
  prepareAndIterate p bindRow stmt args w0 = (w1, Done (k, r1, Some ErrBadConn)) ->
  prepareAndIterate p bindRow stmt (drop (Z.to_nat k) args) w1
    = (w2, Done (n2, r2, None)) ->
  0 <= k <= len args
  /\ exists wf,
      prepareAndIterate (faultFree p) bindRow stmt args w0
        = (wf, Done (len args, merged r1 r2, None))
      /\ db wf = db w2.
Proof.
  intros Hbind H1 H2.
  (* the first pass *)
  assert (Hfirst : exists (front back : list value) wa,
             args = front ++ back /\ k = len front
             /\ iterateRows (faultFree p) bindRow stmt front 0 emptyResult
                            (prepare (faultFree p) w0).1
                = (wa, Done (k, r1, None))
             /\ db wa = db w1).
  { unfold prepareAndIterate in H1. cbn [prepare] in H1.
    destruct (prepareFault p (prepareCalls w0)) as [e|].
    - inversion H1; subst. exists [], args. eexists.
      repeat split.
    - destruct (iterateRows p bindRow stmt args 0 emptyResult _)
        as [wx o] eqn:Hrun.
      inversion H1; subst.
      eapply (iterateRows_badConn_prefix p bindRow stmt args Hbind _ _ _ _ _ _
                (prepare (faultFree p) w0).1) in Hrun; [|reflexivity].
      destruct Hrun as (front & back & wa & -> & Hn & Hf & Hd).
      exists front, back, wa. repeat split; try assumption; try lia. }
  destruct Hfirst as (front & back & wa & -> & Hk & Hfront & Hda).
  assert (Hdrop : drop (Z.to_nat k) (front ++ back) = back).
  { subst k. unfold len. rewrite Nat2Z.id. apply drop_app_length. }
  rewrite Hdrop in H2.
  (* the second pass *)
  unfold prepareAndIterate in H2. cbn [prepare] in H2.
  destruct (prepareFault p (prepareCalls w1)) as [e|]; [congruence|].
  destruct (iterateRows p bindRow stmt back 0 emptyResult _) as [wy o] eqn:Hrun2.
  injection H2 as Hw2 Ho. subst o w2.
  eapply (iterateRows_ok_faultFree p bindRow stmt back _ _ _ _ _ _ wa) in Hrun2;
    [|rewrite Hda; reflexivity].
  destruct Hrun2 as (wb & Hback & Hdb).
  pose proof (iterateRows_count _ _ _ _ _ _ _ _ _ _ Hback) as Hn2.
  split.
  { subst k. unfold len. rewrite length_app. lia. }
  (* both, on the connection that never faults *)
  exists (stmtClose wb). split; [|exact Hdb].
  unfold prepareAndIterate.
  replace (prepare (faultFree p) w0) with ((prepare (faultFree p) w0).1, @None error)
    by reflexivity.
  rewrite (iterateRows_app _ _ _ _ back _ _ _ _ _ _ Hfront).
  rewrite iterateRows_from
    by (eapply iterateRows_inRange; [|exact Hfront]; simpl; unfold inRange64; lia).
  rewrite Hback.
  replace (k + n2) with (len (front ++ back)); [reflexivity|].
  subst k n2. unfold len. rewrite length_app. lia.
Qed.

Lemma bindListRow_no_badConn (v : value) : bindListRow v <> RowError ErrBadConn.
Proof. unfold bindListRow. destruct (flattenToList v); discriminate. Qed.

(** C4. A list batch whose first pass ends on the bad-connection error
    with [k] elements executed, and whose one retry over the elements
    from index [k] on succeeds, returns the identifiers of both passes
    in order and the sum of their counts, and that is the result the
    batch has on a connection that never faults, which also leaves the
    database in the same state. *)
Theorem retried_batch_equals_unfaulted_batch :
  forall p (stmt : QueryStatement) (args : list value) w0 w1 w2
         (k n2 : Z) r1 r2,
    doExecWithNestedList p stmt args w0 = (w1, Done (k, r1, Some ErrBadConn)) ->
    doExecWithNestedList p stmt (drop (Z.to_nat k) args) w1
      = (w2, Done (n2, r2, None)) ->
    execWithNestedList p stmt args w0
      = (w2, Done (mkExecMultiResult (idList r1 ++ idList r2)
                                     (add64 (rowAffected r1) (rowAffected r2)),
                   None))
    /\ exists wf,
        execWithNestedList (faultFree p) stmt args w0
          = (wf, Done (mkExecMultiResult (idList r1 ++ idList r2)
                                         (add64 (rowAffected r1) (rowAffected r2)),
                       None))
        /\ db wf = db w2.
Proof.
  intros p stmt args w0 w1 w2 k n2 r1 r2 H1 H2.
  assert (Hval : validateNestedList (len (columnMention stmt)) args 0 = Done None).
  { unfold doExecWithNestedList in H1.
    destruct (validateNestedList (len (columnMention stmt)) args 0)
      as [[err|]|why] eqn:Hv; [|reflexivity|congruence].
    destruct (validateNestedList_errorf _ _ _ _ Hv) as (f & a & ->).
    inversion H1. }
  assert (Hval2 : validateNestedList (len (columnMention stmt))
                                     (drop (Z.to_nat k) args) 0 = Done None).
  { unfold doExecWithNestedList in H2.
    destruct (validateNestedList (len (columnMention stmt)) (drop (Z.to_nat k) args) 0)
      as [[err|]|why]; [inversion H2|reflexivity|inversion H2]. }
  pose proof H1 as H1'. pose proof H2 as H2'.
  unfold doExecWithNestedList in H1', H2'. rewrite Hval in H1'. rewrite Hval2 in H2'.
  destruct (prepareAndIterate_retry p bindListRow stmt args w0 w1 w2 k n2 r1 r2
              bindListRow_no_badConn H1' H2') as (Hk & wf & Hff & Hdb).
  split.
  - unfold execWithNestedList, retryOnBadConn. rewrite H1. cbn [isBadConn].
    replace ((0 <=? k) && (k <=? len args)) with true
      by (symmetry; apply andb_true_iff; split; apply Z.leb_le; lia).
    rewrite H2. reflexivity.
  - exists wf. split; [|exact Hdb].
    unfold execWithNestedList, retryOnBadConn, doExecWithNestedList.
    rewrite Hval, Hff. reflexivity.
Qed.
Lemma bindMapRow_no_badConn (stmt : QueryStatement) (v : value) :
  bindMapRow stmt v <> RowError ErrBadConn.
Proof.
  unfold bindMapRow. destruct v; try discriminate.
  destruct (lookupColumns _ _ _); discriminate.
Qed.

Lemma bindStructRow_no_badConn (stmt : QueryStatement) (v : value) :
  bindStructRow stmt v <> RowError ErrBadConn.
Proof.
  unfold bindStructRow. destruct (kindOf v) as [k|]; [|discriminate].
  destruct (if Kind_eqb k KPtr then _ else _) as [val|]; [|discriminate].
  destruct (flattenStructToMap val) as [m|]; [|discriminate].
  destruct (lookupColumns _ _ _); discriminate.
Qed.

(** The same holds for a batch of maps ... *)
Lemma retried_map_batch_equals_unfaulted_batch p (stmt : QueryStatement)
    (args : list value) w0 w1 w2 (k n2 : Z) r1 r2 :
  doExecWithNestedMap p stmt args w0 = (w1, Done (k, r1, Some ErrBadConn)) ->
  doExecWithNestedMap p stmt (drop (Z.to_nat k) args) w1 = (w2, Done (n2, r2, None)) ->
  execWithNestedMap p stmt args w0 = (w2, Done (merged r1 r2, None))
  /\ exists wf,
      execWithNestedMap (faultFree p) stmt args w0 = (wf, Done (merged r1 r2, None))
      /\ db wf = db w2.
Proof.
  intros H1 H2.
  assert (Hval : validateNestedMap (len (columnMention stmt)) args 0 = Done None).
  { unfold doExecWithNestedMap in H1.
    destruct (validateNestedMap (len (columnMention stmt)) args 0)
      as [[err|]|why] eqn:Hv; [|reflexivity|congruence].
    destruct (validateNestedMap_errorf _ _ _ _ Hv) as (f & a & ->).
    inversion H1. }
  assert (Hval2 : validateNestedMap (len (columnMention stmt))
                                    (drop (Z.to_nat k) args) 0 = Done None).
  { unfold doExecWithNestedMap in H2.
    destruct (validateNestedMap (len (columnMention stmt)) (drop (Z.to_nat k) args) 0)
      as [[err|]|why]; [inversion H2|reflexivity|inversion H2]. }
  pose proof H1 as H1'. pose proof H2 as H2'.
  unfold doExecWithNestedMap in H1', H2'. rewrite Hval in H1'. rewrite Hval2 in H2'.
  destruct (prepareAndIterate_retry p (bindMapRow stmt) stmt args w0 w1 w2 k n2 r1 r2
              (bindMapRow_no_badConn stmt) H1' H2') as (Hk & wf & Hff & Hdb).
  split.
  - unfold execWithNestedMap, retryOnBadConn. rewrite H1. cbn [isBadConn].
    replace ((0 <=? k) && (k <=? len args)) with true
      by (symmetry; apply andb_true_iff; split; apply Z.leb_le; lia).
    rewrite H2. reflexivity.
  - exists wf. split; [|exact Hdb].
    unfold execWithNestedMap, retryOnBadConn, doExecWithNestedMap.
    rewrite Hval, Hff. reflexivity.
Qed.

(** ... and for a batch of records. *)
Lemma retried_struct_batch_equals_unfaulted_batch p (stmt : QueryStatement)
    (args : list value) w0 w1 w2 (k n2 : Z) r1 r2 :
  doExecWithStructList p stmt args w0 = (w1, Done (k, r1, Some ErrBadConn)) ->
  doExecWithStructList p stmt (drop (Z.to_nat k) args) w1 = (w2, Done (n2, r2, None)) ->
  execWithStructList p stmt args w0 = (w2, Done (merged r1 r2, None))
  /\ exists wf,
      execWithStructList (faultFree p) stmt args w0 = (wf, Done (merged r1 r2, None))
      /\ db wf = db w2.
Proof.
  intros H1 H2.
  destruct (prepareAndIterate_retry p (bindStructRow stmt) stmt args w0 w1 w2 k n2 r1 r2
              (bindStructRow_no_badConn stmt) H1 H2) as (Hk & wf & Hff & Hdb).
  split.
  - unfold execWithStructList, retryOnBadConn. rewrite H1. cbn [isBadConn].
    replace ((0 <=? k) && (k <=? len args)) with true
      by (symmetry; apply andb_true_iff; split; apply Z.leb_le; lia).
    rewrite H2. reflexivity.
  - exists wf. split; [|exact Hdb].
    unfold execWithStructList, retryOnBadConn, doExecWithStructList.
    rewrite Hff. reflexivity.
Qed.
End BatchClaims.

Lemma retried_batch_equals_unfaulted_batch_witness :
  doExecWithNestedList (counterTable (badConnAt 1)) stmtInsert batchOfThree (newWorld 0%nat)
    = (mkWorld nat 1%nat 1 2 1 1, Done (1, mkExecMultiResult [1] 1, Some ErrBadConn))
  /\ doExecWithNestedList (counterTable (badConnAt 1)) stmtInsert
                          (drop (Z.to_nat 1) batchOfThree) (mkWorld nat 1%nat 1 2 1 1)
      = (mkWorld nat 3%nat 2 4 2 3, Done (2, mkExecMultiResult [2; 3] 2, None))
  /\ execWithNestedList (counterTable (badConnAt 1)) stmtInsert batchOfThree (newWorld 0%nat)
      = (mkWorld nat 3%nat 2 4 2 3, Done (mkExecMultiResult [1; 2; 3] 3, None)).
Proof.
  split; [reflexivity|]. split; [reflexivity|].
  destruct (retried_batch_equals_unfaulted_batch
              (counterTable (badConnAt 1)) stmtInsert batchOfThree
              (newWorld 0%nat) (mkWorld nat 1%nat 1 2 1 1) (mkWorld nat 3%nat 2 4 2 3)
              1 2 (mkExecMultiResult [1] 1) (mkExecMultiResult [2; 3] 2)
              eq_refl eq_refl) as [-> _].
  reflexivity.
Defined.

(** C3. A batch of records is not checked before it starts: with two
    records of which the second lacks a column, [doExecWithStructList]
    has prepared the statement and executed the first record when it
    reports the second. *)
Theorem struct_batch_runs_before_it_rejects :
  doExecWithStructList (counterTable (fun _ => None)) stmtInsertPair structBatch
                       (newWorld 0%nat)
  = (mkWorld nat 1%nat 1 1 1 1,
     Done (1, mkExecMultiResult [1] 1,
           Some (Errorf fmtNotFoundInStruct [FColumn (NewColumnBind "B" 30)]))).
Proof. reflexivity. Qed.

(** So it is with a slice of pointers of which the second is nil. *)
Example struct_batch_runs_before_it_meets_nil :
  doExecWithStructList (counterTable (fun _ => None)) stmtInsertPair structBatchNil
                       (newWorld 0%nat)
  = (mkWorld nat 1%nat 1 1 1 1,
     Done (1, mkExecMultiResult [1] 1, Some ErrNilPtr)).
Proof. reflexivity. Qed.

(** The same rows as nested lists are turned down with nothing prepared
    and nothing executed. *)
Example list_batch_is_rejected_up_front :
  doExecWithNestedList (counterTable (fun _ => None)) stmtInsertPair listBatchShort
                       (newWorld 0%nat)
  = (newWorld 0%nat,
     Done (0, emptyResult,
           Some (Errorf fmtRowCountMismatch [FInt 2; FInt 1; FInt 1]))).
Proof. reflexivity. Qed.

(** A map batch is checked for kind and size only: an element of another
    map type passes the check and is reported inside the loop, after the
    statement was prepared and the element before it executed. *)
Example map_batch_checks_kind_and_size_only :
  doExecWithNestedMap (counterTable (fun _ => None)) stmtInsertPair
    [VMapIface (Some (<["A" := VInt 1]> (<["B" := VInt 2]> ∅)));
     VMapStr (<["A" := VInt 3]> (<["B" := VInt 4]> ∅))]
    (newWorld 0%nat)
  = (mkWorld nat 1%nat 1 1 1 1,
     Done (1, mkExecMultiResult [1] 1, Some ErrInvalidMapType)).
Proof. vm_compute. reflexivity. Qed.

(** ** Binding at the inputs that go wrong *)

(** C1. Three elements in a [[]interface{}] bound to the one array column
    of [stmtOneArray], whatever the normalizer: the three become
    arguments, but the count that [flattenArray] reports is 2, and the
    held query is rewritten to two placeholders. *)
Theorem iface_slice_is_expanded_one_short :
  forall (qn : QueryNormalizer) (a b c : value),
    @resolveColumnBindInList (mkGlobals qn "?"%char) stmtOneArray
       [VSliceIface [a; b; c]]
    = Done (resolveHolding qn "SELECT * FROM t WHERE id IN (?,?)", [a; b; c], None).
Proof. intros qn a b c. reflexivity. Qed.

(** The same three elements in a slice of another type get three
    placeholders. *)
Example typed_slice_is_expanded_in_full :
  forall (qn : QueryNormalizer) (a b c : value),
    @resolveColumnBindInList (mkGlobals qn "?"%char) stmtOneArray [VSlice [a; b; c]]
    = Done (resolveHolding qn "SELECT * FROM t WHERE id IN (?,?,?)", [a; b; c], None).
Proof. intros qn a b c. reflexivity. Qed.

(** C7. Two array columns that each receive a [[]interface{}] of two
    elements, whatever the normalizer: both counts are reported as 1,
    nothing is expanded and no error is raised, by position and by name
    alike. *)
Theorem two_iface_pairs_are_accepted :
  forall (qn : QueryNormalizer) (a b c d : value),
    @resolveColumnBindInList (mkGlobals qn "?"%char) stmtTwoArrays
       [VSliceIface [a; b]; VSliceIface [c; d]]
    = Done ("SELECT * FROM t WHERE a IN (?) AND b IN (?)", [a; b; c; d], None)
    /\ @resolveColumnBindInMap (mkGlobals qn "?"%char) stmtTwoArrays
         (Some (<["as" := VSliceIface [a; b]]> (<["bs" := VSliceIface [c; d]]> ∅)))
       = Done ("SELECT * FROM t WHERE a IN (?) AND b IN (?)", [a; b; c; d], None).
Proof. intros qn a b c d. split; reflexivity. Qed.

(** Slices of another type in the same places are refused, in either
    order of the two columns. *)
Example two_typed_pairs_are_refused :
  forall (qn : QueryNormalizer) (a b c d : value),
    @resolveColumnBindInList (mkGlobals qn "?"%char) stmtTwoArrays
       [VSlice [a; b]; VSlice [c; d]]
    = Done ("SELECT * FROM t WHERE a IN (?) AND b IN (?)", [a; b; c; d],
            Some (Errorf fmtOnlyOneArray []))
    /\ @resolveColumnBindInMap (mkGlobals qn "?"%char) stmtTwoArrays
         (Some (<["bs" := VSlice [c; d]]> (<["as" := VSlice [a; b]]> ∅)))
       = Done ("SELECT * FROM t WHERE a IN (?) AND b IN (?)", [a; b; c; d],
               Some (Errorf fmtOnlyOneArray [])).
Proof. intros qn a b c d. split; reflexivity. Qed.

(** C2. A statement with an array column bound from a map that lacks the
    name of its normal column, whatever the normalizer: the lookup is not
    checked, the nil interface is bound in its place, the binding
    succeeds and [execWithMap] executes the query with it. *)
Theorem missing_name_is_bound_as_nil :
  forall (qn : QueryNormalizer) (a b : value),
    mapIndex (Some (<["ids" := VSlice [a; b]]> ∅)) "status" = None
    /\ @resolveColumnBindInMap (mkGlobals qn "?"%char) stmtNormalAndArray
         (Some (<["ids" := VSlice [a; b]]> ∅))
       = Done (resolveHolding qn "SELECT * FROM t WHERE s = ? AND id IN (?,?)",
               [VNil; a; b], None)
    /\ @execWithMap nat (counterTable (fun _ => None)) (mkGlobals qn "?"%char)
         stmtNormalAndArray (Some (<["ids" := VSlice [a; b]]> ∅)) (newWorld 0%nat)
       = (mkWorld nat 1%nat 0 1 0 1, Done (Some (mkSqlResult 1 1 None), None)).
Proof. intros qn a b. repeat split; reflexivity. Qed.


(** A record that lacks a column is reported by name, too. *)
Lemma lookupColumns_missing (cols : list ColumnBind) (m : option (gmap string value)) :
  forall (param : list value),
    Exists (fun c => mapIndex m (name c) = None) cols ->
    exists (c : ColumnBind), lookupColumns cols m param = inr c.
Proof.
  induction cols as [|c cols IH]; intros param Hex; [inversion Hex|].
  simpl. destruct (mapIndex m (name c)) as [found|] eqn:Hc; [|eauto].
  apply IH. inversion Hex; subst; [congruence | assumption].
Qed.

Lemma struct_row_reports_missing (stmt : QueryStatement) (valuer : bool)
    (fields : list (string * bool * value)) (m : gmap string value) :
  flattenStructToMap (VStruct valuer fields) = Done m ->
  Exists (fun c => m !! name c = None) (columnMention stmt) ->
  exists (c : ColumnBind),
    bindStructRow stmt (VStruct valuer fields)
    = RowError (Errorf fmtNotFoundInStruct [FColumn c]).
Proof.
  intros Hm Hex. unfold bindStructRow. cbn [kindOf Kind_eqb].
  rewrite Hm. destruct (lookupColumns_missing _ (Some m) [] Hex) as [c ->].
  eauto.
Qed.

(** ** Fetching a single row *)

(** C8. [QueryRowResult.Scan] on a result that holds a cursor: when the
    cursor is sound and has no row the call returns [ErrNoRows]; and
    whatever the call returns, the cursor was closed exactly once and is
    no longer held, and the statement handle, if one is held, was closed
    exactly once and dropped outside a transaction, and neither closed
    nor dropped inside one. A panic of the body is among the paths: it
    is recovered after the release. *)
Theorem Scan_row_releases_exactly_once :
  forall (r : QueryRowResult.t) (v : list value) (rs : Rows),
    QueryRowResult.rows r = Some rs ->
    let after := (QueryRowResult.Scan r v).1.1 in
    let events := (QueryRowResult.Scan r v).1.2 in
    (QueryRowResult.err r = None -> rowsErr rs = None -> rowsNext rs = false ->
     rowsErrAtEnd rs = None ->
     (QueryRowResult.Scan r v).2 = Some ErrNoRows)
    /\ countEvent RowsClosed events = 1%nat
    /\ QueryRowResult.rows after = None
    /\ countEvent StmtClosed events
       = (if negb (QueryRowResult.transaction r) && bool_decide (is_Some (QueryRowResult.pstmt r))
          then 1%nat else 0%nat)
    /\ QueryRowResult.pstmt after
       = (if QueryRowResult.transaction r then QueryRowResult.pstmt r else None).
Proof.
  intros [tx ps e rows0] v rs Hrows. simpl in Hrows. subst rows0.
  unfold QueryRowResult.Scan, QueryRowResult.release, QueryRowResult.scanBody.
  cbn [QueryRowResult.rows QueryRowResult.err QueryRowResult.transaction
       QueryRowResult.pstmt].
  split.
  - intros -> -> -> ->. destruct tx, ps; reflexivity.
  - destruct tx, ps as [[]|]; repeat split; reflexivity.
Qed.

Lemma Scan_row_releases_exactly_once_witness :
  QueryRowResult.rows rowResultNoRows = Some emptyCursor
  /\ (QueryRowResult.Scan rowResultNoRows [VPtr (VInt 0)]).2 = Some ErrNoRows
  /\ countEvent RowsClosed (QueryRowResult.Scan rowResultNoRows [VPtr (VInt 0)]).1.2
     = 1%nat
  /\ countEvent StmtClosed (QueryRowResult.Scan rowResultNoRows [VPtr (VInt 0)]).1.2
     = 1%nat.
Proof.
  split; [reflexivity|].
  destruct (Scan_row_releases_exactly_once rowResultNoRows [VPtr (VInt 0)]
              emptyCursor eq_refl)
    as (Hnorows & Hrows & _ & Hstmt & _).
  split; [apply Hnorows; reflexivity|].
  split; [exact Hrows | exact Hstmt].
Defined.

(** A second [Scan] on the same result closes nothing again. *)
Lemma Scan_row_twice_closes_once (r : QueryRowResult.t) (v v' : list value) :
  let once := QueryRowResult.Scan r v in
  let twice := QueryRowResult.Scan once.1.1 v' in
  countEvent RowsClosed (once.1.2 ++ twice.1.2)
    = (if bool_decide (is_Some (QueryRowResult.rows r)) then 1%nat else 0%nat)
  /\ countEvent StmtClosed (once.1.2 ++ twice.1.2)
     = (if negb (QueryRowResult.transaction r)
           && bool_decide (is_Some (QueryRowResult.pstmt r))
        then 1%nat else 0%nat).
Proof.
  destruct r as [tx ps e rows0].
  unfold QueryRowResult.Scan, QueryRowResult.release. simpl.
  destruct tx, ps as [[]|], rows0; split; reflexivity.
Qed.

(** Without a cursor there is nothing to close but the handle. *)
Lemma Scan_row_without_cursor (r : QueryRowResult.t) (v : list value) :
  QueryRowResult.rows r = None ->
  countEvent RowsClosed (QueryRowResult.Scan r v).1.2 = 0%nat
  /\ QueryRowResult.rows (QueryRowResult.Scan r v).1.1 = None.
Proof.
  destruct r as [tx ps e rows0]. simpl. intros ->.
  unfold QueryRowResult.Scan, QueryRowResult.release. simpl.
  destruct tx, ps; split; reflexivity.
Qed.

(** ** Refinement leaves the registered statement alone *)

Section AliasingFacts.
Context `{G : Globals}.
Implicit Types (h : gmap nat Aliasing.array) (s : Aliasing.Statement).

Lemma alloc_fresh h (a : Aliasing.array) (l : nat) :
  is_Some (h !! l) -> (Aliasing.alloc h a).2 <> l /\ (Aliasing.alloc h a).1 !! l = h !! l.
Proof.
  intros Hl. unfold Aliasing.alloc; simpl.
  assert (Hne : fresh (dom h) <> l).
  { intros <-. apply elem_of_dom in Hl. by apply is_fresh in Hl. }
  split; [exact Hne|]. by rewrite lookup_insert_ne.
Qed.

Lemma alloc_lookup h (a : Aliasing.array) : (Aliasing.alloc h a).1 !! (Aliasing.alloc h a).2 = Some a.
Proof. unfold Aliasing.alloc; simpl. apply lookup_insert_eq. Qed.

Lemma readClause_same h h' (o : option nat) :
  (forall l, o = Some l -> h' !! l = h !! l) -> Aliasing.readClause h' o = Aliasing.readClause h o.
Proof. intros Hsame. destruct o as [l|]; simpl; [|reflexivity]. by rewrite Hsame. Qed.

Lemma readColumns_same h h' (o : option nat) :
  (forall l, o = Some l -> h' !! l = h !! l) -> Aliasing.readColumns h' o = Aliasing.readColumns h o.
Proof. intros Hsame. destruct o as [l|]; simpl; [|reflexivity]. by rewrite Hsame. Qed.

(** A store that agrees on the arrays of [s] gives [s] the same
    meaning, well-formedness included. *)
Lemma view_same h h' s :
  Aliasing.wellFormed h s ->
  (forall l, is_Some (h !! l) -> h' !! l = h !! l) ->
  Aliasing.view h' s = Aliasing.view h s /\ Aliasing.wellFormed h' s.
Proof.
  intros [Hc Hm] Hsame. split.
  - unfold Aliasing.view. f_equal.
    + apply readClause_same. intros l Hl. apply Hsame.
      destruct (Hc l Hl) as [c ->]. eauto.
    + apply readColumns_same. intros l Hl. apply Hsame.
      destruct (Hm l Hl) as [c ->]. eauto.
  - split; intros l Hl.
    + destruct (Hc l Hl) as [c Hlc]. exists c. rewrite Hsame; [assumption|].
      rewrite Hlc. eauto.
    + destruct (Hm l Hl) as [c Hlc]. exists c. rewrite Hsame; [assumption|].
      rewrite Hlc. eauto.
Qed.

(** The copy denotes the same statement, on two arrays that did not
    exist before; every Aliasing.array that did is as it was. *)
Lemma clone_spec h s :
  Aliasing.wellFormed h s ->
  let h' := (Aliasing.clone h s).1 in
  let c := (Aliasing.clone h s).2 in
  Aliasing.view h' c = Aliasing.view h s
  /\ Aliasing.wellFormed h' c
  /\ (forall l, is_Some (h !! l) ->
                h' !! l = h !! l /\ Aliasing.sClause c <> Some l /\ Aliasing.sColumnMention c <> Some l).
Proof.
  intros Hwf. pose proof Hwf as [Hc Hm]. unfold Aliasing.clone.
  set (a1 := Aliasing.ClauseArray _).
  destruct (Aliasing.alloc h a1) as [h1 lc] eqn:Ha1.
  set (a2 := Aliasing.ColumnArray _).
  destruct (Aliasing.alloc h1 a2) as [h2 lm] eqn:Ha2.
  cbn [fst snd].
  pose proof (alloc_lookup h a1) as Hl1. rewrite Ha1 in Hl1. cbn [fst snd] in Hl1.
  pose proof (alloc_lookup h1 a2) as Hl2. rewrite Ha2 in Hl2. cbn [fst snd] in Hl2.
  assert (Hold1 : forall l, is_Some (h !! l) -> lc <> l /\ h1 !! l = h !! l).
  { intros l Hl. pose proof (alloc_fresh h a1 l Hl) as Hf. rewrite Ha1 in Hf. exact Hf. }
  assert (Hold2 : forall l, is_Some (h1 !! l) -> lm <> l /\ h2 !! l = h1 !! l).
  { intros l Hl. pose proof (alloc_fresh h1 a2 l Hl) as Hf. rewrite Ha2 in Hf. exact Hf. }
  assert (Hlc2 : h2 !! lc = Some a1).
  { destruct (Hold2 lc) as [_ ->]; [rewrite Hl1; eauto | exact Hl1]. }
  assert (Hcols : Aliasing.readColumns h1 (Aliasing.sColumnMention s) = Aliasing.readColumns h (Aliasing.sColumnMention s)).
  { apply readColumns_same. intros l Hl. apply Hold1.
    destruct (Hm l Hl) as [c ->]. eauto. }
  split; [|split].
  - unfold Aliasing.view. cbn [Aliasing.sEleType Aliasing.sId Aliasing.sQuery Aliasing.sClause Aliasing.sColumnMention Aliasing.sHoldedQuery
                      Aliasing.readClause Aliasing.readColumns].
    rewrite Hlc2, Hl2. subst a1 a2. rewrite !fold_left_snoc, Hcols. reflexivity.
  - split; intros l Hl; cbn [Aliasing.sClause Aliasing.sColumnMention] in Hl; inversion Hl; subst l.
    + subst a1. eauto.
    + subst a2. eauto.
  - intros l Hl. destruct (Hold1 l Hl) as [Hne1 Hsame1].
    destruct (Hold2 l) as [Hne2 Hsame2]; [rewrite Hsame1; exact Hl|].
    cbn [Aliasing.sClause Aliasing.sColumnMention].
    split; [congruence|]. split; congruence.
Qed.

Context (normalizeAt : Aliasing.Normalizer).
Hypothesis (Hown : Aliasing.writesOnlyItsOwn normalizeAt).
Hypothesis (Himpl : Aliasing.implements normalizeAt).

(** One refinement: the result denotes what [RefineStatement] computes
    on the statement denoted, and every Aliasing.array that existed before is as
    it was. *)
Lemma RefineStatement_spec h s (params : option (gmap string value)) :
  Aliasing.wellFormed h s ->
  let run := Aliasing.RefineStatement normalizeAt h s params in
  Aliasing.view run.1.1 run.1.2 = (RefineStatement (Aliasing.view h s) params).1
  /\ run.2 = (RefineStatement (Aliasing.view h s) params).2
  /\ (forall l, is_Some (h !! l) -> run.1.1 !! l = h !! l).
Proof.
  intros Hwf. unfold Aliasing.RefineStatement.
  destruct (clone_spec h s Hwf) as (Hview & Hwfc & Hold).
  destruct (Aliasing.clone h s) as [h1 c] eqn:Hclone. cbn [fst snd] in *.
  set (refined := Aliasing.setQuery c _).
  assert (Hwfr : Aliasing.wellFormed h1 refined) by exact Hwfc.
  assert (Hvr : Aliasing.view h1 refined = refinedBeforeNormalize (Aliasing.view h s) params).
  { unfold refinedBeforeNormalize. rewrite clone_value.
    subst refined. unfold Aliasing.view, Aliasing.setQuery, setQuery in *.
    cbn [Aliasing.sEleType Aliasing.sId Aliasing.sQuery Aliasing.sClause Aliasing.sColumnMention Aliasing.sHoldedQuery
         eleType Id Query clause columnMention HoldedQuery] in *.
    injection Hview as He Hi Hq Hc Hm Hh.
    rewrite Hc, Hm, He, Hi, Hh, Hq.
    f_equal. f_equal.
    apply readClause_same. intros l Hl. apply Hold.
    destruct Hwf as [Hcl _]. destruct (Hcl l Hl) as [x ->]. eauto. }
  destruct (Himpl h1 refined Hwfr) as [Hv He].
  cbv zeta. rewrite Hv, He, Hvr. unfold RefineStatement.
  split; [reflexivity|]. split; [reflexivity|].
  intros l Hl. destruct (Hold l Hl) as (Hsame & Hnc & Hnm).
  rewrite <- Hsame. apply Hown; [rewrite Hsame; exact Hl | exact Hnc | exact Hnm].
Qed.

(** C5. Refining a registered statement twice with the same presence
    map gives the same refined text (indeed the same refined statement
    and the same error) both times, and after each refinement the
    registered statement still has the text, the clauses and the column
    bindings it had: the normalizer, which rewrites the statement it is
    handed in place, only ever sees the arrays of the copy. *)
Theorem refinement_repeats_and_spares_the_original :
  forall h s (params : option (gmap string value)),
    Aliasing.wellFormed h s ->
    let first := Aliasing.RefineStatement normalizeAt h s params in
    let second := Aliasing.RefineStatement normalizeAt first.1.1 s params in
    Aliasing.sQuery first.1.2 = Aliasing.sQuery second.1.2
    /\ Aliasing.view first.1.1 first.1.2 = Aliasing.view second.1.1 second.1.2
    /\ first.2 = second.2
    /\ Aliasing.view first.1.1 s = Aliasing.view h s
    /\ Aliasing.view second.1.1 s = Aliasing.view h s.
Proof.
  intros h s params Hwf first second.
  destruct (RefineStatement_spec h s params Hwf) as (Hv1 & He1 & Hold1).
  fold first in Hv1, He1, Hold1.
  destruct (view_same h first.1.1 s Hwf Hold1) as [Hs1 Hwf1].
  destruct (RefineStatement_spec first.1.1 s params Hwf1) as (Hv2 & He2 & Hold2).
  fold second in Hv2, He2, Hold2.
  destruct (view_same first.1.1 second.1.1 s Hwf1 Hold2) as [Hs2 _].
  rewrite Hs1 in Hv2, He2.
  assert (Hsame : Aliasing.view first.1.1 first.1.2 = Aliasing.view second.1.1 second.1.2) by congruence.
  split; [exact (f_equal Query Hsame)|].
  split; [exact Hsame|]. split; [congruence|]. split; [exact Hs1 | congruence].
Qed.
End AliasingFacts.

Lemma shiftingNormalizerAt_writesOnlyItsOwn :
  Aliasing.writesOnlyItsOwn shiftingNormalizerAt.
Proof.
  intros h s l Hl Hc Hm. unfold shiftingNormalizerAt. cbn [fst].
  destruct (Aliasing.sColumnMention s) as [lm|]; [|reflexivity].
  destruct (h !! lm) as [[c|c]|]; try reflexivity.
  rewrite lookup_insert_ne; [reflexivity | congruence].
Qed.

Lemma shiftingNormalizerAt_implements :
  @Aliasing.implements shiftingGlobals shiftingNormalizerAt.
Proof.
  intros h s [Hc Hm]. split; [|reflexivity].
  unfold shiftingNormalizerAt, Aliasing.view.
  cbn [fst snd normalize queryNormalizer shiftingGlobals shiftingNormalizer
       Aliasing.sEleType Aliasing.sId Aliasing.sQuery Aliasing.sClause
       Aliasing.sColumnMention Aliasing.sHoldedQuery
       eleType Id Query clause columnMention HoldedQuery].
  destruct (Aliasing.sColumnMention s) as [lm|] eqn:Hlm; [|reflexivity].
  destruct (Hm lm eq_refl) as [cols Hcols]. rewrite Hcols.
  f_equal.
  - apply (readClause_same h). intros l Hl.
    destruct (Hc l Hl) as [c Hlc].
    rewrite lookup_insert_ne; [reflexivity|]. intros ->. congruence.
  - cbn [Aliasing.readColumns]. rewrite lookup_insert_eq, Hcols. reflexivity.
Qed.

Lemma registered_wellFormed : Aliasing.wellFormed registeredHeap registered.
Proof.
  split; intros l Hl; inversion Hl; subst l; eexists; reflexivity.
Qed.

Lemma refinement_repeats_and_spares_the_original_witness :
  Aliasing.wellFormed registeredHeap registered
  /\ Aliasing.sQuery
       (Aliasing.RefineStatement shiftingNormalizerAt registeredHeap registered None).1.2
     = Aliasing.sQuery
         (Aliasing.RefineStatement shiftingNormalizerAt
            (Aliasing.RefineStatement shiftingNormalizerAt registeredHeap registered
                                      None).1.1
            registered None).1.2
  /\ Aliasing.view
       (Aliasing.RefineStatement shiftingNormalizerAt registeredHeap registered None).1.1
       registered
     = Aliasing.view registeredHeap registered.
Proof.
  split; [exact registered_wellFormed|].
  destruct (@refinement_repeats_and_spares_the_original shiftingGlobals
              shiftingNormalizerAt shiftingNormalizerAt_writesOnlyItsOwn
              shiftingNormalizerAt_implements registeredHeap registered None
              registered_wellFormed)
    as (Hq & _ & _ & Hv & _).
  split; [exact Hq | exact Hv].
Defined.

(** What the refinement of the sample leaves in the store: the copy's
    columns were shifted in place, the registered ones were not. *)
Example refinement_shifts_only_the_copy :
  let run := Aliasing.RefineStatement shiftingNormalizerAt registeredHeap registered None in
  Aliasing.readColumns run.1.1 (Aliasing.sColumnMention run.1.2)
    = [NewColumnBind "name" 41]
  /\ Aliasing.readColumns run.1.1 (Aliasing.sColumnMention registered)
     = [NewColumnBind "name" 40].
Proof. vm_compute. split; reflexivity. Qed.

(* ===================================================================== *)
(** * Further properties *)
(* ===================================================================== *)

(** ** The registry *)

Section RegistryFacts.
Context `{O : Outside}.

Lemma buildStatement_sets_normalizer (man : QueryMan) (current : option QueryNormalizer)
    (stmt built : QueryStatement) (now : option QueryNormalizer) :
  buildStatement man current stmt = (now, (built, None)) ->
  exists qn, now = Some qn
             /\ (current = Some qn \/ (current = None /\ newNormalizer (driverName man) = Some qn))
             /\ forall stmt2, buildStatement man now stmt2 = buildStatement man current stmt2.
Proof.
  unfold buildStatement. intros Hb.
  destruct current as [qn|].
  - exists qn.
    assert (now = Some qn) as ->.
    { destruct (negb (HasCondition stmt));
        [destruct (normalize qn stmt) as [n [e|]]|]; congruence. }
    split; [reflexivity|]. split; [by left|]. reflexivity.
  - destruct (newNormalizer (driverName man)) as [qn|] eqn:Hnew; [|congruence].
    exists qn.
    assert (now = Some qn) as ->.
    { destruct (negb (HasCondition stmt));
        [destruct (normalize qn stmt) as [n [e|]]|]; congruence. }
    split; [reflexivity|]. split; [by right|].
    intros stmt2. reflexivity.
Qed.

(** A statement that was registered is found again under its id in any
    spelling that has the same upper-case form, as it was built
    (normalized unless it has conditional clauses). *)
Theorem registered_statement_is_found (man man' : QueryMan)
    (current now : option QueryNormalizer) (stmt : QueryStatement) :
  registStatement man current stmt = (man', now, None) ->
  exists built,
    (buildStatement man current stmt).2 = (built, None)
    /\ (HasCondition stmt = true -> built = stmt)
    /\ forall id, stringsToUpper id = stringsToUpper (Id built) ->
                 find man' now id = (now, Done (built, None)).
Proof.
  unfold registStatement. intros Hreg.
  destruct (buildStatement man current stmt) as [now0 [built [err|]]] eqn:Hb;
    [congruence|].
  destruct (statementMap man !! stringsToUpper (Id built)) eqn:Hold; [congruence|].
  injection Hreg as <- <-.
  exists built. split; [reflexivity|]. split.
  - intros Hc. unfold buildStatement in Hb. rewrite Hc in Hb. cbn [negb] in Hb.
    destruct (match current with Some qn => Some qn | None => _ end); congruence.
  - intros id Hid. unfold find. cbn [statementMap].
    rewrite Hid, lookup_insert_eq. reflexivity.
Qed.

(** Once a statement is registered, registering any statement whose id
    has the same upper-case form is refused as a duplicate and changes
    nothing. *)
Theorem second_registration_is_refused (man man' : QueryMan)
    (current now : option QueryNormalizer) (stmt stmt2 built2 : QueryStatement) :
  registStatement man current stmt = (man', now, None) ->
  (buildStatement man' now stmt2).2 = (built2, None) ->
  stringsToUpper (Id built2) = stringsToUpper (Id (buildStatement man current stmt).2.1) ->
  registStatement man' now stmt2
  = (man', now, Some (Errorf fmtDuplicatedId [FStr (stringsToUpper (Id built2))])).
Proof.
  intros Hreg Hb2 Hid.
  unfold registStatement in Hreg.
  destruct (buildStatement man current stmt) as [now0 [built [err|]]] eqn:Hb;
    [congruence|].
  destruct (statementMap man !! stringsToUpper (Id built)) eqn:Hold; [congruence|].
  injection Hreg as <- <-.
  destruct (buildStatement_sets_normalizer _ _ _ _ _ Hb) as (qn & -> & _ & _).
  unfold registStatement.
  destruct (buildStatement _ (Some qn) stmt2) as [now2 [b2 e2]] eqn:Hb2'.
  cbn [snd] in Hb2. injection Hb2 as -> ->.
  assert (now2 = Some qn) as ->.
  { destruct (buildStatement_sets_normalizer _ _ _ _ _ Hb2') as (qn' & -> & [H1|[H1 _]] & _);
      congruence. }
  cbn [statementMap fst snd] in *. rewrite Hid, lookup_insert_eq. reflexivity.
Qed.

Lemma upperByte_lowerByte (c : ascii) :
  isASCIIByte c = true -> upperByte (lowerByte c) = upperByte c.
Proof. destruct c as [[] [] [] [] [] [] [] []]; intros H; try discriminate H; reflexivity. Qed.

Lemma lowerByte_ascii (c : ascii) :
  isASCIIByte c = true -> isASCIIByte (lowerByte c) = true.
Proof. destruct c as [[] [] [] [] [] [] [] []]; intros H; try discriminate H; reflexivity. Qed.

Lemma upper_of_lower (s : string) :
  isASCII s = true ->
  isASCII (mapBytes lowerByte s) = true
  /\ mapBytes upperByte (mapBytes lowerByte s) = mapBytes upperByte s.
Proof.
  induction s as [|c s IH]; simpl; [easy|].
  intros [Hc Hs]%andb_true_iff. destruct (IH Hs) as [IH1 IH2].
  rewrite lowerByte_ascii, IH1, upperByte_lowerByte, IH2 by assumption. easy.
Qed.

(** For ids of ASCII bytes the lookup ignores the case of letters: a
    statement stored under the upper-case form of one id is found under
    every id that has the same lower-case form. *)
Theorem ascii_lookup_ignores_case (man : QueryMan) (current : option QueryNormalizer)
    (id id' : string) (stmt : QueryStatement) :
  isASCII id = true -> isASCII id' = true ->
  stringsToLower id = stringsToLower id' ->
  statementMap man !! stringsToUpper id = Some stmt ->
  find man current id' = (current, Done (stmt, None))
  /\ find man current id = (current, Done (stmt, None)).
Proof.
  intros Ha Ha' Hlow Hreg.
  assert (Hup : stringsToUpper id' = stringsToUpper id).
  { unfold stringsToUpper, stringsToLower in *. rewrite Ha, Ha' in *.
    destruct (upper_of_lower id Ha) as [_ <-].
    destruct (upper_of_lower id' Ha') as [_ <-].
    by rewrite Hlow. }
  unfold find. rewrite Hup, Hreg. by split.
Qed.

(** An ad-hoc query that is shorter than ten bytes once trimmed makes the
    lookup panic: the type of the query is read off its first ten
    bytes. *)
Theorem short_user_query_panics (man : QueryMan) (current : option QueryNormalizer)
    (query : string) :
  statementMap man !! stringsToUpper query = None ->
  isUserQuery query = true ->
  (String.length (stringsTrim query blanks) < 10)%nat ->
  find man current query = (current, Panicked "slice bounds out of range").
Proof.
  intros Hreg Huser Hshort. unfold find, buildUserQueryStatement, getDeclareSqlType.
  rewrite Hreg, Huser.
  destruct (String.length (stringsTrim query blanks) <? 10)%nat eqn:Hlt; [reflexivity|].
  apply Nat.ltb_ge in Hlt. lia.
Qed.

Lemma stringsIndexFrom_absent (c : ascii) (s cutset : string) :
  inCutset c cutset = true -> freeOf cutset s = true ->
  forall i, stringsIndexFrom s (String c EmptyString) i = -1.
Proof.
  intros Hc. induction s as [|b s IH]; intros Hfree i; simpl; [reflexivity|].
  simpl in Hfree. apply andb_true_iff in Hfree as [Hb Hs].
  destruct (Ascii.eqb c b) eqn:E.
  - apply Ascii.eqb_eq in E. subst b. rewrite Hc in Hb. discriminate.
  - by apply IH.
Qed.

(** An id without a blank byte (space, tab, line feed, carriage return)
    that is not registered is reported as not found, and nothing is
    built for it. *)
Theorem unknown_id_is_reported (man : QueryMan) (current : option QueryNormalizer)
    (id : string) :
  statementMap man !! stringsToUpper id = None ->
  freeOf blanks id = true ->
  find man current id
  = (current, Done (zeroStatement, Some (Errorf fmtNoStatement [FStr id]))).
Proof.
  intros Hreg Hfree. unfold find. rewrite Hreg.
  unfold isUserQuery, stringsIndex, tab, newline, carriageReturn.
  rewrite !(stringsIndexFrom_absent _ id blanks) by (assumption || reflexivity).
  reflexivity.
Qed.

(** A text whose first byte is a space and that holds no tab, line feed
    or carriage return is not taken for an ad-hoc query, however many
    spaces follow: only the first space counts, and it is at index 0. *)
Theorem leading_space_hides_user_query (man : QueryMan)
    (current : option QueryNormalizer) (rest : string) :
  statementMap man !! stringsToUpper (String " " rest) = None ->
  freeOf (carriageReturn +:+ newline +:+ tab) rest = true ->
  isUserQuery (String " " rest) = false
  /\ find man current (String " " rest)
     = (current, Done (zeroStatement, Some (Errorf fmtNoStatement [FStr (String " " rest)]))).
Proof.
  intros Hreg Hfree.
  assert (Huser : isUserQuery (String " " rest) = false).
  { unfold isUserQuery, stringsIndex, tab, newline, carriageReturn.
    simpl.
    rewrite (stringsIndexFrom_absent (ascii_of_nat 9) rest
               (carriageReturn +:+ newline +:+ tab)) by (assumption || reflexivity).
    rewrite (stringsIndexFrom_absent (ascii_of_nat 10) rest
               (carriageReturn +:+ newline +:+ tab)) by (assumption || reflexivity).
    rewrite (stringsIndexFrom_absent (ascii_of_nat 13) rest
               (carriageReturn +:+ newline +:+ tab)) by (assumption || reflexivity).
    assert (Hnil : hasPrefix rest "" = true) by (destruct rest; reflexivity).
    rewrite Hnil. reflexivity. }
  split; [exact Huser|]. unfold find. rewrite Hreg, Huser. reflexivity.
Qed.
End RegistryFacts.

Lemma registered_statement_is_found_witness :
  @registStatement plainOutside emptyMan None stmtInsert
    = (mkQueryMan "mysql" (<["ADDROW" := stmtInsert]> ∅), Some plainNormalizer, None)
  /\ @find plainOutside (mkQueryMan "mysql" (<["ADDROW" := stmtInsert]> ∅))
          (Some plainNormalizer) "AddRow"
     = (Some plainNormalizer, Done (stmtInsert, None)).
Proof.
  split; [reflexivity|].
  destruct (@registered_statement_is_found plainOutside emptyMan
              (mkQueryMan "mysql" (<["ADDROW" := stmtInsert]> ∅))
              None (Some plainNormalizer) stmtInsert eq_refl)
    as (built & Hb & _ & Hfind).
  injection Hb as <-. apply Hfind. reflexivity.
Defined.

Lemma second_registration_is_refused_witness :
  @registStatement plainOutside (mkQueryMan "mysql" (<["ADDROW" := stmtInsert]> ∅))
     (Some plainNormalizer)
     (mkQueryStatement eleTypeUpdate "addrow" "UPDATE t SET a = 1" [] [] "")
  = (mkQueryMan "mysql" (<["ADDROW" := stmtInsert]> ∅), Some plainNormalizer,
     Some (Errorf fmtDuplicatedId [FStr "ADDROW"])).
Proof.
  apply (@second_registration_is_refused plainOutside emptyMan
           (mkQueryMan "mysql" (<["ADDROW" := stmtInsert]> ∅))
           None (Some plainNormalizer) stmtInsert
           (mkQueryStatement eleTypeUpdate "addrow" "UPDATE t SET a = 1" [] [] "")
           (mkQueryStatement eleTypeUpdate "addrow" "UPDATE t SET a = 1" [] [] ""));
    reflexivity.
Defined.


Lemma ascii_lookup_ignores_case_witness :
  @find plainOutside (mkQueryMan "mysql" (<["ADDROW" := stmtInsert]> ∅)) None "ADDrow"
  = (None, Done (stmtInsert, None)).
Proof.
  apply (@ascii_lookup_ignores_case plainOutside
           (mkQueryMan "mysql" (<["ADDROW" := stmtInsert]> ∅)) None "addRow" "ADDrow"
           stmtInsert); reflexivity.
Defined.

Lemma short_user_query_panics_witness :
  @find plainOutside emptyMan (Some plainNormalizer) "select 1"
  = (Some plainNormalizer, Panicked "slice bounds out of range").
Proof.
  apply (@short_user_query_panics plainOutside emptyMan (Some plainNormalizer) "select 1");
    [reflexivity | reflexivity | simpl; lia].
Defined.

Lemma unknown_id_is_reported_witness :
  @find plainOutside emptyMan (Some plainNormalizer) "findAll"
  = (Some plainNormalizer,
     Done (zeroStatement, Some (Errorf fmtNoStatement [FStr "findAll"]))).
Proof.
  apply (@unknown_id_is_reported plainOutside emptyMan (Some plainNormalizer) "findAll");
    reflexivity.
Defined.

Lemma leading_space_hides_user_query_witness :
  isUserQuery " select * from t where a = 1" = false
  /\ isUserQuery "select * from t where a = 1" = true.
Proof.
  split; [|reflexivity].
  apply (@leading_space_hides_user_query plainOutside emptyMan None
           "select * from t where a = 1"); reflexivity.
Defined.

(** ** The making of clauses *)

Lemma length_append (a b : string) :
  String.length (a +:+ b) = (String.length a + String.length b)%nat.
Proof. induction a as [|c a IH]; simpl; [reflexivity | by rewrite IH]. Qed.

Lemma append_cancel_r (a b w : string) : a +:+ w = b +:+ w -> a = b.
Proof.
  revert b. induction a as [|c a IH]; intros [|d b] Heq; simpl in Heq.
  - reflexivity.
  - apply (f_equal String.length) in Heq.
    rewrite ?length_append in Heq. simpl in Heq. rewrite ?length_append in Heq. lia.
  - apply (f_equal String.length) in Heq.
    rewrite ?length_append in Heq. simpl in Heq. rewrite ?length_append in Heq. lia.
  - injection Heq as -> Heq. f_equal. by apply IH.
Qed.

Lemma decimal_inj (n m : nat) : decimal n = decimal m -> n = m.
Proof.
  unfold decimal. intros Heq.
  apply DecimalNat.Unsigned.to_uint_inj.
  assert (Hs : Some (Nat.to_uint n) = Some (Nat.to_uint m)).
  { rewrite <- (NilEmpty.usu (Nat.to_uint n)), <- (NilEmpty.usu (Nat.to_uint m)).
    by rewrite Heq. }
  by injection Hs.
Qed.

(** Clauses made at different values of the package counter carry
    different tokens, whatever their keys, fragments and policies; each
    making moves the counter on by one, so the clauses of a run all
    differ in their tokens. *)
Theorem clause_tokens_are_distinct `{O : Outside}
    (key sql exist key' sql' exist' : string) (n m : nat) :
  n <> m ->
  IfClause.id (newIfClause key sql exist n).1
    <> IfClause.id (newIfClause key' sql' exist' m).1
  /\ (newIfClause key sql exist n).2 = S n
  /\ IfClause.id (newIfClause key sql exist n).1
       <> IfClause.id (newIfClause key' sql' exist' (newIfClause key sql exist n).2).1.
Proof.
  intros Hnm.
  assert (Hinj : forall k1 s1 e1 k2 s2 e2 a b,
             IfClause.id (newIfClause k1 s1 e1 a).1 = IfClause.id (newIfClause k2 s2 e2 b).1 ->
             a = b).
  { intros k1 s1 e1 k2 s2 e2 a b Heq. unfold newIfClause in Heq. simpl in Heq.
    injection Heq as Heq.
    apply (append_cancel_r (decimal a) (decimal b) ifClauseWrappingKey) in Heq.
    by apply decimal_inj. }
  split; [|split].
  - intros Heq. apply Hnm. eapply Hinj; exact Heq.
  - reflexivity.
  - intros Heq. apply Hinj in Heq. unfold newIfClause in Heq. simpl in Heq. lia.
Qed.

Lemma clause_tokens_are_distinct_witness :
  0%nat <> 1%nat
  /\ IfClause.id (@newIfClause plainOutside "name" "AND name = :name" "" 0).1
       <> IfClause.id (@newIfClause plainOutside "all" "AND hidden = 0" "false" 1).1.
Proof.
  split; [lia|].
  apply (@clause_tokens_are_distinct plainOutside "name" "AND name = :name" ""
           "all" "AND hidden = 0" "false" 0 1). lia.
Defined.

(** ** Accounting of the batch loop *)

Section BatchAccounting.
Context {DB : Type}.
Implicit Types (p : SqlProxy DB) (w : World DB) (r : ExecMultiResult).

Lemma stmtExec_counts p (query : string) (param : list value) w w'
    (o : sqlResult + error) :
  stmtExec p query param w = (w', o) ->
  prepareCalls w' = prepareCalls w /\ closeCalls w' = closeCalls w
  /\ execCalls w' = S (execCalls w)
  /\ executedRows w' = match o with
                       | inl _ => S (executedRows w)
                       | inr _ => executedRows w
                       end.
Proof.
  unfold stmtExec. destruct (execFault p (execCalls w)).
  - intros Heq; inversion Heq; subst; simpl. repeat split.
  - destruct (perform p (db w) query param).
    intros Heq; inversion Heq; subst; simpl. repeat split.
Qed.

(** What the loop has done when it returns: it never prepares or
    closes; it reports how far it came; it has made one call per element
    up to there, each but possibly the last of which reached the
    database; and an insert statement has one identifier per element it
    got past. *)
Lemma iterateRows_account p (bindRow : value -> rowBind) (stmt : QueryStatement)
    (args : list value) :
  forall (i n : Z) r r' w w' (e : option error),
    iterateRows p bindRow stmt args i r w = (w', Done (n, r', e)) ->
    prepareCalls w' = prepareCalls w /\ closeCalls w' = closeCalls w
    /\ i <= n <= i + len args
    /\ (e = None -> n = i + len args)
    /\ Z.of_nat (List.length (idList r'))
       = Z.of_nat (List.length (idList r)) + (if isInsert (eleType stmt) then n - i else 0)
    /\ Z.of_nat (execCalls w') <= Z.of_nat (execCalls w) + (n - i) + 1
    /\ Z.of_nat (executedRows w) + (n - i) <= Z.of_nat (executedRows w')
       <= Z.of_nat (executedRows w) + (n - i) + 1
    /\ (e = None -> Z.of_nat (executedRows w') = Z.of_nat (executedRows w) + (n - i)).
Proof.
  induction args as [|v rest IH]; intros i n r r' w w' e Hrun.
  - simpl in Hrun. inversion Hrun; subst. unfold len; simpl.
    repeat split; try lia. destruct (isInsert (eleType stmt)); lia.
  - cbn [iterateRows] in Hrun. unfold len. cbn [List.length].
    destruct (bindRow v) as [param|e0|why]; [| |congruence].
    2:{ inversion Hrun; subst. repeat split; try lia; try congruence.
        destruct (isInsert (eleType stmt)); lia. }
    destruct (stmtExec p (Query stmt) param w) as [w1 [res|e1]] eqn:Hex;
      destruct (stmtExec_counts _ _ _ _ _ _ Hex) as (Hp & Hc & Hx & Hr).
    2:{ inversion Hrun; subst. repeat split; try lia; try congruence.
        destruct (isInsert (eleType stmt)); lia. }
    destruct (isInsert (eleType stmt)) eqn:Hins.
    + destruct (insertIdErr res) as [e2|].
      * inversion Hrun; subst. simpl. repeat split; try lia; congruence.
      * apply IH in Hrun. unfold len in Hrun. rewrite ?Hins in Hrun.
        unfold addInsertId in Hrun. cbn [idList] in Hrun.
        rewrite length_app in Hrun. cbn [List.length] in Hrun.
        destruct Hrun as (H1 & H2 & H3 & H4 & H5 & H6 & H7 & H8).
        repeat split; try lia; try congruence.
        all: intros He; specialize (H4 He); specialize (H8 He); lia.
    + apply IH in Hrun. unfold len in Hrun. rewrite ?Hins in Hrun.
      cbn [idList] in Hrun.
      destruct Hrun as (H1 & H2 & H3 & H4 & H5 & H6 & H7 & H8).
      repeat split; try lia; try congruence.
      all: intros He; specialize (H4 He); specialize (H8 He); lia.
Qed.

Lemma iterateRows_keeps_handles p (bindRow : value -> rowBind) (stmt : QueryStatement)
    (args : list value) :
  forall (i : Z) r w w' (o : outcome (Z * ExecMultiResult * option error)),
    iterateRows p bindRow stmt args i r w = (w', o) ->
    prepareCalls w' = prepareCalls w /\ closeCalls w' = closeCalls w.
Proof.
  induction args as [|v rest IH]; intros i r w w' o Hrun.
  - simpl in Hrun. inversion Hrun; subst. by split.
  - cbn [iterateRows] in Hrun.
    destruct (bindRow v) as [param|e0|why]; try (inversion Hrun; subst; by split).
    destruct (stmtExec p (Query stmt) param w) as [w1 [res|e1]] eqn:Hex;
      destruct (stmtExec_counts _ _ _ _ _ _ Hex) as (Hp & Hc & _).
    2:{ inversion Hrun; subst. by split. }
    destruct (isInsert (eleType stmt)).
    + destruct (insertIdErr res).
      * inversion Hrun; subst. by split.
      * apply IH in Hrun. destruct Hrun. split; congruence.
    + apply IH in Hrun. destruct Hrun. split; congruence.
Qed.
End BatchAccounting.

Section BatchProperties.
Context {DB : Type}.
Implicit Types (p : SqlProxy DB) (w : World DB) (r : ExecMultiResult).

Lemma prepareAndIterate_account p (bindRow : value -> rowBind) (stmt : QueryStatement)
    (args : list value) w w' (n : Z) r (e : option error) :
  prepareAndIterate p bindRow stmt args w = (w', Done (n, r, e)) ->
  0 <= n <= len args
  /\ (e = None -> n = len args /\ prepareCalls w' = S (prepareCalls w)
                  /\ closeCalls w' = S (closeCalls w)
                  /\ Z.of_nat (executedRows w') = Z.of_nat (executedRows w) + len args)
  /\ Z.of_nat (List.length (idList r)) = (if isInsert (eleType stmt) then n else 0)
  /\ Z.of_nat (execCalls w') <= Z.of_nat (execCalls w) + n + 1
  /\ Z.of_nat (executedRows w) + n <= Z.of_nat (executedRows w')
     <= Z.of_nat (executedRows w) + n + 1.
Proof.
  unfold prepareAndIterate, prepare.
  destruct (prepareFault p (prepareCalls w)) as [err|].
  - intros Heq; inversion Heq; subst. simpl. unfold len.
    repeat split; try lia; try congruence. destruct (isInsert (eleType stmt)); lia.
  - destruct (iterateRows p bindRow stmt args 0 emptyResult _) as [w2 o] eqn:Hrun.
    intros Heq; inversion Heq; subst. clear Heq.
    apply iterateRows_account in Hrun. simpl in Hrun.
    destruct Hrun as (H1 & H2 & H3 & H4 & H5 & H6 & H7 & H8).
    cbn [stmtClose prepareCalls closeCalls execCalls executedRows].
    split; [lia|].
    split; [intros He; specialize (H4 He); specialize (H8 He); repeat split; lia|].
    split; [destruct (isInsert (eleType stmt)); lia|].
    split; lia.
Qed.

Lemma doExecWith_cases (shape : batchShape) p (stmt : QueryStatement)
    (args : list value) w :
  (exists why, doExecWith shape p stmt args w = (w, Panicked why))
  \/ (exists err, doExecWith shape p stmt args w = (w, Done (0, emptyResult, Some err)))
  \/ (exists bindRow, doExecWith shape p stmt args w
                      = prepareAndIterate p bindRow stmt args w).
Proof.
  destruct shape; unfold doExecWith.
  - unfold doExecWithNestedList.
    destruct (validateNestedList _ _ _) as [[err|]|why]; eauto.
  - unfold doExecWithNestedMap.
    destruct (validateNestedMap _ _ _) as [[err|]|why]; eauto.
  - unfold doExecWithStructList. eauto.
Qed.

(** A batch that came through: it reports every element as executed,
    exactly that many executions reached the database, one statement
    was prepared and closed, and the result holds one identifier per
    element for an insert statement and none otherwise. *)
Theorem batch_success_accounting (shape : batchShape) p (stmt : QueryStatement)
    (args : list value) w w' (n : Z) r :
  doExecWith shape p stmt args w = (w', Done (n, r, None)) ->
  n = len args
  /\ List.length (idList r) = (if isInsert (eleType stmt) then List.length args else 0%nat)
  /\ executedRows w' = (executedRows w + List.length args)%nat
  /\ prepareCalls w' = S (prepareCalls w)
  /\ closeCalls w' = S (closeCalls w).
Proof.
  intros Hrun.
  destruct (doExecWith_cases shape p stmt args w)
    as [[why Hc]|[[err Hc]|[bindRow Hc]]]; rewrite Hc in Hrun; try congruence.
  apply prepareAndIterate_account in Hrun.
  destruct Hrun as (H1 & H2 & H3 & H4 & H5).
  destruct (H2 eq_refl) as (Hn & Hp & Hc' & Hr). unfold len in *.
  repeat split; try lia; try assumption.
  destruct (isInsert (eleType stmt)); lia.
Qed.


Lemma preparedOk_zero p (a : nat) : preparedOk p a 0 = 0%nat.
Proof. reflexivity. Qed.

Lemma preparedOk_add p (a n m : nat) :
  preparedOk p a (n + m) = (preparedOk p a n + preparedOk p (a + n) m)%nat.
Proof.
  unfold preparedOk. rewrite seq_app, List.filter_app, length_app. reflexivity.
Qed.

Lemma handlesReleased_same p w w' :
  prepareCalls w' = prepareCalls w -> closeCalls w' = closeCalls w ->
  handlesReleased p w w'.
Proof.
  intros Hp Hc. unfold handlesReleased. rewrite Hp, Hc, Nat.sub_diag.
  unfold preparedOk. simpl. split; lia.
Qed.

Lemma handlesReleased_trans p w w1 w2 :
  handlesReleased p w w1 -> handlesReleased p w1 w2 -> handlesReleased p w w2.
Proof.
  unfold handlesReleased. intros [Hp1 Hc1] [Hp2 Hc2]. split; [lia|].
  rewrite Hc2, Hc1.
  replace (prepareCalls w2 - prepareCalls w)%nat
    with ((prepareCalls w1 - prepareCalls w) + (prepareCalls w2 - prepareCalls w1))%nat
    by lia.
  rewrite preparedOk_add.
  replace (prepareCalls w + (prepareCalls w1 - prepareCalls w))%nat
    with (prepareCalls w1) by lia.
  lia.
Qed.

Lemma prepareAndIterate_released p (bindRow : value -> rowBind) (stmt : QueryStatement)
    (args : list value) w :
  handlesReleased p w (prepareAndIterate p bindRow stmt args w).1
  /\ prepareCalls (prepareAndIterate p bindRow stmt args w).1 = S (prepareCalls w).
Proof.
  unfold prepareAndIterate, prepare, handlesReleased.
  destruct (prepareFault p (prepareCalls w)) as [err|] eqn:Hf.
  - cbn [fst prepareCalls closeCalls].
    replace (S (prepareCalls w) - prepareCalls w)%nat with 1%nat by lia.
    unfold preparedOk. simpl. rewrite Hf. simpl. repeat split; lia.
  - destruct (iterateRows p bindRow stmt args 0 emptyResult _) as [w2 o] eqn:Hrun.
    apply iterateRows_keeps_handles in Hrun. destruct Hrun as [Hp Hc].
    cbn [fst stmtClose prepareCalls closeCalls] in *.
    rewrite Hp, Hc.
    replace (S (prepareCalls w) - prepareCalls w)%nat with 1%nat by lia.
    unfold preparedOk. simpl. rewrite Hf. simpl. repeat split; lia.
Qed.

Lemma doExecWith_released (shape : batchShape) p (stmt : QueryStatement)
    (args : list value) w :
  handlesReleased p w (doExecWith shape p stmt args w).1
  /\ (prepareCalls (doExecWith shape p stmt args w).1 <= S (prepareCalls w))%nat.
Proof.
  destruct (doExecWith_cases shape p stmt args w)
    as [[why Hc]|[[err Hc]|[bindRow Hc]]]; rewrite Hc.
  - split; [by apply handlesReleased_same | simpl; lia].
  - split; [by apply handlesReleased_same | simpl; lia].
  - destruct (prepareAndIterate_released p bindRow stmt args w) as [H1 H2].
    split; [exact H1 | lia].
Qed.

Lemma execWith_unfold (shape : batchShape) p (stmt : QueryStatement)
    (args : list value) w :
  execWith shape p stmt args w = retryOnBadConn (doExecWith shape p stmt) args w.
Proof. destruct shape; reflexivity. Qed.

(** A batch call, its one retry included, prepares at most two
    statements and closes every one it prepared, on every way out, a
    panic of the loop among them. *)
Theorem batch_releases_its_handles (shape : batchShape) p (stmt : QueryStatement)
    (args : list value) w :
  handlesReleased p w (execWith shape p stmt args w).1
  /\ (prepareCalls (execWith shape p stmt args w).1 <= prepareCalls w + 2)%nat.
Proof.
  rewrite execWith_unfold. unfold retryOnBadConn.
  destruct (doExecWith_released shape p stmt args w) as [H1 H1'].
  destruct (doExecWith shape p stmt args w) as [w1 [[[executed result] err]|why]];
    simpl fst in *; cbv iota beta; simpl fst; [|split; [exact H1 | lia]].
  destruct (isBadConn err); simpl fst; [|split; [exact H1 | lia]].
  destruct ((0 <=? executed) && (executed <=? len args)); simpl fst;
    [|split; [exact H1 | lia]].
  destruct (doExecWith_released shape p stmt (drop (Z.to_nat executed) args) w1)
    as [H2 H2'].
  destruct (doExecWith shape p stmt (drop (Z.to_nat executed) args) w1)
    as [w2 [[[n2 r2] [e2|]]|why]]; simpl fst in *; cbv iota beta; simpl fst;
    (split; [eapply handlesReleased_trans; eassumption | lia]).
Qed.
End BatchProperties.

(** ** The way from the parameters to an execution *)

Section ExecuteFacts.
Context {DB : Type} (p : SqlProxy DB) `{G : Globals}.
Implicit Types (w : World DB).

Lemma proxyExec_done (query : string) (args : list value) w :
  exists x, (proxyExec p query args w).2 = Done x.
Proof.
  unfold proxyExec. destruct (stmtExec p query args w) as [w' [res|e]]; eauto.
Qed.

Lemma recoverExecute_done
    (r : World DB * outcome (option execResult * option error)) :
  exists x, (recoverExecute r).2 = Done x.
Proof. destruct r as [w' [x|why]]; simpl; eauto. Qed.

Lemma recoverExecute_world
    (r : World DB * outcome (option execResult * option error)) :
  (recoverExecute r).1 = r.1.
Proof. destruct r as [w' [x|why]]; reflexivity. Qed.

(** [execute] panics exactly when the refinement of the statement does,
    which it runs before it installs its [recover]; it has then not
    touched the database. Every later panic comes back as an error. *)
Theorem execute_panics_only_in_refinement (stmt : QueryStatement) (v : list value) w :
  ((exists why, (execute p stmt v w).2 = Panicked why)
   <-> (exists why, refineConditional stmt v = Panicked why))
  /\ ((exists why, (execute p stmt v w).2 = Panicked why) -> (execute p stmt v w).1 = w)
  /\ (HasCondition stmt = false -> exists x, (execute p stmt v w).2 = Done x).
Proof.
  assert (Hmain : (exists why, refineConditional stmt v = Panicked why)
                  \/ ((forall why, refineConditional stmt v <> Panicked why)
                      /\ exists x, (execute p stmt v w).2 = Done x)).
  { unfold execute.
    destruct (refineConditional stmt v) as [[execStmt [err|]]|why]; [| |eauto].
    - right. split; [discriminate | simpl; eauto].
    - right. split; [discriminate|].
      destruct v as [|v0 rest]; [apply proxyExec_done | apply recoverExecute_done]. }
  split; [split|split].
  - intros [why Hp]. destruct Hmain as [H|[_ [x Hx]]]; [exact H | congruence].
  - intros [why Hr]. unfold execute. rewrite Hr. simpl. eauto.
  - intros [why Hp]. destruct Hmain as [[why' Hr]|[_ [x Hx]]]; [|congruence].
    unfold execute. rewrite Hr. reflexivity.
  - intros Hno. destruct Hmain as [[why Hr]|[_ Hx]]; [|exact Hx].
    unfold refineConditional in Hr. rewrite Hno in Hr. discriminate.
Qed.

(** A nil pointer as first parameter is turned down before anything is
    sent: with [ErrNilPtr] by [execute] itself, or, for a statement with
    conditional clauses, by the refinement, whose error [execute]
    wraps. *)
Theorem nil_pointer_is_refused (stmt : QueryStatement) (pointee : Kind)
    (rest : list value) w :
  execute p stmt (VNilPtr pointee :: rest) w
  = (w, Done (None, Some (if HasCondition stmt
                          then ErrorfWrap fmtFailToBuild ErrNilPtr
                          else ErrNilPtr))).
Proof.
  unfold execute, refineConditional.
  destruct (HasCondition stmt); reflexivity.
Qed.

(** Scalars bound by position to a statement without array column and
    without conditional clauses: fewer values than columns is the count
    mismatch, with nothing sent; otherwise the query goes out once with
    all the values given, the surplus included. *)
Theorem positional_count_contract (stmt : QueryStatement) (v0 : value)
    (rest : list value) w :
  HasCondition stmt = false ->
  hasArrayBind stmt = false ->
  isScalar v0 = true ->
  (len (v0 :: rest) < len (columnMention stmt) ->
   execute p stmt (v0 :: rest) w
   = (w, Done (None, Some (Errorf fmtCountMismatch
                                  [FInt (len (columnMention stmt));
                                   FInt (len (v0 :: rest))]))))
  /\ (len (columnMention stmt) <= len (v0 :: rest) ->
      execute p stmt (v0 :: rest) w = proxyExec p (Query stmt) (v0 :: rest) w).
Proof.
  intros Hc Ha Hs.
  assert (Hex : execute p stmt (v0 :: rest) w
                = recoverExecute
                    (if len (v0 :: rest) <? len (columnMention stmt)
                     then (w, Done (None, Some (Errorf fmtCountMismatch
                                                       [FInt (len (columnMention stmt));
                                                        FInt (len (v0 :: rest))])))
                     else proxyExec p (Query stmt) (v0 :: rest) w)).
  { unfold execute, refineConditional. rewrite Hc. cbn [negb].
    destruct v0; try discriminate Hs; cbn [reformPtr kindOf];
      unfold execWithList; cbn [reformPtr kindOf]; rewrite Ha; reflexivity. }
  rewrite Hex. split; intros Hlen.
  - apply Z.ltb_lt in Hlen. rewrite Hlen. reflexivity.
  - apply Z.ltb_ge in Hlen. rewrite Hlen.
    unfold proxyExec. destruct (stmtExec p (Query stmt) (v0 :: rest) w) as [w' [res|e]];
      reflexivity.
Qed.

Lemma releasedWithin_refl w : releasedWithin p w w.
Proof. split; [by apply handlesReleased_same | lia]. Qed.

Lemma proxyExec_released (query : string) (args : list value) w :
  releasedWithin p w (proxyExec p query args w).1.
Proof.
  unfold proxyExec.
  destruct (stmtExec p query args w) as [w' o] eqn:Hex.
  destruct (stmtExec_counts _ _ _ _ _ _ Hex) as (Hp & Hc & _).
  destruct o; simpl; (split; [by apply handlesReleased_same | lia]).
Qed.

Lemma execWithMapResult_released (stmt : QueryStatement)
    (m : option (gmap string value)) w :
  releasedWithin p w (execWithMapResult p stmt m w).1.
Proof.
  unfold execWithMapResult, execWithMap.
  destruct (resolveColumnBindInMap stmt m) as [[[q param] [e|]]|why];
    try apply releasedWithin_refl.
  destruct (stmtExec p q param w) as [w' o] eqn:Hex.
  destruct (stmtExec_counts _ _ _ _ _ _ Hex) as (Hp & Hc & _).
  destruct o; simpl; (split; [by apply handlesReleased_same | lia]).
Qed.

Lemma batchAnswer_released (shape : batchShape) (stmt : QueryStatement)
    (args : list value) w :
  releasedWithin p w (batchAnswer (execWith shape p stmt args w)).1.
Proof.
  pose proof (batch_releases_its_handles shape p stmt args w) as H.
  destruct (execWith shape p stmt args w) as [w' [[res err]|why]]; exact H.
Qed.

Lemma execWithList_released (stmt : QueryStatement) (args : list value) w :
  releasedWithin p w (execWithList p stmt args w).1.
Proof.
  unfold execWithList.
  destruct args as [|a0 rest]; [apply releasedWithin_refl|].
  destruct (reformPtr a0) as [k val| |why]; try apply releasedWithin_refl.
  destruct (hasArrayBind stmt).
  - destruct (resolveColumnBindInList stmt (a0 :: rest)) as [[[q param] [e|]]|why];
      try apply releasedWithin_refl. apply proxyExec_released.
  - assert (Hplain : releasedWithin p w
               (if len (a0 :: rest) <? len (columnMention stmt)
                then (w, Done (None, Some (Errorf fmtCountMismatch
                                                  [FInt (len (columnMention stmt));
                                                   FInt (len (a0 :: rest))])))
                else proxyExec p (Query stmt) (a0 :: rest) w).1).
    { destruct (len (a0 :: rest) <? len (columnMention stmt));
        [apply releasedWithin_refl | apply proxyExec_released]. }
    destruct k; try exact Hplain.
    + apply (batchAnswer_released ListBatch).
    + apply (batchAnswer_released MapBatch).
    + destruct (negb (isValuer val)); [apply (batchAnswer_released StructBatch)|].
      exact Hplain.
Qed.

(** Whatever [execute] is given and however it ends, every statement
    handle it prepared is closed when it returns, and it prepared at
    most two. *)
Theorem execute_releases_its_handles (stmt : QueryStatement) (v : list value) w :
  handlesReleased p w (execute p stmt v w).1
  /\ (prepareCalls (execute p stmt v w).1 <= prepareCalls w + 2)%nat.
Proof.
  change (releasedWithin p w (execute p stmt v w).1).
  unfold execute.
  destruct (refineConditional stmt v) as [[execStmt [err|]]|why];
    try apply releasedWithin_refl.
  destruct v as [|v0 rest]; [apply proxyExec_released|].
  rewrite recoverExecute_world.
  destruct (reformPtr v0) as [k val| |why]; try apply releasedWithin_refl.
  assert (HL : releasedWithin p w (execList p val execStmt w).1).
  { unfold execList. destruct val; try apply execWithList_released;
      destruct (flattenToList _); try apply releasedWithin_refl;
      apply execWithList_released. }
  assert (HM : releasedWithin p w (execMap p val execStmt w).1).
  { unfold execMap. destruct val; try apply execWithMapResult_released;
      destruct (flattenToMap _); try apply releasedWithin_refl;
      apply execWithMapResult_released. }
  assert (HO : releasedWithin p w (execWithObject p execStmt val w).1).
  { unfold execWithObject. destruct (flattenStructToMap val);
      [apply execWithMapResult_released | apply releasedWithin_refl]. }
  destruct k; try apply execWithList_released; try apply releasedWithin_refl;
    try exact HM.
  - destruct (negb (hasArrayBind stmt)); [exact HL | apply execWithList_released].
  - destruct (negb (hasArrayBind stmt)); [exact HL | apply execWithList_released].
  - destruct (negb (isValuer val)); [exact HO | apply execWithList_released].
Qed.
End ExecuteFacts.

Lemma batch_success_accounting_witness :
  doExecWith ListBatch (counterTable (fun _ => None)) stmtInsert batchOfThree
             (newWorld 0%nat)
    = (mkWorld nat 3%nat 1 3 1 3, Done (3, mkExecMultiResult [1; 2; 3] 3, None))
  /\ List.length (idList (mkExecMultiResult [1; 2; 3] 3)) = List.length batchOfThree.
Proof.
  split; [reflexivity|].
  destruct (batch_success_accounting ListBatch (counterTable (fun _ => None)) stmtInsert
              batchOfThree (newWorld 0%nat) (mkWorld nat 3%nat 1 3 1 3) 3
              (mkExecMultiResult [1; 2; 3] 3) eq_refl) as (_ & Hids & _).
  exact Hids.
Defined.


Lemma positional_count_contract_witness :
  @execute nat (counterTable (fun _ => None)) plainGlobals stmtInsertPair [VInt 7]
           (newWorld 0%nat)
    = (newWorld 0%nat,
       Done (None, Some (Errorf fmtCountMismatch [FInt 2; FInt 1])))
  /\ @execute nat (counterTable (fun _ => None)) plainGlobals stmtInsertPair
               [VInt 7; VInt 8; VInt 9] (newWorld 0%nat)
     = (mkWorld nat 1%nat 0 1 0 1, Done (Some (DriverResult (mkSqlResult 1 1 None)), None)).
Proof.
  split.
  - apply (@positional_count_contract nat (counterTable (fun _ => None)) plainGlobals
             stmtInsertPair (VInt 7) [] (newWorld 0%nat) eq_refl eq_refl eq_refl).
    reflexivity.
  - destruct (@positional_count_contract nat (counterTable (fun _ => None)) plainGlobals
                stmtInsertPair (VInt 7) [VInt 8; VInt 9] (newWorld 0%nat)
                eq_refl eq_refl eq_refl) as [_ ->]; [reflexivity|].
    unfold len; simpl; lia.
Defined.

(** ** Binding: what goes right *)

Lemma typed_slice_is_expanded_witness :
  @resolveColumnBindInList plainGlobals stmtNormalAndArray
     ([VStr "on"] ++ VSlice [VInt 1; VInt 2; VInt 3] :: [] ++ [])
  = Done ("SELECT * FROM t WHERE s = ? AND id IN (?,?,?)",
          [VStr "on"] ++ [VInt 1; VInt 2; VInt 3] ++ [], None).
Proof.
  apply (@typed_slice_is_expanded plainGlobals stmtNormalAndArray
           [NewColumnBind "status" 27] [] (NewColumnBindArray "ids" 40)
           [VStr "on"] [] [] [VInt 1; VInt 2; VInt 3]
           "SELECT * FROM t WHERE s = ? AND id IN (?,?,?)");
    try reflexivity; repeat constructor.
Defined.

Lemma reformArrayHold_count_witness :
  countByte "?" (@reformArrayHold plainGlobals 3) = 3%nat.
Proof.
  apply (@reformArrayHold_count plainGlobals 3); [discriminate | lia].
Defined.

(** A list batch and a map batch are checked element by element before
    anything is prepared: with an element of too few values, of a wrong
    kind or, for a map, lacking entries, the call ends with the database
    as it was and no element executed. *)
Theorem bad_element_stops_batch_before_prepare {DB : Type} (p : SqlProxy DB)
    (stmt : QueryStatement) (args : list value) (w : World DB) :
  (Exists (badListRow (len (columnMention stmt))) args ->
   (exists why, doExecWithNestedList p stmt args w = (w, Panicked why))
   \/ (exists err, doExecWithNestedList p stmt args w
                  = (w, Done (0, emptyResult, Some err))))
  /\ (Exists (badMapRow (len (columnMention stmt))) args ->
      (exists why, doExecWithNestedMap p stmt args w = (w, Panicked why))
      \/ (exists err, doExecWithNestedMap p stmt args w
                     = (w, Done (0, emptyResult, Some err)))).
Proof.
  split.
  - apply nested_list_is_validated_before_prepare.
  - apply nested_map_is_validated_before_prepare.
Qed.

Lemma bad_element_stops_batch_before_prepare_witness :
  (exists why,
      doExecWithNestedList (counterTable (fun _ => None)) stmtInsertPair listBatchShort
                           (newWorld 0%nat) = (newWorld 0%nat, Panicked why))
  \/ (exists err,
         doExecWithNestedList (counterTable (fun _ => None)) stmtInsertPair listBatchShort
                              (newWorld 0%nat)
         = (newWorld 0%nat, Done (0, emptyResult, Some err))).
Proof.
  apply (proj1 (bad_element_stops_batch_before_prepare (counterTable (fun _ => None))
                  stmtInsertPair listBatchShort (newWorld 0%nat))).
  apply Exists_cons_tl, Exists_cons_hd. unfold badListRow, len. simpl. lia.
Defined.

(** A batch of maps or of records that loses its connection once and is
    retried from the element that failed returns what a connection that
    never faults returns for the whole batch, and leaves the same rows in
    the database. *)
Theorem retried_batch_of_maps_or_records {DB : Type} (shape : batchShape)
    (p : SqlProxy DB) (stmt : QueryStatement) (args : list value)
    (w0 w1 w2 : World DB) (k n2 : Z) (r1 r2 : ExecMultiResult) :
  shape <> ListBatch ->
  doExecWith shape p stmt args w0 = (w1, Done (k, r1, Some ErrBadConn)) ->
  doExecWith shape p stmt (drop (Z.to_nat k) args) w1 = (w2, Done (n2, r2, None)) ->
  execWith shape p stmt args w0 = (w2, Done (merged r1 r2, None))
  /\ exists wf,
      execWith shape (faultFree p) stmt args w0 = (wf, Done (merged r1 r2, None))
      /\ db wf = db w2.
Proof.
  intros Hshape H1 H2. destruct shape; [congruence| |]; simpl in *.
  - exact (retried_map_batch_equals_unfaulted_batch p stmt args w0 w1 w2 k n2 r1 r2 H1 H2).
  - exact (retried_struct_batch_equals_unfaulted_batch p stmt args w0 w1 w2 k n2 r1 r2 H1 H2).
Qed.

Lemma retried_batch_of_maps_or_records_witness :
  execWith MapBatch (counterTable (badConnAt 1)) stmtInsert mapsOfThree (newWorld 0%nat)
  = (mkWorld nat 3%nat 2 4 2 3, Done (mkExecMultiResult [1; 2; 3] 3, None))
  /\ execWith StructBatch (counterTable (badConnAt 1)) stmtInsert recordsOfThree
                          (newWorld 0%nat)
     = (mkWorld nat 3%nat 2 4 2 3, Done (mkExecMultiResult [1; 2; 3] 3, None)).
Proof.
  split.
  - destruct (retried_batch_of_maps_or_records MapBatch
                (counterTable (badConnAt 1)) stmtInsert mapsOfThree
                (newWorld 0%nat) (mkWorld nat 1%nat 1 2 1 1) (mkWorld nat 3%nat 2 4 2 3)
                1 2 (mkExecMultiResult [1] 1) (mkExecMultiResult [2; 3] 2)
                ltac:(discriminate) eq_refl eq_refl) as [-> _].
    reflexivity.
  - destruct (retried_batch_of_maps_or_records StructBatch
                (counterTable (badConnAt 1)) stmtInsert recordsOfThree
                (newWorld 0%nat) (mkWorld nat 1%nat 1 2 1 1) (mkWorld nat 3%nat 2 4 2 3)
                1 2 (mkExecMultiResult [1] 1) (mkExecMultiResult [2; 3] 2)
                ltac:(discriminate) eq_refl eq_refl) as [-> _].
    reflexivity.
Defined.

Section BindingFacts.
Context `{G : Globals}.

Lemma lookupAll_found (cols : list ColumnBind) (m : option (gmap string value)) :
  forall (param : list value),
    Forall (fun c => is_Some (mapIndex m (name c))) cols ->
    lookupAll cols m param
    = (param ++ map (fun c => default VNil (mapIndex m (name c))) cols, None).
Proof.
  induction cols as [|c cols IH]; intros param Hall; simpl.
  - by rewrite app_nil_r.
  - inversion Hall as [|? ? [found Hc] Hcs]; subst. rewrite Hc. simpl.
    rewrite IH by assumption. rewrite <- app_assoc. reflexivity.
Qed.

(** Binding by name to a statement without array column, when every
    column name is in the map: the arguments are the values of the
    columns in the order of the columns, one per column, and whatever
    else the map holds is left out. *)
Theorem named_binding_follows_columns (stmt : QueryStatement)
    (m : option (gmap string value)) :
  hasArrayBind stmt = false ->
  Forall (fun c => is_Some (mapIndex m (name c))) (columnMention stmt) ->
  resolveColumnBindInMap stmt m
  = Done (Query stmt,
          map (fun c => default VNil (mapIndex m (name c))) (columnMention stmt),
          None).
Proof.
  intros Hno Hall. unfold resolveColumnBindInMap. rewrite Hno. cbn [negb].
  rewrite lookupAll_found by assumption. reflexivity.
Qed.

(** Two array columns that both get a slice (not a [[]interface{}]) of
    more than one element: the binding stops at the second with the
    one-array error, wherever the two stand among the columns; the query
    returned is the one before any expansion. *)
Theorem second_typed_array_is_refused (stmt : QueryStatement)
    (before between after : list ColumnBind) (first second : ColumnBind)
    (argsBefore argsBetween rest items1 items2 : list value) (held : string) :
  columnMention stmt = before ++ first :: between ++ second :: after ->
  Forall normalColumn before -> Forall normalColumn between ->
  bindType first = columnBindTypeArray -> bindType second = columnBindTypeArray ->
  List.length argsBefore = List.length before ->
  List.length argsBetween = List.length between ->
  (List.length after <= List.length rest)%nat ->
  1 < len items1 -> 1 < len items2 ->
  reformHoldQuery (HoldedQuery stmt) first (len items1) = Done held ->
  resolveColumnBindInList stmt
    (argsBefore ++ VSlice items1 :: argsBetween ++ VSlice items2 :: rest)
  = Done (Query stmt, argsBefore ++ items1 ++ argsBetween ++ items2,
          Some (Errorf fmtOnlyOneArray [])).
Proof.
  intros Hcols Hb Hm Hf Hs Hlb Hlm Hla Hc1 Hc2 Hheld.
  unfold resolveColumnBindInList.
  assert (Hhas : hasArrayBind stmt = true).
  { unfold hasArrayBind. rewrite Hcols, existsb_app. simpl.
    unfold isArrayBind at 2. rewrite Hf. simpl. apply orb_true_r. }
  rewrite Hhas. cbn [negb]. rewrite clone_value, Hcols.
  assert (Hlen : (len (argsBefore ++ VSlice items1 :: argsBetween ++ VSlice items2 :: rest)
                  <? len (before ++ first :: between ++ second :: after)) = false).
  { apply Z.ltb_ge. unfold len.
    rewrite !length_app. cbn [List.length]. rewrite !length_app. cbn [List.length]. lia. }
  rewrite Hlen.
  rewrite bindLoopList_normal by (auto; reflexivity).
  cbn [bindLoopList bindParam bindHeld bindTouch app].
  unfold bindColumn at 1. rewrite Hf, flattenArray_typed_slice.
  cbn [bindParam bindHeld bindTouch].
  apply Z.ltb_lt in Hc1. rewrite Hc1, Hheld. cbn [bindFail].
  rewrite bindLoopList_normal by (auto; reflexivity).
  cbn [bindLoopList bindParam bindHeld bindTouch app].
  unfold bindColumn at 1. rewrite Hs, flattenArray_typed_slice.
  cbn [bindParam bindHeld bindTouch].
  apply Z.ltb_lt in Hc2. rewrite Hc2. cbn [bindFail bindFinish bindParam].
  rewrite <- !app_assoc. reflexivity.
Qed.
End BindingFacts.

Lemma named_binding_follows_columns_witness :
  @resolveColumnBindInMap plainGlobals stmtInsertPair
     (Some (<["B" := VInt 2]> (<["A" := VInt 1]> (<["C" := VInt 3]> ∅))))
  = Done ("INSERT INTO t(a,b) VALUES (?,?)", [VInt 1; VInt 2], None).
Proof.
  rewrite (@named_binding_follows_columns plainGlobals stmtInsertPair
             (Some (<["B" := VInt 2]> (<["A" := VInt 1]> (<["C" := VInt 3]> ∅))))).
  - vm_compute. reflexivity.
  - reflexivity.
  - repeat constructor; vm_compute; eauto.
Defined.

Lemma second_typed_array_is_refused_witness :
  @resolveColumnBindInList plainGlobals stmtTwoArrays
     ([] ++ VSlice [VInt 1; VInt 2] :: [] ++ VSlice [VInt 3; VInt 4] :: [])
  = Done ("SELECT * FROM t WHERE a IN (?) AND b IN (?)",
          [] ++ [VInt 1; VInt 2] ++ [] ++ [VInt 3; VInt 4],
          Some (Errorf fmtOnlyOneArray [])).
Proof.
  apply (@second_typed_array_is_refused plainGlobals stmtTwoArrays [] [] []
           (NewColumnBindArray "as" 29) (NewColumnBindArray "bs" 42)
           [] [] [] [VInt 1; VInt 2] [VInt 3; VInt 4]
           "SELECT * FROM t WHERE a IN (?,?) AND b IN (?)");
    try reflexivity; try constructor.
Defined.

(** The map made of a record holds its exported fields under their names
    and nothing else: an unexported field is never bound. *)
Theorem record_binds_exported_fields (valuer : bool)
    (fields : list (string * bool * value)) :
  NoDup (map fieldName fields) ->
  exists m,
    flattenStructToMap (VStruct valuer fields) = Done m
    /\ forall (n : string) (v : value),
        m !! n = Some v <-> In (n, true, v) fields.
Proof.
  intros Hnd. eexists. split; [reflexivity|].
  set (step := fun (m : gmap string value) (f : string * bool * value) =>
                 match f with
                 | (fname, exported, fv) => if exported : bool then <[fname := fv]> m else m
                 end).
  assert (Hgen : forall (l : list (string * bool * value)) (m0 : gmap string value),
             NoDup (map fieldName l) ->
             (forall f, In f l -> m0 !! fieldName f = None) ->
             forall n v, fold_left step l m0 !! n = Some v
                         <-> (m0 !! n = Some v \/ In (n, true, v) l)).
  { induction l as [|[[fname exported] fv] l IH]; intros m0 Hn Hfresh n v.
    - simpl. tauto.
    - cbn [fold_left map] in *. inversion Hn as [|? ? Hnotin Hn']; subst.
      rewrite IH; [|assumption|].
      + unfold step, fieldName in *. cbn [fst snd] in *.
        pose proof (Hfresh (fname, exported, fv) (or_introl eq_refl)) as Hf0.
        cbn [fst] in Hf0.
        destruct exported.
        * destruct (decide (fname = n)) as [->|Hne].
          -- rewrite lookup_insert_eq. split.
             ++ intros [H|H]; [injection H as ->; right; by left | right; by right].
             ++ intros [H|[H|H]]; [congruence | injection H as ->; by left | by right].
          -- rewrite lookup_insert_ne by assumption. split.
             ++ intros [H|H]; [by left | right; by right].
             ++ intros [H|[H|H]]; [by left | congruence | by right].
        * split.
          -- intros [H|H]; [by left | right; by right].
          -- intros [H|[H|H]]; [by left | congruence | by right].
      + intros f Hin. unfold step.
        assert (Hne : fname <> fieldName f).
        { intros ->. apply Hnotin. apply list_elem_of_In, in_map_iff.
          exists f. split; [reflexivity | assumption]. }
        pose proof (Hfresh f (or_intror Hin)) as Hf.
        destruct exported; [rewrite lookup_insert_ne by assumption|]; exact Hf. }
  intros n v. rewrite (Hgen fields ∅ Hnd); [|intros; apply lookup_empty].
  rewrite lookup_empty. split; [intros [H|H]; [discriminate | exact H] | by right].
Qed.

Lemma record_binds_exported_fields_witness :
  NoDup (map fieldName [("Name", true, VStr "x"); ("secret", false, VInt 1)])
  /\ exists m,
      flattenStructToMap recordWithHidden = Done m
      /\ forall (n : string) (v : value),
          m !! n = Some v
          <-> In (n, true, v) [("Name", true, VStr "x"); ("secret", false, VInt 1)].
Proof.
  assert (Hnd : NoDup (map fieldName [("Name", true, VStr "x"); ("secret", false, VInt 1)])).
  { apply NoDup_ListNoDup. repeat constructor; simpl; intuition discriminate. }
  split; [exact Hnd|].
  exact (record_binds_exported_fields false
           [("Name", true, VStr "x"); ("secret", false, VInt 1)] Hnd).
Defined.


(** ** Results: scanning and closing *)

(** What [QueryResult.Scan] answers, on a cursor without error, to a
    destination it cannot use: no destination at all is the recovered
    index panic; a first destination that is no pointer, a nil pointer, a
    pointer to an interface and a pointer to a pointer each have their
    own error. The cursor is not read in any of these cases. *)
Theorem Scan_destination_checks (p : option Stmt) (rs : Rows) (rest : list value) :
  rowsErr rs = None ->
  QueryResult.Scan (QueryResult.mk p None (Some rs)) []
  = Done (Some (Errorf fmtFailToScan [FStr "index out of range"]))
  /\ (forall x k, kindOf x = Some k -> k <> KPtr ->
         QueryResult.Scan (QueryResult.mk p None (Some rs)) (x :: rest)
         = Done (Some ErrQueryNeedsPtrParameter))
  /\ (forall k,
         QueryResult.Scan (QueryResult.mk p None (Some rs)) (VNilPtr k :: rest)
         = Done (Some ErrNilPtr))
  /\ (forall x,
         QueryResult.Scan (QueryResult.mk p None (Some rs)) (VPtrIface x :: rest)
         = Done (Some ErrInterfaceIsNotSupported))
  /\ (forall t, kindOf t = Some KPtr ->
         QueryResult.Scan (QueryResult.mk p None (Some rs)) (VPtr t :: rest)
         = Done (Some ErrPtrIsNotSupported)).
Proof.
  intros Herr. unfold QueryResult.Scan. cbn [QueryResult.err QueryResult.rows].
  rewrite Herr. repeat split.
  - intros x k Hk Hne. unfold classifyDest. rewrite Hk.
    destruct k; try congruence; reflexivity.
  - intros t Ht. unfold classifyDest. cbn [kindOf Kind_eqb negb]. rewrite Ht.
    reflexivity.
Qed.

Lemma Scan_destination_checks_witness :
  QueryResult.Scan (QueryResult.mk None None (Some emptyCursor)) []
  = Done (Some (Errorf fmtFailToScan [FStr "index out of range"])).
Proof.
  exact (proj1 (Scan_destination_checks None emptyCursor [] eq_refl)).
Defined.



(** [Close] closes the cursor and the statement handle the result holds,
    each once, and returns what closing the cursor answered (nil without
    a cursor); closing the result again closes nothing and returns nil. *)
Theorem Close_releases_once (r : QueryResult.t) (first second : option error) :
  countEvent RowsClosed (QueryResult_Close r first).1.2
  = (if bool_decide (is_Some (QueryResult.rows r)) then 1%nat else 0%nat)
  /\ countEvent StmtClosed (QueryResult_Close r first).1.2
     = (if bool_decide (is_Some (QueryResult.pstmt r)) then 1%nat else 0%nat)
  /\ (QueryResult_Close r first).2
     = (if bool_decide (is_Some (QueryResult.rows r)) then first else None)
  /\ QueryResult_Close (QueryResult_Close r first).1.1 second
     = ((QueryResult_Close r first).1.1, [], None).
Proof.
  destruct r as [ps e rows0]. unfold QueryResult_Close. simpl.
  destruct ps as [[]|], rows0; repeat split; reflexivity.
Qed.

(** After [Close] a [Scan] reads nothing: it returns nil when the result
    carries an error, and panics on the missing cursor when it does
    not. *)
Theorem Scan_after_Close (r : QueryResult.t) (closing : option error) (v : list value) :
  (forall e, QueryResult.err r = Some e ->
     QueryResult.Scan (QueryResult_Close r closing).1.1 v = Done None)
  /\ (QueryResult.err r = None ->
      exists why, QueryResult.Scan (QueryResult_Close r closing).1.1 v = Panicked why).
Proof.
  destruct r as [ps e rows0]. unfold QueryResult_Close, QueryResult.Scan.
  destruct rows0; simpl; split.
  - intros e' ->. reflexivity.
  - intros ->. eauto.
  - intros e' ->. reflexivity.
  - intros ->. eauto.
Qed.

(** ** Queries *)

Section QueryFacts.
Context (p : QueryProxy) `{G : Globals}.

Lemma sendQuery_answer (q : string) (args : list value) :
  queryAnswer p (sendQuery p q args).
Proof.
  unfold sendQuery, queryAnswer.
  destruct (runQuery p q args) as [rs|e] eqn:Hrun.
  - right. right. exists q, args, rs. auto.
  - right. left. exists q, args, e. auto.
Qed.

Lemma queryFailed_answer (e : error) : queryAnswer p (queryFailed e).
Proof. left. exists e. auto. Qed.

Lemma queryWithMap_answer (stmt : QueryStatement) (m : option (gmap string value)) :
  queryAnswer p (queryWithMap p stmt m).
Proof.
  unfold queryWithMap.
  destruct (resolveColumnBindInMap stmt m) as [[[q args] [e|]]|why].
  - apply queryFailed_answer.
  - apply sendQuery_answer.
  - reflexivity.
Qed.

Lemma queryWithList_answer (stmt : QueryStatement) (args : list value) :
  queryAnswer p (queryWithList p stmt args).
Proof.
  unfold queryWithList. destruct args as [|a0 args]; [reflexivity|].
  destruct (match a0 with
            | VPtr t => kindOf t
            | VPtrIface _ => Some KInterface
            | VNilPtr k => Some k
            | _ => kindOf a0
            end) as [k|]; [|reflexivity].
  destruct (_ && _); [apply queryFailed_answer|].
  destruct (_ <? _); [apply queryFailed_answer|].
  destruct (resolveColumnBindInList stmt (a0 :: args)) as [[[q ps] [e|]]|why].
  - apply queryFailed_answer.
  - apply sendQuery_answer.
  - reflexivity.
Qed.

Lemma queryList_answer (val : value) (stmt : QueryStatement) :
  queryAnswer p (queryList p val stmt).
Proof.
  unfold queryList.
  destruct val; try apply queryWithList_answer;
    destruct (flattenToList _); try apply queryWithList_answer; reflexivity.
Qed.

Lemma queryMap_answer (val : value) (stmt : QueryStatement) :
  queryAnswer p (queryMap p val stmt).
Proof.
  unfold queryMap.
  destruct val; try apply queryWithMap_answer;
    destruct (flattenToMap _); try apply queryWithMap_answer; reflexivity.
Qed.

Lemma queryWithObject_answer (stmt : QueryStatement) (val : value) :
  queryAnswer p (queryWithObject p stmt val).
Proof.
  unfold queryWithObject.
  destruct (flattenStructToMap val); [apply queryWithMap_answer | reflexivity].
Qed.

Lemma recoverQuery_answer (x : list (string * list value) * outcome QueryResult.t) :
  queryAnswer p x ->
  queryAnswer p (recoverQuery x) /\ forall sent why, recoverQuery x <> (sent, Panicked why).
Proof.
  destruct x as [sent [r|why]]; simpl.
  - intros Hx. split; [exact Hx | discriminate].
  - intros ->. split; [left; eauto | discriminate].
Qed.

Lemma queryMultiRow_cases (stmt : QueryStatement) (v : list value) :
  queryAnswer p (queryMultiRow p stmt v)
  /\ forall sent why,
      queryMultiRow p stmt v = (sent, Panicked why) ->
      refineConditional stmt v = Panicked why.
Proof.
  unfold queryMultiRow.
  destruct (refineConditional stmt v) as [[execStmt [err|]]|why0].
  - split; [apply queryFailed_answer | discriminate].
  - destruct v as [|v0 v].
    + split; [apply sendQuery_answer | discriminate].
    + match goal with
      | |- queryAnswer p (recoverQuery ?x) /\ _ =>
        assert (Hx : queryAnswer p x)
      end.
      { destruct (reformPtr v0) as [k val| |why1];
          [|apply queryFailed_answer | reflexivity].
        destruct k; try apply queryWithList_answer; try apply queryFailed_answer;
          try apply queryMap_answer.
        - destruct (negb _); [apply queryList_answer | apply queryWithList_answer].
        - destruct (negb _); [apply queryList_answer | apply queryWithList_answer].
        - destruct (negb _); [apply queryWithObject_answer | apply queryWithList_answer]. }
      destruct (recoverQuery_answer _ Hx) as [Hans Hnever].
      split; [exact Hans|]. intros sent why Habs. destruct (Hnever _ _ Habs).
  - split; [reflexivity|]. intros sent why Heq. congruence.
Qed.


(** With a record as parameter the query is bound against the statement
    as it was handed in, not against its refinement: for a statement
    without columns of its own (as a conditional statement is before its
    refinement) the text sent is the registered one, with no argument. *)
Theorem record_query_skips_refinement (stmt execStmt : QueryStatement)
    (fields : list (string * bool * value)) :
  columnMention stmt = [] ->
  refineConditional stmt [VStruct false fields] = Done (execStmt, None) ->
  queryMultiRow p stmt [VStruct false fields] = sendQuery p (Query stmt) [].
Proof.
  intros Hcols Href. unfold queryMultiRow. rewrite Href.
  cbn [reformPtr kindOf Kind_eqb isValuer negb].
  unfold queryWithObject. cbn [flattenStructToMap kindOf Kind_eqb negb].
  unfold queryWithMap, resolveColumnBindInMap, hasArrayBind.
  rewrite Hcols. reflexivity.
Qed.
End QueryFacts.

Lemma record_query_skips_refinement_witness :
  @queryMultiRow oneRowProxy plainGlobals stmtConditional
     [VStruct false [("Name", true, VStr "x")]]
  = sendQuery oneRowProxy (Query stmtConditional) [].
Proof.
  eapply (@record_query_skips_refinement oneRowProxy plainGlobals stmtConditional _
            [("Name", true, VStr "x")]).
  - reflexivity.
  - vm_compute. reflexivity.
Defined.

Section SingleRowFacts.
Context (p : QueryProxy) `{G : Globals} `{O : Outside}.

(** What [QueryRowWithStmt] hands back: it closes nothing itself; the
    result holds no statement handle and takes no part in a transaction;
    it carries an error and no cursor, or no error and the cursor the
    database answered the one query with. A [Scan] of it then closes that
    cursor, once, and nothing else. *)
Theorem single_row_result_is_error_or_cursor (man : QueryMan) (id : string)
    (v dest : list value) (closing : option error)
    (sent : list (string * list value)) (closed : list closeEvent)
    (rr : QueryRowResult.t) :
  QueryRowWithStmt p man id v closing = (sent, closed, Done rr) ->
  closed = []
  /\ QueryRowResult.transaction rr = false
  /\ QueryRowResult.pstmt rr = None
  /\ ((exists e, QueryRowResult.err rr = Some e /\ QueryRowResult.rows rr = None
                 /\ (QueryRowResult.Scan rr dest).1.2 = [])
      \/ (QueryRowResult.err rr = None
          /\ (exists q args rs,
                 sent = [(q, args)] /\ runQuery p q args = inl rs
                 /\ QueryRowResult.rows rr = Some rs)
          /\ (QueryRowResult.Scan rr dest).1.2 = [RowsClosed])).
Proof.
  unfold QueryRowWithStmt.
  destruct (find man (Some queryNormalizer) id).2 as [[stmt [err|]]|why];
    [| |discriminate].
  - intros Heq. injection Heq as <- <- <-.
    repeat split. left. exists err. repeat split.
  - assert (Hbad : forall s c r,
               ([] : list (string * list value), [] : list closeEvent,
                Done (QueryRowResult.newQueryRowResultError ErrQueryInvalidSqlType))
               = (s, c, Done r) ->
               c = [] /\ QueryRowResult.transaction r = false
               /\ QueryRowResult.pstmt r = None
               /\ ((exists e, QueryRowResult.err r = Some e /\ QueryRowResult.rows r = None
                              /\ (QueryRowResult.Scan r dest).1.2 = [])
                   \/ (QueryRowResult.err r = None
                       /\ (exists q args rs,
                              s = [(q, args)] /\ runQuery p q args = inl rs
                              /\ QueryRowResult.rows r = Some rs)
                       /\ (QueryRowResult.Scan r dest).1.2 = [RowsClosed]))).
    { intros s c r Heq. injection Heq as <- <- <-.
      repeat split. left. eexists. repeat split. }
    destruct (eleType stmt); try apply Hbad.
    pose proof (proj1 (queryMultiRow_cases p stmt v)) as Hans.
    destruct (queryMultiRow p stmt v) as [sent0 [qr|why]]; [|discriminate].
    simpl in Hans.
    destruct Hans as [(e & -> & ->)|[(q & a & e & -> & Hrun & ->)|(q & a & rs & -> & Hrun & ->)]];
      simpl; intros Heq; injection Heq as <- <- <-.
    + repeat split. left. exists e. repeat split.
    + repeat split. left. exists e. repeat split.
    + repeat split. right. repeat split. exists q, a, rs. auto.
Qed.
End SingleRowFacts.

Lemma single_row_result_is_error_or_cursor_witness :
  @QueryRowWithStmt plainGlobals plainOutside oneRowProxy emptyMan "nothing" [] None
  = ([], [], Done (QueryRowResult.newQueryRowResultError
                     (Errorf fmtNoStatement [FStr "nothing"])))
  /\ ([] : list closeEvent) = [].
Proof.
  assert (Hrun : @QueryRowWithStmt plainGlobals plainOutside oneRowProxy emptyMan
                   "nothing" [] None
                 = ([], [], Done (QueryRowResult.newQueryRowResultError
                                    (Errorf fmtNoStatement [FStr "nothing"]))))
    by (vm_compute; reflexivity).
  split; [exact Hrun|].
  exact (proj1 (@single_row_result_is_error_or_cursor oneRowProxy plainGlobals plainOutside
                  emptyMan "nothing" [] [] None [] []
                  (QueryRowResult.newQueryRowResultError
                     (Errorf fmtNoStatement [FStr "nothing"])) Hrun)).
Defined.
